(** * Stable matching: the hospital-proposing engine and its verifier

    A shallow embedding of [src/matcher.py] ([gale_shapley]) and of
    [src/verifier.py] ([check_validity], [check_stability], the verdict
    branch of [main]), with the properties the specification states about
    them; then of the readers [read_input] and [read_matching] and of the
    two [main]s, with further properties read off the code.

    Python integers are [Z]; Python lists are [list] with Python's
    indexing (negative indices count from the end, anything else outside
    the list raises [IndexError]); [None] is [option]'s [None]; the
    dictionary of [check_validity] is a [gmap]; exceptions are an error
    monad. *)

From Stdlib Require Import ZArith Lia.
From stdpp Require Import base tactics option list list_numbers gmap strings pretty.

Local Open Scope Z_scope.

(** ** Python values, exceptions and list indexing *)

Inductive pyexn : Type := IndexError | TypeError.

Inductive result (A : Type) : Type :=
  | Ok (a : A)
  | Raise (e : pyexn).
Arguments Ok {A} a.
Arguments Raise {A} e.

#[global] Instance result_ret : MRet result := fun A a => Ok a.
#[global] Instance result_bind : MBind result := fun A B f m =>
  match m with
  | Ok a => f a
  | Raise e => Raise e
  end.

(** [xs[i]] resolves the index the way CPython does. *)
Definition norm_index {A} (xs : list A) (i : Z) : result nat :=
  let len := Z.of_nat (length xs) in
  if bool_decide (0 <= i < len) then Ok (Z.to_nat i)
  else if bool_decide (- len <= i < 0) then Ok (Z.to_nat (i + len))
  else Raise IndexError.

Definition getitem {A} (xs : list A) (i : Z) : result A :=
  k ← norm_index xs i;
  match xs !! k with
  | Some v => Ok v
  | None => Raise IndexError
  end.

Definition setitem {A} (xs : list A) (i : Z) (v : A) : result (list A) :=
  k ← norm_index xs i;
  Ok (<[k := v]> xs).

(** An index taken from a value that may be [None]. *)
Definition as_index (v : option Z) : result Z :=
  match v with
  | Some z => Ok z
  | None => Raise TypeError
  end.

(** [[x] * n] and [range(n)]. *)
Definition py_repeat {A} (x : A) (n : Z) : list A := replicate (Z.to_nat n) x.
Definition range (n : Z) : list Z := seqZ 0 n.

(** Total reading of a list at an integer position, for stating
    invariants: it agrees with [getitem] inside the list. *)
#[global] Instance list_lookup_total_Z {A} `{Inhabited A} : LookupTotal Z A (list A) :=
  fun i xs => xs !!! Z.to_nat i.

(** ** Rank tables (both programs build them the same way) *)

(** [for rank, x in enumerate(prefs): ranking[x] = rank] *)
Fixpoint fill_ranking (ranking : list Z) (rank : Z) (prefs : list Z) : result (list Z) :=
  match prefs with
  | [] => Ok ranking
  | x :: prefs' =>
      ranking' ← setitem ranking x rank;
      fill_ranking ranking' (rank + 1) prefs'
  end.

Definition build_ranking (n : Z) (prefs : list Z) : result (list Z) :=
  fill_ranking (py_repeat 0 n) 0 prefs.

(** [for a in range(n): ...; table.append(ranking)] *)
Fixpoint ranking_rows (n : Z) (prefs : list (list Z)) (agents : list Z)
  : result (list (list Z)) :=
  match agents with
  | [] => Ok []
  | a :: agents' =>
      row ← getitem prefs a;
      ranking ← build_ranking n row;
      rest ← ranking_rows n prefs agents';
      Ok (ranking :: rest)
  end.

Definition ranking_table (n : Z) (prefs : list (list Z)) : result (list (list Z)) :=
  ranking_rows n prefs (range n).

(** ** The matching engine, [gale_shapley] in [matcher.py] *)

Record state : Type := State {
  hospital_match : list Z;
  student_match : list Z;
  next_proposal : list Z;
  proposal_count : Z
}.

Definition init_state (n : Z) : state :=
  State (py_repeat (-1) n) (py_repeat (-1) n) (py_repeat 0 n) 0.

(** The scan [for h in range(n): if hospital_match[h] == -1 and
    next_proposal[h] < n: free_hospital = h; break]. *)
Fixpoint find_free (n : Z) (st : state) (hs : list Z) : result Z :=
  match hs with
  | [] => Ok (-1)
  | h :: hs' =>
      m ← getitem (hospital_match st) h;
      if bool_decide (m = -1) then
        k ← getitem (next_proposal st) h;
        if bool_decide (k < n) then Ok h else find_free n st hs'
      else find_free n st hs'
  end.

(** [hospital_prefs[free_hospital][next_proposal[free_hospital]]]: the
    student the free hospital proposes to. *)
Definition next_student (hospital_prefs : list (list Z)) (st : state)
    (free_hospital : Z) : result Z :=
  prefs ← getitem hospital_prefs free_hospital;
  k ← getitem (next_proposal st) free_hospital;
  getitem prefs k.

(** One pass of the loop body after a free hospital was found. *)
Definition propose (hospital_prefs student_ranking : list (list Z))
    (st : state) (free_hospital : Z) : result state :=
  student ← next_student hospital_prefs st free_hospital;
  k' ← getitem (next_proposal st) free_hospital;
  np ← setitem (next_proposal st) free_hospital (k' + 1);
  let count := proposal_count st + 1 in
  cur ← getitem (student_match st) student;
  if bool_decide (cur = -1) then
    hm ← setitem (hospital_match st) free_hospital student;
    sm ← setitem (student_match st) student free_hospital;
    Ok (State hm sm np count)
  else
    current_hospital ← getitem (student_match st) student;
    row ← getitem student_ranking student;
    rank_new ← getitem row free_hospital;
    row' ← getitem student_ranking student;
    rank_cur ← getitem row' current_hospital;
    if bool_decide (rank_new < rank_cur) then
      hm ← setitem (hospital_match st) current_hospital (-1);
      hm' ← setitem hm free_hospital student;
      sm ← setitem (student_match st) student free_hospital;
      Ok (State hm' sm np count)
    else Ok (State (hospital_match st) (student_match st) np count).

(** One iteration of [while True]: [inl st'] to go round again, [inr st]
    when the loop breaks. *)
Definition iteration (n : Z) (hospital_prefs student_ranking : list (list Z))
    (st : state) : result (state + state) :=
  free_hospital ← find_free n st (range n);
  if bool_decide (free_hospital = -1) then Ok (inr st)
  else st' ← propose hospital_prefs student_ranking st free_hospital; Ok (inl st').

(** The loop, with a bound on the number of iterations: [None] when the
    bound is used up before the loop breaks. *)
Fixpoint main_loop (fuel : nat) (n : Z) (hospital_prefs student_ranking : list (list Z))
    (st : state) : option (result state) :=
  match fuel with
  | O => None
  | S fuel' =>
      match iteration n hospital_prefs student_ranking st with
      | Raise e => Some (Raise e)
      | Ok (inr st') => Some (Ok st')
      | Ok (inl st') => main_loop fuel' n hospital_prefs student_ranking st'
      end
  end.

(** The whole run, keeping the final state. *)
Definition run (fuel : nat) (n : Z) (hospital_prefs student_prefs : list (list Z))
  : option (result state) :=
  match ranking_table n student_prefs with
  | Raise e => Some (Raise e)
  | Ok student_ranking => main_loop fuel n hospital_prefs student_ranking (init_state n)
  end.

(** [gale_shapley] returns [hospital_match]. *)
Definition gale_shapley (fuel : nat) (n : Z) (hospital_prefs student_prefs : list (list Z))
  : option (result (list Z)) :=
  match run fuel n hospital_prefs student_prefs with
  | None => None
  | Some (Raise e) => Some (Raise e)
  | Some (Ok st) => Some (Ok (hospital_match st))
  end.


(** ** The verifier, [verifier.py] *)

(** The three messages of [check_validity] and the one of
    [check_stability]; indices are printed one-based. *)
Definition msg_unmatched (h : Z) : string :=
  "INVALID: Hospital " +:+ pretty (h + 1) +:+ " is not matched".

Definition msg_duplicate (s h0 h : Z) : string :=
  "INVALID: Student " +:+ pretty (s + 1) +:+ " is matched to both Hospital "
    +:+ pretty (h0 + 1) +:+ " and Hospital " +:+ pretty (h + 1).

(** [str] of a list of integers: [[1, 2]]. *)
Fixpoint py_list_items (l : list Z) : string :=
  match l with
  | [] => ""
  | [x] => pretty x
  | x :: l' => pretty x +:+ ", " +:+ py_list_items l'
  end.

Definition msg_uncovered (unmatched_list : list Z) : string :=
  "INVALID: Students [" +:+ py_list_items unmatched_list
    +:+ "] are not matched to any hospital".

Definition msg_blocking (h s : Z) : string :=
  "UNSTABLE: Blocking pair (Hospital " +:+ pretty (h + 1) +:+ ", Student "
    +:+ pretty (s + 1) +:+ ")".

(** First loop of [check_validity]: the first hospital whose entry is
    [None], if any. *)
Fixpoint first_unmatched (matching : list (option Z)) (hs : list Z) : result (option Z) :=
  match hs with
  | [] => Ok None
  | h :: hs' =>
      v ← getitem matching h;
      if bool_decide (v = None) then Ok (Some h) else first_unmatched matching hs'
  end.

(** Second loop: the dictionary [student_matched_to], keyed by the
    entries of [matching]; [inr msg] is the early return on a duplicate. *)
Fixpoint scan_duplicates (matching : list (option Z)) (student_matched_to : gmap (option Z) Z)
    (hs : list Z) : result (gmap (option Z) Z + string) :=
  match hs with
  | [] => Ok (inl student_matched_to)
  | h :: hs' =>
      s ← getitem matching h;
      match student_matched_to !! s with
      | Some h0 => s' ← as_index s; Ok (inr (msg_duplicate s' h0 h))
      | None => scan_duplicates matching (<[s := h]> student_matched_to) hs'
      end
  end.

(** The students of [range(n)] that are no key of the dictionary. The
    order in which Python iterates over the set difference is modelled by
    [elements]. *)
Definition unmatched_students (n : Z) (student_matched_to : gmap (option Z) Z) : list Z :=
  elements (list_to_set (C := gset Z) (range n)
              ∖ list_to_set (omap id (elements (dom student_matched_to)))).

Definition check_validity (n : Z) (matching : list (option Z)) : result (bool * string) :=
  u ← first_unmatched matching (range n);
  match u with
  | Some h => Ok (false, msg_unmatched h)
  | None =>
      d ← scan_duplicates matching ∅ (range n);
      match d with
      | inr msg => Ok (false, msg)
      | inl student_matched_to =>
          if bool_decide (Z.of_nat (size student_matched_to) ≠ n) then
            Ok (false, msg_uncovered ((fun s => s + 1) <$> unmatched_students n student_matched_to))
          else Ok (true, "")
      end
  end.

(** [student_match = [None] * n; for h in range(n): student_match[matching[h]] = h] *)
Fixpoint invert_matching (matching student_match : list (option Z)) (hs : list Z)
  : result (list (option Z)) :=
  match hs with
  | [] => Ok student_match
  | h :: hs' =>
      s ← getitem matching h;
      i ← as_index s;
      student_match' ← setitem student_match i (Some h);
      invert_matching matching student_match' hs'
  end.

(** The inner loop of the blocking-pair search for hospital [h]:
    [Some msg] is the early return. *)
Fixpoint scan_students (hospital_ranking student_ranking : list (list Z))
    (matching student_match : list (option Z)) (h : Z) (ss : list Z) : result (option string) :=
  match ss with
  | [] => Ok None
  | s :: ss' =>
      current_student ← getitem matching h;
      current_hospital ← getitem student_match s;
      if bool_decide (current_student = Some s) then
        scan_students hospital_ranking student_ranking matching student_match h ss'
      else
        hrow ← getitem hospital_ranking h;
        rank_s ← getitem hrow s;
        hrow' ← getitem hospital_ranking h;
        cs ← as_index current_student;
        rank_cs ← getitem hrow' cs;
        if bool_decide (rank_s < rank_cs) then
          srow ← getitem student_ranking s;
          rank_h ← getitem srow h;
          srow' ← getitem student_ranking s;
          ch ← as_index current_hospital;
          rank_ch ← getitem srow' ch;
          if bool_decide (rank_h < rank_ch) then Ok (Some (msg_blocking h s))
          else scan_students hospital_ranking student_ranking matching student_match h ss'
        else scan_students hospital_ranking student_ranking matching student_match h ss'
  end.

(** The outer loop. *)
Fixpoint scan_hospitals (n : Z) (hospital_ranking student_ranking : list (list Z))
    (matching student_match : list (option Z)) (hs : list Z) : result (option string) :=
  match hs with
  | [] => Ok None
  | h :: hs' =>
      found ← scan_students hospital_ranking student_ranking matching student_match h (range n);
      match found with
      | Some msg => Ok (Some msg)
      | None => scan_hospitals n hospital_ranking student_ranking matching student_match hs'
      end
  end.

Definition check_stability (n : Z) (hospital_prefs student_prefs : list (list Z))
    (matching : list (option Z)) : result (bool * string) :=
  student_match ← invert_matching matching (py_repeat None n) (range n);
  hospital_ranking ← ranking_table n hospital_prefs;
  student_ranking ← ranking_table n student_prefs;
  found ← scan_hospitals n hospital_ranking student_ranking matching student_match (range n);
  match found with
  | Some msg => Ok (false, msg)
  | None => Ok (true, "")
  end.

(** The three outcomes [main] prints, and what it prints for each. *)
Inductive verdict : Type :=
  | Invalid (message : string)
  | Unstable (message : string)
  | Stable.

Definition print_verdict (v : verdict) : string :=
  match v with
  | Invalid message => message
  | Unstable message => message
  | Stable => "VALID STABLE"
  end.

(** [main] after the two files are read: validity first, stability only
    for a valid matching. *)
Definition verify (n : Z) (hospital_prefs student_prefs : list (list Z))
    (matching : list (option Z)) : result verdict :=
  match check_validity n matching with
  | Raise e => Raise e
  | Ok (false, validity_msg) => Ok (Invalid validity_msg)
  | Ok (true, _) =>
      match check_stability n hospital_prefs student_prefs matching with
      | Raise e => Raise e
      | Ok (true, _) => Ok Stable
      | Ok (false, stability_msg) => Ok (Unstable stability_msg)
      end
  end.

(** ** What the specification talks about *)

(** The rank an agent gives [x]: the position of [x] in the agent's
    preference order (lower is more preferred). *)
Fixpoint rank_in (prefs : list Z) (x : Z) : Z :=
  match prefs with
  | [] => 0
  | y :: prefs' => if bool_decide (y = x) then 0 else 1 + rank_in prefs' x
  end.

(** A preference order, and a perfect matching, is a permutation of
    [0..n-1]. *)
Definition is_permutation (n : Z) (l : list Z) : Prop := l ≡ₚ range n.

Definition valid_prefs (n : Z) (prefs : list (list Z)) : Prop :=
  length prefs = Z.to_nat n ∧ Forall (is_permutation n) prefs.

Definition valid_instance (n : Z) (hospital_prefs student_prefs : list (list Z)) : Prop :=
  valid_prefs n hospital_prefs ∧ valid_prefs n student_prefs.

#[global] Instance is_permutation_dec n l : Decision (is_permutation n l).
Proof. unfold is_permutation. apply _. Defined.
#[global] Instance valid_prefs_dec n prefs : Decision (valid_prefs n prefs).
Proof. unfold valid_prefs. apply _. Defined.
#[global] Instance valid_instance_dec n hp sp : Decision (valid_instance n hp sp).
Proof. unfold valid_instance. apply _. Defined.

(** Agent [a] strictly prefers [x] to [y]. *)
Definition prefers (prefs : list (list Z)) (a x y : Z) : Prop :=
  rank_in (prefs !!! a) x < rank_in (prefs !!! a) y.

(** [(h, s)] blocks the matching [M] (proposer index to receiver index):
    they are not matched to each other, [h] prefers [s] to its match and
    [s] prefers [h] to the proposer matched to [s]. *)
Definition blocking_pair (n : Z) (hospital_prefs student_prefs : list (list Z))
    (M : list Z) (h s : Z) : Prop :=
  0 <= h < n ∧ 0 <= s < n ∧ M !!! h ≠ s ∧
  prefers hospital_prefs h s (M !!! h) ∧
  ∃ h', 0 <= h' < n ∧ M !!! h' = s ∧ prefers student_prefs s h h'.

Definition stable (n : Z) (hospital_prefs student_prefs : list (list Z)) (M : list Z) : Prop :=
  ∀ h s, ¬ blocking_pair n hospital_prefs student_prefs M h s.

(** The enumeration order of the verifier's two loops. *)
Definition pair_before (h' s' h s : Z) : Prop := h' < h ∨ (h' = h ∧ s' < s).

Definition first_blocking_pair (n : Z) (hospital_prefs student_prefs : list (list Z))
    (M : list Z) (h s : Z) : Prop :=
  blocking_pair n hospital_prefs student_prefs M h s ∧
  ∀ h' s', pair_before h' s' h s → ¬ blocking_pair n hospital_prefs student_prefs M h' s'.

(** The invariant of a rank table: [table[a][x]] is the rank [a] gives [x]. *)
Definition is_ranking_table (n : Z) (prefs table : list (list Z)) : Prop :=
  length table = Z.to_nat n ∧
  ∀ a, 0 <= a < n →
    length (table !!! a) = Z.to_nat n ∧
    ∀ x, 0 <= x < n → (table !!! a) !!! x = rank_in (prefs !!! a) x.

(** ** The run of the engine as a sequence of proposals *)

(** [run_steps st log st']: the loop goes from [st] to [st'] through the
    proposals of [log], each a pair (proposer, receiver), in the order
    they are made. *)
Inductive run_steps (n : Z) (hospital_prefs student_ranking : list (list Z))
  : state → list (Z * Z) → state → Prop :=
  | run_steps_nil st : run_steps n hospital_prefs student_ranking st [] st
  | run_steps_cons st h s st' log st'' :
      find_free n st (range n) = Ok h →
      h ≠ -1 →
      next_student hospital_prefs st h = Ok s →
      propose hospital_prefs student_ranking st h = Ok st' →
      run_steps n hospital_prefs student_ranking st' log st'' →
      run_steps n hospital_prefs student_ranking st ((h, s) :: log) st''.

Definition sum_Z (l : list Z) : Z := foldr Z.add 0 l.

(** What holds of the engine's state between two iterations. *)
Record engine_inv (n : Z) (hospital_prefs student_prefs : list (list Z)) (st : state)
  : Prop := EngineInv {
  inv_len_hm : length (hospital_match st) = Z.to_nat n;
  inv_len_sm : length (student_match st) = Z.to_nat n;
  inv_len_np : length (next_proposal st) = Z.to_nat n;
  inv_cursor : ∀ h, 0 <= h < n → 0 <= next_proposal st !!! h <= n;
  inv_hm : ∀ h, 0 <= h < n →
    hospital_match st !!! h = -1 ∨
    (0 <= hospital_match st !!! h < n ∧ student_match st !!! (hospital_match st !!! h) = h);
  inv_sm : ∀ s, 0 <= s < n →
    student_match st !!! s = -1 ∨
    (0 <= student_match st !!! s < n ∧ hospital_match st !!! (student_match st !!! s) = s);
  inv_last : ∀ h, 0 <= h < n → hospital_match st !!! h ≠ -1 →
    1 <= next_proposal st !!! h ∧
    hospital_match st !!! h = (hospital_prefs !!! h) !!! (next_proposal st !!! h - 1);
  inv_proposed : ∀ h k, 0 <= h < n → 0 <= k < next_proposal st !!! h →
    student_match st !!! ((hospital_prefs !!! h) !!! k) ≠ -1 ∧
    rank_in (student_prefs !!! ((hospital_prefs !!! h) !!! k))
            (student_match st !!! ((hospital_prefs !!! h) !!! k))
      <= rank_in (student_prefs !!! ((hospital_prefs !!! h) !!! k)) h;
  inv_count : proposal_count st = sum_Z (next_proposal st)
}.

(** No stable matching gives a hospital a student that has turned it
    down. *)
Definition rejections_final (n : Z) (hospital_prefs student_prefs : list (list Z))
    (st : state) : Prop :=
  ∀ h k, 0 <= h < n → 0 <= k < next_proposal st !!! h →
    (hospital_prefs !!! h) !!! k ≠ hospital_match st !!! h →
    ∀ M, is_permutation n M → stable n hospital_prefs student_prefs M →
      M !!! h ≠ (hospital_prefs !!! h) !!! k.

(** The loop's exit condition: no unmatched hospital has a student left
    to propose to. *)
Definition no_free_hospital (n : Z) (st : state) : Prop :=
  ∀ h, 0 <= h < n → ¬ (hospital_match st !!! h = -1 ∧ next_proposal st !!! h < n).

(** The state after hospital [h] has proposed, case by case, for states
    that satisfy the invariant. *)
Definition after_proposal (hospital_prefs student_prefs : list (list Z))
    (st : state) (h : Z) : state :=
  let k := next_proposal st !!! h in
  let s := (hospital_prefs !!! h) !!! k in
  let c := student_match st !!! s in
  let np := <[Z.to_nat h := k + 1]> (next_proposal st) in
  let count := proposal_count st + 1 in
  if decide (c = -1) then
    State (<[Z.to_nat h := s]> (hospital_match st))
          (<[Z.to_nat s := h]> (student_match st)) np count
  else if decide (rank_in (student_prefs !!! s) h < rank_in (student_prefs !!! s) c) then
    State (<[Z.to_nat h := s]> (<[Z.to_nat c := -1]> (hospital_match st)))
          (<[Z.to_nat s := h]> (student_match st)) np count
  else State (hospital_match st) (student_match st) np count.

(** The dictionary of [check_validity] once the hospitals below [lo] are
    entered: it maps each of their entries to the hospital that has it, one
    key for each. *)
Definition seen_below (matching : list (option Z)) (seen : gmap (option Z) Z) (lo : Z) : Prop :=
  (∀ v h0, seen !! v = Some h0 ↔ 0 <= h0 < lo ∧ matching !!! h0 = v) ∧
  Z.of_nat (size seen) = lo.

(** A candidate pairing is structurally invalid when some proposer has no
    receiver or two proposers have the same one. *)
Definition structurally_invalid (n : Z) (matching : list (option Z)) : Prop :=
  (∃ h, 0 <= h < n ∧ matching !!! h = None) ∨
  (∃ h h', 0 <= h < n ∧ 0 <= h' < n ∧ h ≠ h' ∧ matching !!! h = matching !!! h').

(** What the printed line of a verdict looks like. *)
Definition printed_as (v : verdict) (line : string) : Prop :=
  match v with
  | Invalid _ => String.prefix "INVALID: " line = true
  | Unstable _ => String.prefix "UNSTABLE: " line = true
  | Stable => line = "VALID STABLE"
  end.

(** ** Further invariants and notions used below *)

(** What holds of the cursors whatever the preference lists are. *)
Definition cursors_bounded (n : Z) (st : state) : Prop :=
  length (hospital_match st) = Z.to_nat n ∧
  length (next_proposal st) = Z.to_nat n ∧
  (∀ h, 0 <= h < n → 0 <= next_proposal st !!! h <= n) ∧
  proposal_count st = sum_Z (next_proposal st).

(** ** Reading and printing: [read_input], [read_matching] and the two [main]s *)

(** The readers raise [ValueError] with a message of their own, besides
    what list indexing raises. *)
Inductive outcome (A : Type) : Type :=
  | Return (a : A)
  | ValueError (message : string)
  | Uncaught (e : pyexn).
Arguments Return {A} a.
Arguments ValueError {A} message.
Arguments Uncaught {A} e.

#[global] Instance outcome_ret : MRet outcome := fun A a => Return a.
#[global] Instance outcome_bind : MBind outcome := fun A B f m =>
  match m with
  | Return a => f a
  | ValueError message => ValueError message
  | Uncaught e => Uncaught e
  end.

Definition lift {A} (r : result A) : outcome A :=
  match r with
  | Ok a => Return a
  | Raise e => Uncaught e
  end.

Definition msg_expected_lines (n len : Z) : string :=
  "Expected " +:+ pretty (1 + 2 * n) +:+ " lines, got " +:+ pretty len.

Definition msg_row_length (who : string) (i len n : Z) : string :=
  who +:+ " " +:+ pretty i +:+ " preference list has " +:+ pretty len
    +:+ " entries, expected " +:+ pretty n.

Definition msg_expected_pairs (n len : Z) : string :=
  "Expected " +:+ pretty n +:+ " matching pairs, got " +:+ pretty len.

Definition msg_line_format (line : string) : string :=
  "Invalid matching line format: '" +:+ line +:+ "'".

Definition msg_hospital_index (hospital : Z) : string :=
  "Invalid hospital index: " +:+ pretty (hospital + 1).

Definition msg_student_index (student : Z) : string :=
  "Invalid student index: " +:+ pretty (student + 1).

(** The line [main] of [matcher.py] prints for a pair. *)
Definition pair_line (hospital student : Z) : string :=
  pretty (hospital + 1) +:+ " " +:+ pretty (student + 1).

(** The loop of [main] in [matcher.py] that prints the pairing: the
    lines it prints when no lookup fails. *)
Fixpoint print_pairs (matching : list Z) (hs : list Z) : result (list string) :=
  match hs with
  | [] => Ok []
  | hospital :: hs' =>
      student ← getitem matching hospital;
      rest ← print_pairs matching hs';
      Ok (pair_line hospital student :: rest)
  end.

Section readers.
(** Python's [str.strip], [str.split] without arguments and [int] on a
    string are not code of the programs: the readers are stated over
    them. *)
Context (py_strip : string → string).
Context (py_split : string → list string).
Context (py_int : string → outcome Z).

(** [[line.strip() for line in lines if line.strip()]] *)
Definition nonblank_lines (lines : list string) : list string :=
  py_strip <$> filter (fun line => py_strip line ≠ "") lines.

(** [[int(x) - 1 for x in tokens]] *)
Fixpoint parse_prefs (tokens : list string) : outcome (list Z) :=
  match tokens with
  | [] => Return []
  | x :: tokens' =>
      v ← py_int x;
      rest ← parse_prefs tokens';
      Return (v - 1 :: rest)
  end.

(** One of the two loops of [read_input] that read [n] preference rows:
    [who] and [shift] give the wording of its error message. *)
Fixpoint read_rows (who : string) (shift n : Z) (lines : list string) (indices : list Z)
  : outcome (list (list Z)) :=
  match indices with
  | [] => Return []
  | i :: indices' =>
      line ← lift (getitem lines i);
      prefs ← parse_prefs (py_split line);
      if bool_decide (Z.of_nat (length prefs) ≠ n) then
        ValueError (msg_row_length who (i - shift) (Z.of_nat (length prefs)) n)
      else
        rest ← read_rows who shift n lines indices';
        Return (prefs :: rest)
  end.

(** [read_input], from the lines of the file. *)
Definition read_input (file_lines : list string)
  : outcome (Z * list (list Z) * list (list Z)) :=
  let lines := nonblank_lines file_lines in
  first ← lift (getitem lines 0);
  n ← py_int first;
  if bool_decide (Z.of_nat (length lines) < 1 + 2 * n) then
    ValueError (msg_expected_lines n (Z.of_nat (length lines)))
  else
    hospital_prefs ← read_rows "Hospital" 0 n lines (seqZ 1 n);
    student_prefs ← read_rows "Student" n n lines (seqZ (n + 1) n);
    Return (n, hospital_prefs, student_prefs).

(** The body of the loop of [read_matching]. *)
Definition read_pair (n : Z) (matching : list (option Z)) (line : string)
  : outcome (list (option Z)) :=
  let parts := py_split line in
  if bool_decide (length parts ≠ 2%nat) then ValueError (msg_line_format line)
  else
    part0 ← lift (getitem parts 0);
    h ← py_int part0;
    part1 ← lift (getitem parts 1);
    s ← py_int part1;
    let hospital := h - 1 in
    let student := s - 1 in
    if bool_decide (hospital < 0 ∨ hospital >= n) then
      ValueError (msg_hospital_index hospital)
    else if bool_decide (student < 0 ∨ student >= n) then
      ValueError (msg_student_index student)
    else lift (setitem matching hospital (Some student)).

Fixpoint read_pairs (n : Z) (matching : list (option Z)) (lines : list string)
  : outcome (list (option Z)) :=
  match lines with
  | [] => Return matching
  | line :: lines' =>
      matching' ← read_pair n matching line;
      read_pairs n matching' lines'
  end.

(** [read_matching], from the lines of the file. *)
Definition read_matching (file_lines : list string) (n : Z) : outcome (list (option Z)) :=
  let lines := nonblank_lines file_lines in
  if bool_decide (Z.of_nat (length lines) ≠ n) then
    ValueError (msg_expected_pairs n (Z.of_nat (length lines)))
  else read_pairs n (py_repeat None n) lines.

(** The [try] body of [main] in [matcher.py]: the lines it prints, or the
    exception its handlers receive. *)
Definition matcher_main (fuel : nat) (file_lines : list string)
  : option (outcome (list string)) :=
  match read_input file_lines with
  | Return (n, hospital_prefs, student_prefs) =>
      match gale_shapley fuel n hospital_prefs student_prefs with
      | None => None
      | Some (Raise e) => Some (Uncaught e)
      | Some (Ok matching) => Some (lift (print_pairs matching (range n)))
      end
  | ValueError message => Some (ValueError message)
  | Uncaught e => Some (Uncaught e)
  end.

(** The [try] body of [main] in [verifier.py]: the line it prints, or the
    exception its handlers receive. *)
Definition verifier_main (input_lines matching_lines : list string) : outcome string :=
  input ← read_input input_lines;
  let '(n, hospital_prefs, student_prefs) := input in
  matching ← read_matching matching_lines n;
  v ← lift (verify n hospital_prefs student_prefs matching);
  Return (print_verdict v).
End readers.

(** Stand-ins for the three built-ins on ASCII text, to run the readers
    on examples: white space is the six ASCII white-space characters, and
    an integer is an optional sign (codes 45 and 43) and decimal digits. *)
Fixpoint drop_spaces (s : string) : string :=
  match s with
  | String c s' => if Ascii.is_space c then drop_spaces s' else s
  | EmptyString => EmptyString
  end.

Definition ascii_strip (s : string) : string :=
  String.rev (drop_spaces (String.rev (drop_spaces s))).

Definition ascii_split (s : string) : list string := String.words s.

Fixpoint parse_digits (acc : Z) (s : string) : option Z :=
  match s with
  | EmptyString => Some acc
  | String c s' =>
      match Ascii.is_nat c with
      | Some d => parse_digits (10 * acc + Z.of_nat d) s'
      | None => None
      end
  end.

Definition ascii_int (s : string) : outcome Z :=
  let bad := ValueError ("invalid literal for int() with base 10: '" +:+ s +:+ "'") in
  let signed (sign : Z) (digits : string) :=
    match digits with
    | EmptyString => bad
    | _ => match parse_digits 0 digits with
           | Some z => Return (sign * z)
           | None => bad
           end
    end in
  match s with
  | EmptyString => bad
  | String c digits =>
      if Ascii.eqb c (Ascii.ascii_of_nat 45) then signed (-1) digits
      else if Ascii.eqb c (Ascii.ascii_of_nat 43) then signed 1 digits
      else signed 1 s
  end.

(** The line names the pair: it splits into two tokens that read as the
    one-based indices of [hospital] and [student]. *)
Definition line_names (py_split : string → list string) (py_int : string → outcome Z)
    (line : string) (hospital student : Z) : Prop :=
  ∃ part0 part1,
    py_split line = [part0; part1] ∧
    py_int part0 = Return (hospital + 1) ∧
    py_int part1 = Return (student + 1).

(** Preference tables as [read_input] leaves them when the numbers of
    the file lie between [1] and [n]: [n] rows of [n] indices, not
    necessarily permutations. *)
Definition rows_in_range (n : Z) (prefs : list (list Z)) : Prop :=
  length prefs = Z.to_nat n ∧
  Forall (fun row => length row = Z.to_nat n ∧ Forall (fun x => 0 <= x < n) row) prefs.

#[global] Instance rows_in_range_dec n prefs : Decision (rows_in_range n prefs).
Proof. unfold rows_in_range. apply _. Defined.

(** What holds of the engine's state on such tables. *)
Definition matches_in_range (n : Z) (st : state) : Prop :=
  cursors_bounded n st ∧
  length (student_match st) = Z.to_nat n ∧
  (∀ h, 0 <= h < n → hospital_match st !!! h = -1 ∨ 0 <= hospital_match st !!! h < n) ∧
  (∀ s, 0 <= s < n → student_match st !!! s = -1 ∨ 0 <= student_match st !!! s < n).

(** * Properties *)

(** ** Indexing inside a list *)

Lemma lookup_total_Z_eq {A} `{Inhabited A} (xs : list A) (i : Z) :
  xs !!! i = xs !!! Z.to_nat i.
Proof. reflexivity. Qed.

Lemma getitem_in_range {A} `{Inhabited A} (xs : list A) (i : Z) :
  0 <= i < Z.of_nat (length xs) → getitem xs i = Ok (xs !!! i).
Proof.
  intros Hi. unfold getitem, norm_index. rewrite bool_decide_eq_true_2 by done.
  cbn. rewrite lookup_total_Z_eq.
  destruct (lookup_lt_is_Some_2 xs (Z.to_nat i)) as [v Hv]; [lia|].
  rewrite Hv. by rewrite (list_lookup_total_correct _ _ _ Hv).
Qed.

Lemma setitem_in_range {A} (xs : list A) (i : Z) (v : A) :
  0 <= i < Z.of_nat (length xs) → setitem xs i v = Ok (<[Z.to_nat i := v]> xs).
Proof.
  intros Hi. unfold setitem, norm_index. by rewrite bool_decide_eq_true_2 by done.
Qed.

Lemma lookup_total_Z_insert_eq {A} `{Inhabited A} (xs : list A) (i : Z) (v : A) :
  0 <= i < Z.of_nat (length xs) → <[Z.to_nat i := v]> xs !!! i = v.
Proof.
  intros Hi. rewrite lookup_total_Z_eq. apply list_lookup_total_insert_eq. lia.
Qed.

Lemma lookup_total_Z_insert_ne {A} `{Inhabited A} (xs : list A) (i j : Z) (v : A) :
  0 <= i → 0 <= j → i ≠ j → <[Z.to_nat i := v]> xs !!! j = xs !!! j.
Proof.
  intros Hi Hj Hne. rewrite !lookup_total_Z_eq. apply list_lookup_total_insert_ne. lia.
Qed.

Lemma lookup_total_Z_replicate {A} `{Inhabited A} (x : A) (n i : Z) :
  0 <= i < n → py_repeat x n !!! i = x.
Proof.
  intros Hi. rewrite lookup_total_Z_eq. unfold py_repeat.
  apply lookup_total_replicate_2. lia.
Qed.

Lemma length_py_repeat {A} (x : A) (n : Z) : length (py_repeat x n) = Z.to_nat n.
Proof. apply length_replicate. Qed.

Lemma elem_of_range (n x : Z) : x ∈ range n ↔ 0 <= x < n.
Proof. unfold range. rewrite elem_of_seqZ. lia. Qed.

Lemma length_range (n : Z) : length (range n) = Z.to_nat n.
Proof. apply length_seqZ. Qed.

(** ** Permutations of [0..n-1] and ranks *)

Lemma is_permutation_length n l : is_permutation n l → length l = Z.to_nat n.
Proof. intros Hp. rewrite Hp. apply length_range. Qed.

Lemma is_permutation_elem n l x : is_permutation n l → x ∈ l ↔ 0 <= x < n.
Proof. intros Hp. rewrite Hp. apply elem_of_range. Qed.

Lemma is_permutation_NoDup n l : is_permutation n l → NoDup l.
Proof. intros Hp. rewrite Hp. apply NoDup_seqZ. Qed.

Lemma rank_in_nonneg l x : 0 <= rank_in l x.
Proof. induction l as [|y l IH]; simpl; [lia|]. case_bool_decide; lia. Qed.

Lemma rank_in_elem l x : x ∈ l → rank_in l x < Z.of_nat (length l) ∧ l !!! rank_in l x = x.
Proof.
  induction l as [|y l IH]; [by intros ?%elem_of_nil|].
  intros Hx. simpl. case_bool_decide as Hy.
  - subst. split; [lia|done].
  - apply elem_of_cons in Hx as [->|Hx]; [done|].
    destruct (IH Hx) as [Hlt Hat]. split; [lia|].
    pose proof (rank_in_nonneg l x).
    rewrite lookup_total_Z_eq in *.
    replace (Z.to_nat (1 + rank_in l x)) with (S (Z.to_nat (rank_in l x))) by lia.
    done.
Qed.

Lemma rank_in_lookup l (k : Z) :
  NoDup l → 0 <= k < Z.of_nat (length l) → rank_in l (l !!! k) = k.
Proof.
  revert k. induction l as [|y l IH]; intros k Hnd Hk; [simpl in *; lia|].
  apply NoDup_cons in Hnd as [Hy Hnd]. rewrite lookup_total_Z_eq. simpl.
  destruct (Z.to_nat k) as [|k'] eqn:Hk'.
  - simpl. rewrite bool_decide_eq_true_2 by done. lia.
  - simpl. case_bool_decide as Heq.
    + exfalso. apply Hy. rewrite Heq. apply list_elem_of_lookup_total_2.
      simpl in Hk. lia.
    + specialize (IH (Z.of_nat k') Hnd). rewrite lookup_total_Z_eq, Nat2Z.id in IH.
      rewrite IH; simpl in Hk; lia.
Qed.

Lemma rank_in_inj l x y : x ∈ l → y ∈ l → rank_in l x = rank_in l y → x = y.
Proof.
  intros Hx Hy Heq. destruct (rank_in_elem l x Hx) as [_ <-].
  destruct (rank_in_elem l y Hy) as [_ <-]. by rewrite Heq.
Qed.

(** ** Rank tables hold the ranks *)

Lemma fill_ranking_spec prefs : ∀ ranking rank,
  NoDup prefs →
  (∀ x, x ∈ prefs → 0 <= x < Z.of_nat (length ranking)) →
  ∃ ranking', fill_ranking ranking rank prefs = Ok ranking' ∧
    length ranking' = length ranking ∧
    ∀ x, 0 <= x →
      (x ∈ prefs → ranking' !!! x = rank + rank_in prefs x) ∧
      (x ∉ prefs → ranking' !!! x = ranking !!! x).
Proof.
  induction prefs as [|y prefs IH]; intros ranking rank Hnd Hin.
  - exists ranking. split_and!; [done..|]. intros x _. split; [by intros ?%elem_of_nil|done].
  - apply NoDup_cons in Hnd as [Hy Hnd].
    assert (0 <= y < Z.of_nat (length ranking)) as Hyr by (apply Hin; left).
    simpl. rewrite setitem_in_range by done. cbn.
    destruct (IH (<[Z.to_nat y := rank]> ranking) (rank + 1) Hnd) as (r' & Hr' & Hlen & Hval).
    { intros x Hx. rewrite length_insert. apply Hin. by right. }
    exists r'. split; [done|]. rewrite length_insert in Hlen. split; [done|].
    intros x Hx0. destruct (Hval x Hx0) as [Hval1 Hval2]. split.
    + intros Hx. case_bool_decide as Heq.
      * subst x. rewrite Hval2 by done. rewrite lookup_total_Z_insert_eq by done. lia.
      * apply elem_of_cons in Hx as [->|Hx]; [done|]. rewrite Hval1 by done. lia.
    + intros Hx. apply not_elem_of_cons in Hx as [Hne Hx].
      rewrite Hval2 by done. apply lookup_total_Z_insert_ne; lia.
Qed.

Lemma build_ranking_spec n prefs :
  is_permutation n prefs →
  ∃ ranking, build_ranking n prefs = Ok ranking ∧
    length ranking = Z.to_nat n ∧
    ∀ x, 0 <= x < n → ranking !!! x = rank_in prefs x.
Proof.
  intros Hp. unfold build_ranking.
  destruct (fill_ranking_spec prefs (py_repeat 0 n) 0) as (r & Hr & Hlen & Hval).
  - by eapply is_permutation_NoDup.
  - intros x Hx. rewrite length_py_repeat. apply (is_permutation_elem n) in Hx; [lia|done].
  - exists r. split; [done|]. rewrite length_py_repeat in Hlen. split; [done|].
    intros x Hx. destruct (Hval x) as [Hval1 _]; [lia|].
    rewrite Hval1; [lia|]. by apply (is_permutation_elem n).
Qed.

Lemma ranking_rows_spec n prefs agents :
  valid_prefs n prefs →
  (∀ a, a ∈ agents → 0 <= a < n) →
  ∃ table, ranking_rows n prefs agents = Ok table ∧
    Forall2 (fun a row => length row = Z.to_nat n ∧
               ∀ x, 0 <= x < n → row !!! x = rank_in (prefs !!! a) x) agents table.
Proof.
  intros [Hlen Hall] Hag. induction agents as [|a agents IH].
  - exists []. split; [done|]. constructor.
  - destruct IH as (rest & Hrest & Hrows).
    { intros b Hb. apply Hag. by right. }
    assert (0 <= a < n) as Ha by (apply Hag; left).
    simpl. rewrite getitem_in_range by lia. cbn.
    assert (is_permutation n (prefs !!! a)) as Hp.
    { eapply Forall_forall; [exact Hall|]. rewrite lookup_total_Z_eq.
      apply list_elem_of_lookup_total_2. lia. }
    destruct (build_ranking_spec n _ Hp) as (row & Hrow & Hrl & Hrv).
    rewrite Hrow. cbn. rewrite Hrest. cbn.
    exists (row :: rest). split; [done|]. by constructor.
Qed.

Lemma ranking_table_spec n prefs :
  valid_prefs n prefs →
  ∃ table, ranking_table n prefs = Ok table ∧ is_ranking_table n prefs table.
Proof.
  intros Hv. destruct (ranking_rows_spec n prefs (range n) Hv) as (table & Htab & Hrows).
  { intros a. by rewrite elem_of_range. }
  exists table. split; [done|]. split.
  - rewrite <- (Forall2_length _ _ _ Hrows). apply length_range.
  - intros a Ha. rewrite (lookup_total_Z_eq table).
    assert (range n !! Z.to_nat a = Some a) as Hra.
    { unfold range. rewrite lookup_seqZ. lia. }
    destruct (Forall2_lookup_l _ _ _ _ _ Hrows Hra) as (row & Hrow & Hlen & Hval).
    by rewrite (list_lookup_total_correct _ _ _ Hrow).
Qed.

Lemma lookup_total_Z_insert {A} `{Inhabited A} (xs : list A) (i j : Z) (v : A) :
  0 <= i < Z.of_nat (length xs) → 0 <= j →
  <[Z.to_nat i := v]> xs !!! j = if decide (i = j) then v else xs !!! j.
Proof.
  intros Hi Hj. case_decide as Heq.
  - subst j. by apply lookup_total_Z_insert_eq.
  - by apply lookup_total_Z_insert_ne; [lia..|].
Qed.

(** ** Preference orders of a valid instance *)

Section prefs.
Context (n : Z) (prefs : list (list Z)) (Hvalid : valid_prefs n prefs).

Lemma valid_prefs_row a : 0 <= a < n → is_permutation n (prefs !!! a).
Proof using Hvalid.
  intros Ha. destruct Hvalid as [Hlen Hall].
  eapply Forall_forall; [exact Hall|]. rewrite lookup_total_Z_eq.
  apply list_elem_of_lookup_total_2. lia.
Qed.

Lemma valid_prefs_entry a k :
  0 <= a < n → 0 <= k < n → 0 <= (prefs !!! a) !!! k < n.
Proof using Hvalid.
  intros Ha Hk. pose proof (valid_prefs_row a Ha) as Hp.
  apply (is_permutation_elem n _ _ Hp). rewrite lookup_total_Z_eq.
  apply list_elem_of_lookup_total_2. rewrite (is_permutation_length n) by done. lia.
Qed.

Lemma valid_prefs_rank_entry a k :
  0 <= a < n → 0 <= k < n → rank_in (prefs !!! a) ((prefs !!! a) !!! k) = k.
Proof using Hvalid.
  intros Ha Hk. pose proof (valid_prefs_row a Ha) as Hp.
  apply rank_in_lookup; [by eapply is_permutation_NoDup|].
  rewrite (is_permutation_length n) by done. lia.
Qed.

Lemma valid_prefs_rank_range a x :
  0 <= a < n → 0 <= x < n → 0 <= rank_in (prefs !!! a) x < n.
Proof using Hvalid.
  intros Ha Hx. pose proof (valid_prefs_row a Ha) as Hp.
  pose proof (rank_in_nonneg (prefs !!! a) x).
  destruct (rank_in_elem (prefs !!! a) x) as [Hlt _]; [by apply (is_permutation_elem n)|].
  rewrite (is_permutation_length n) in Hlt by done. lia.
Qed.

Lemma valid_prefs_entry_rank a x :
  0 <= a < n → 0 <= x < n → (prefs !!! a) !!! rank_in (prefs !!! a) x = x.
Proof using Hvalid.
  intros Ha Hx. pose proof (valid_prefs_row a Ha) as Hp.
  by destruct (rank_in_elem (prefs !!! a) x) as [_ Heq]; [by apply (is_permutation_elem n)|].
Qed.

Lemma valid_prefs_rank_inj a x y :
  0 <= a < n → 0 <= x < n → 0 <= y < n →
  rank_in (prefs !!! a) x = rank_in (prefs !!! a) y → x = y.
Proof using Hvalid.
  intros Ha Hx Hy. pose proof (valid_prefs_row a Ha) as Hp.
  apply rank_in_inj; by apply (is_permutation_elem n).
Qed.

Lemma valid_prefs_entry_inj a k k' :
  0 <= a < n → 0 <= k < n → 0 <= k' < n →
  (prefs !!! a) !!! k = (prefs !!! a) !!! k' → k = k'.
Proof using Hvalid.
  intros Ha Hk Hk' Heq.
  rewrite <- (valid_prefs_rank_entry a k), <- (valid_prefs_rank_entry a k') by done.
  by rewrite Heq.
Qed.
End prefs.

(** ** Sums of cursors *)

Lemma sum_Z_insert (l : list Z) (i : nat) (v : Z) :
  (i < length l)%nat → sum_Z (<[i := v]> l) = sum_Z l - l !!! i + v.
Proof.
  revert i. induction l as [|x l IH]; intros i Hi; [simpl in Hi; lia|].
  destruct i as [|i]; simpl.
  - unfold sum_Z. simpl. lia.
  - unfold sum_Z in *. simpl in *. rewrite IH by lia. lia.
Qed.

Lemma sum_Z_bound (l : list Z) (b : Z) :
  (∀ i, (i < length l)%nat → l !!! i <= b) → sum_Z l <= Z.of_nat (length l) * b.
Proof.
  induction l as [|x l IH]; intros Hb; [simpl; unfold sum_Z; simpl; lia|].
  unfold sum_Z in *. simpl foldr. simpl length.
  assert (x <= b) by (apply (Hb 0%nat); simpl; lia).
  assert (foldr Z.add 0 l <= Z.of_nat (length l) * b).
  { apply IH. intros i Hi. apply (Hb (S i)). simpl. lia. }
  lia.
Qed.

Lemma sum_Z_replicate_0 (k : nat) : sum_Z (replicate k 0) = 0.
Proof. induction k as [|k IH]; [done|]. unfold sum_Z in *. simpl. lia. Qed.

(** ** The engine: one iteration *)

Lemma find_free_spec n st hs :
  length (hospital_match st) = Z.to_nat n →
  length (next_proposal st) = Z.to_nat n →
  (∀ h, h ∈ hs → 0 <= h < n) →
  ∃ r, find_free n st hs = Ok r ∧
    ((r = -1 ∧ ∀ h, h ∈ hs →
        ¬ (hospital_match st !!! h = -1 ∧ next_proposal st !!! h < n)) ∨
     (r ∈ hs ∧ hospital_match st !!! r = -1 ∧ next_proposal st !!! r < n)).
Proof.
  intros Hlm Hlp. induction hs as [|h hs IH]; intros Hhs.
  - exists (-1). split; [done|]. left. split; [done|]. by intros h ?%elem_of_nil.
  - assert (0 <= h < n) as Hh by (apply Hhs; left).
    destruct IH as (r & Hr & Hcases); [intros h' Hh'; apply Hhs; by right|].
    simpl. rewrite (getitem_in_range (hospital_match st)) by lia. cbn.
    case_bool_decide as Hm.
    + rewrite (getitem_in_range (next_proposal st)) by lia. cbn. case_bool_decide as Hk.
      * exists h. split; [done|]. right. split_and!; [left|done..].
      * exists r. split; [done|]. destruct Hcases as [[-> Hnone]|(Hin & Hm' & Hk')].
        -- left. split; [done|]. intros h' [->|Hh']%elem_of_cons; [tauto|by apply Hnone].
        -- right. split_and!; [by right|done..].
    + exists r. split; [done|]. destruct Hcases as [[-> Hnone]|(Hin & Hm' & Hk')].
      * left. split; [done|]. intros h' [->|Hh']%elem_of_cons; [tauto|by apply Hnone].
      * right. split_and!; [by right|done..].
Qed.

Section engine.
Context (n : Z) (hospital_prefs student_prefs student_ranking : list (list Z)).
Context (Hhp : valid_prefs n hospital_prefs) (Hsp : valid_prefs n student_prefs).
Context (Htable : is_ranking_table n student_prefs student_ranking).

Lemma propose_spec st h :
  engine_inv n hospital_prefs student_prefs st →
  0 <= h < n → next_proposal st !!! h < n →
  next_student hospital_prefs st h
    = Ok ((hospital_prefs !!! h) !!! (next_proposal st !!! h)) ∧
  propose hospital_prefs student_ranking st h
    = Ok (after_proposal hospital_prefs student_prefs st h).
Proof.
  intros Hinv Hh Hk.
  pose proof (inv_cursor _ _ _ _ Hinv h Hh) as Hk0.
  pose proof (inv_len_hm _ _ _ _ Hinv) as Hlm.
  pose proof (inv_len_sm _ _ _ _ Hinv) as Hls.
  pose proof (inv_len_np _ _ _ _ Hinv) as Hlp.
  destruct Hhp as [Hlhp _].
  set (k := next_proposal st !!! h) in *.
  assert (0 <= (hospital_prefs !!! h) !!! k < n) as Hs
    by (apply (valid_prefs_entry n hospital_prefs Hhp); lia).
  assert (next_student hospital_prefs st h = Ok ((hospital_prefs !!! h) !!! k)) as Hns.
  { unfold next_student. rewrite (getitem_in_range hospital_prefs) by lia. cbn.
    rewrite (getitem_in_range (next_proposal st)) by lia. cbn. fold k.
    rewrite getitem_in_range; [done|].
    rewrite (is_permutation_length n) by (by apply valid_prefs_row). lia. }
  split; [done|]. unfold propose, after_proposal. rewrite Hns. cbn.
  rewrite (getitem_in_range (next_proposal st)) by lia. cbn.
  rewrite (setitem_in_range (next_proposal st)) by lia. cbn.
  fold k. set (s := (hospital_prefs !!! h) !!! k) in *.
  rewrite (getitem_in_range (student_match st)) by lia. cbn.
  case_bool_decide as Hc.
  - rewrite decide_True by done.
    rewrite (setitem_in_range (hospital_match st)) by lia. cbn.
    rewrite (setitem_in_range (student_match st)) by lia. done.
  - rewrite decide_False by done.
    destruct (inv_sm _ _ _ _ Hinv s Hs) as [?|[Hcr Hcm]]; [done|].
    set (c := student_match st !!! s) in *.
    destruct Htable as [Hlt Hrows]. destruct (Hrows s Hs) as [Hlrow Hrow].
    rewrite (getitem_in_range student_ranking) by lia. cbn.
    rewrite !(getitem_in_range (student_ranking !!! s)) by lia. cbn.
    rewrite !Hrow by lia.
    case_bool_decide as Hlt'.
    + rewrite decide_True by done.
      rewrite (setitem_in_range (hospital_match st)) by lia. cbn.
      rewrite (setitem_in_range (<[Z.to_nat c := -1]> (hospital_match st)))
        by (rewrite length_insert; lia). cbn.
      rewrite (setitem_in_range (student_match st)) by lia. done.
    + by rewrite decide_False by done.
Qed.
End engine.

(** ** The invariant is kept by a proposal *)

Section invariant.
Context (n : Z) (hospital_prefs student_prefs : list (list Z)).
Context (Hhp : valid_prefs n hospital_prefs) (Hsp : valid_prefs n student_prefs).

Lemma after_proposal_inv st h :
  engine_inv n hospital_prefs student_prefs st →
  0 <= h < n → hospital_match st !!! h = -1 → next_proposal st !!! h < n →
  engine_inv n hospital_prefs student_prefs (after_proposal hospital_prefs student_prefs st h).
Proof.
  intros [Hlm Hls Hlp Hcur Hhm Hsm Hlast Hprop Hcnt] Hh Hfree Hk.
  destruct st as [hm sm np cnt]; simpl in *.
  pose proof (Hcur h Hh) as Hk0.
  unfold after_proposal; simpl.
  set (k := np !!! h) in *. set (s := (hospital_prefs !!! h) !!! k) in *.
  assert (0 <= s < n) as Hs by (apply (valid_prefs_entry n hospital_prefs Hhp); lia).
  assert (∀ j, 0 <= j < n →
    <[Z.to_nat h := k + 1]> np !!! j = if decide (h = j) then k + 1 else np !!! j) as Hnp'
    by (intros; apply lookup_total_Z_insert; lia).
  assert (∀ j v, 0 <= j < n →
    <[Z.to_nat s := v]> sm !!! j = if decide (s = j) then v else sm !!! j) as Hsm'
    by (intros; apply lookup_total_Z_insert; lia).
  assert (∀ (l : list Z) i j v, length l = Z.to_nat n → 0 <= i < n → 0 <= j < n →
    <[Z.to_nat i := v]> l !!! j = if decide (i = j) then v else l !!! j) as Hins
    by (intros; apply lookup_total_Z_insert; lia).
  assert (sum_Z (<[Z.to_nat h := k + 1]> np) = sum_Z np + 1) as Hsum.
  { rewrite sum_Z_insert by lia. rewrite <- lookup_total_Z_eq. fold k. lia. }
  assert (∀ j i, 0 <= j < n → 0 <= i < n → 0 <= (hospital_prefs !!! j) !!! i < n) as Hent
    by (intros; by apply (valid_prefs_entry n hospital_prefs Hhp)).
  (* the new cursor covers what the old one did, and position [k] of [h] *)
  assert (∀ j i, 0 <= j < n → 0 <= i < <[Z.to_nat h := k + 1]> np !!! j →
    (j = h ∧ i = k) ∨ (0 <= i < np !!! j)) as Hcover.
  { intros j i Hj. rewrite Hnp' by done. case_decide; [subst j; fold k|]; lia. }
  destruct (decide (sm !!! s = -1)) as [Hc|Hc];
    [|destruct (decide (rank_in (student_prefs !!! s) h
                          < rank_in (student_prefs !!! s) (sm !!! s))) as [Hlt|Hge]].
  - (* the student was unmatched *)
    constructor; simpl; rewrite ?length_insert; try done.
    + intros j Hj. rewrite Hnp' by done. case_decide; [lia|by apply Hcur].
    + intros j Hj. rewrite (Hins hm) by done. case_decide as Hjh.
      * right. split; [done|]. rewrite Hsm' by done. by rewrite decide_True.
      * destruct (Hhm j Hj) as [?|[Hr Hback]]; [by left|right]. split; [done|].
        rewrite Hsm' by done. case_decide as Heq; [|done]. rewrite <- Heq in Hback. lia.
    + intros t Ht. rewrite Hsm' by done. case_decide as Hts.
      * right. split; [done|]. rewrite (Hins hm) by done. by rewrite decide_True.
      * destruct (Hsm t Ht) as [?|[Hr Hback]]; [by left|right]. split; [done|].
        rewrite (Hins hm) by done. case_decide; [|done]. subst. lia.
    + intros j Hj. rewrite (Hins hm), Hnp' by done. case_decide as Hjh.
      * subst j. intros _. split; [lia|]. by replace (k + 1 - 1) with k by lia.
      * by apply Hlast.
    + intros j i Hj Hi. destruct (Hcover j i Hj Hi) as [[-> ->]|Hi'].
      * fold s. rewrite Hsm' by done. rewrite decide_True by done. split; lia.
      * assert (0 <= (hospital_prefs !!! j) !!! i < n) as Ht
          by (apply Hent; [done|]; specialize (Hcur j Hj); lia).
        destruct (Hprop j i Hj Hi') as [Hne Hle].
        rewrite Hsm' by done. case_decide as Heq; [|done]. by rewrite <- Heq in Hne.
    + lia.
  - (* the student trades up *)
    destruct (Hsm s Hs) as [?|[Hcr Hcm]]; [done|].
    remember (sm !!! s) as c eqn:Hceq.
    assert (c ≠ h) as Hch by (intros ->; lia).
    assert (∀ j, 0 <= j < n → <[Z.to_nat h := s]> (<[Z.to_nat c := -1]> hm) !!! j
      = if decide (h = j) then s else if decide (c = j) then -1 else hm !!! j) as Hhm'.
    { intros j Hj. rewrite Hins by (rewrite ?length_insert; done).
      case_decide; [done|]. by apply Hins. }
    constructor; simpl; rewrite ?length_insert; try done.
    + intros j Hj. rewrite Hnp' by done. case_decide; [lia|by apply Hcur].
    + intros j Hj. rewrite Hhm' by done. case_decide as Hjh; [|case_decide as Hjc].
      * right. split; [done|]. rewrite Hsm' by done. by rewrite decide_True.
      * by left.
      * destruct (Hhm j Hj) as [?|[Hr Hback]]; [by left|right]. split; [done|].
        rewrite Hsm' by done. case_decide as Heq; [|done].
        rewrite <- Heq in Hback. congruence.
    + intros t Ht. rewrite Hsm' by done. case_decide as Hts.
      * right. split; [done|]. rewrite Hhm' by done. by rewrite decide_True.
      * destruct (Hsm t Ht) as [?|[Hr Hback]]; [by left|right]. split; [done|].
        rewrite Hhm' by done. case_decide as E1; [subst; lia|].
        case_decide as E2; [|done]. rewrite <- E2 in Hback. congruence.
    + intros j Hj. rewrite Hhm', Hnp' by done. case_decide as Hjh; [|case_decide as Hjc].
      * subst j. intros _. split; [lia|]. by replace (k + 1 - 1) with k by lia.
      * done.
      * by apply Hlast.
    + intros j i Hj Hi. destruct (Hcover j i Hj Hi) as [[-> ->]|Hi'].
      * fold s. rewrite Hsm' by done. rewrite decide_True by done. split; lia.
      * assert (0 <= (hospital_prefs !!! j) !!! i < n) as Ht
          by (apply Hent; [done|]; specialize (Hcur j Hj); lia).
        destruct (Hprop j i Hj Hi') as [Hne Hle].
        rewrite Hsm' by done. case_decide as Heq; [|done].
        rewrite <- Heq in *. rewrite <- Hceq in Hle. split; lia.
    + lia.
  - (* the student turns the hospital down *)
    destruct (Hsm s Hs) as [?|[Hcr Hcm]]; [done|].
    constructor; simpl; rewrite ?length_insert; try done.
    + intros j Hj. rewrite Hnp' by done. case_decide; [lia|by apply Hcur].
    + intros j Hj Hne. rewrite Hnp' by done. case_decide; [congruence|by apply Hlast].
    + intros j i Hj Hi. destruct (Hcover j i Hj Hi) as [[-> ->]|Hi'].
      * fold s. split; [done|lia].
      * by apply Hprop.
    + lia.
Qed.
End invariant.

(** ** Rejections are final in every stable matching *)

Lemma is_permutation_lookup n M j :
  is_permutation n M → 0 <= j < n → 0 <= M !!! j < n.
Proof.
  intros Hp Hj. apply (is_permutation_elem n _ _ Hp). rewrite lookup_total_Z_eq.
  apply list_elem_of_lookup_total_2. rewrite (is_permutation_length n) by done. lia.
Qed.

Lemma is_permutation_lookup_inj n M j j' :
  is_permutation n M → 0 <= j < n → 0 <= j' < n → M !!! j = M !!! j' → j = j'.
Proof.
  intros Hp Hj Hj' Heq. pose proof (is_permutation_length n M Hp) as Hlen.
  rewrite !lookup_total_Z_eq in Heq.
  assert (Z.to_nat j = Z.to_nat j'); [|lia].
  eapply NoDup_lookup; [by eapply is_permutation_NoDup| |].
  - apply list_lookup_lookup_total_lt. lia.
  - rewrite Heq. apply list_lookup_lookup_total_lt. lia.
Qed.

Section optimal.
Context (n : Z) (hospital_prefs student_prefs : list (list Z)).
Context (Hhp : valid_prefs n hospital_prefs) (Hsp : valid_prefs n student_prefs).

(** If a stable matching gives [h] none of its first [k] choices, the
    one it gives [h] has rank [k] or more. *)
Lemma excluded_prefix_rank M h k :
  is_permutation n M → 0 <= h < n →
  (∀ i, 0 <= i < k → M !!! h ≠ (hospital_prefs !!! h) !!! i) →
  k <= rank_in (hospital_prefs !!! h) (M !!! h).
Proof.
  intros Hp Hh Hex. pose proof (is_permutation_lookup n M h Hp Hh) as Hr.
  pose proof (valid_prefs_rank_range n hospital_prefs Hhp h _ Hh Hr) as Hrk.
  destruct (decide (k <= rank_in (hospital_prefs !!! h) (M !!! h))) as [|Hlt]; [done|].
  exfalso. apply (Hex (rank_in (hospital_prefs !!! h) (M !!! h))); [lia|].
  by rewrite (valid_prefs_entry_rank n hospital_prefs Hhp).
Qed.

(** In a stable matching that gives [s] to [c], no hospital that [s]
    ranks above [c] ranks [s] above its own match. *)
Lemma stable_not_blocked M h s c :
  is_permutation n M → stable n hospital_prefs student_prefs M →
  0 <= h < n → 0 <= s < n → 0 <= c < n → c ≠ h → M !!! c = s →
  rank_in (student_prefs !!! s) h < rank_in (student_prefs !!! s) c →
  rank_in (hospital_prefs !!! h) s < rank_in (hospital_prefs !!! h) (M !!! h) →
  False.
Proof.
  intros Hp Hst Hh Hs Hc Hch Hcs Hrs Hrh. apply (Hst h s).
  split; [done|]. split; [done|]. split; [|split; [done|]].
  - intros Heq. apply Hch. apply (is_permutation_lookup_inj n M); [done..|congruence].
  - exists c. by split; [|split].
Qed.

Lemma after_proposal_rejections st h :
  engine_inv n hospital_prefs student_prefs st →
  rejections_final n hospital_prefs student_prefs st →
  0 <= h < n → hospital_match st !!! h = -1 → next_proposal st !!! h < n →
  rejections_final n hospital_prefs student_prefs
    (after_proposal hospital_prefs student_prefs st h).
Proof.
  intros [Hlm Hls Hlp Hcur Hhm Hsm Hlast Hprop Hcnt] Hrej Hh Hfree Hk.
  unfold rejections_final in *.
  destruct st as [hm sm np cnt]; simpl in *.
  pose proof (Hcur h Hh) as Hk0.
  unfold after_proposal; simpl.
  remember (np !!! h) as k eqn:Hkeq.
  remember ((hospital_prefs !!! h) !!! k) as s eqn:Hseq.
  assert (0 <= s < n) as Hs
    by (subst s; apply (valid_prefs_entry n hospital_prefs Hhp); lia).
  assert (∀ j, 0 <= j < n →
    <[Z.to_nat h := k + 1]> np !!! j = if decide (h = j) then k + 1 else np !!! j) as Hnp'
    by (intros; apply lookup_total_Z_insert; lia).
  assert (∀ (l : list Z) i j v, length l = Z.to_nat n → 0 <= i < n → 0 <= j < n →
    <[Z.to_nat i := v]> l !!! j = if decide (i = j) then v else l !!! j) as Hins
    by (intros; apply lookup_total_Z_insert; lia).
  assert (∀ j i, 0 <= j < n → 0 <= i < n → 0 <= (hospital_prefs !!! j) !!! i < n) as Hent
    by (intros; by apply (valid_prefs_entry n hospital_prefs Hhp)).
  (* what the old state already excludes for [h] *)
  assert (∀ M, is_permutation n M → stable n hospital_prefs student_prefs M →
    ∀ i, 0 <= i < k → M !!! h ≠ (hospital_prefs !!! h) !!! i) as Hexh.
  { intros M Hp Hst i Hi. apply Hrej; [done|lia| |done..].
    rewrite Hfree. specialize (Hent h i). lia. }
  destruct (decide (sm !!! s = -1)) as [Hc|Hc];
    [|destruct (decide (rank_in (student_prefs !!! s) h
                          < rank_in (student_prefs !!! s) (sm !!! s))) as [Hlt|Hge]];
    simpl.
  - intros j i Hj. rewrite Hnp', (Hins hm) by done. case_decide as Hjh.
    + subst j. intros Hi Hne M Hp Hst. apply Hexh; [done..|].
      destruct (decide (i = k)) as [->|]; [congruence|lia].
    + intros Hi Hne. by apply Hrej.
  - destruct (Hsm s Hs) as [?|[Hcr Hcm]]; [done|].
    remember (sm !!! s) as c eqn:Hceq.
    assert (c ≠ h) as Hch by (intros ->; lia).
    assert (∀ j, 0 <= j < n → <[Z.to_nat h := s]> (<[Z.to_nat c := -1]> hm) !!! j
      = if decide (h = j) then s else if decide (c = j) then -1 else hm !!! j) as Hhm'.
    { intros j Hj. rewrite Hins by (rewrite ?length_insert; done).
      case_decide; [done|]. by apply Hins. }
    intros j i Hj. rewrite Hnp', Hhm' by done. case_decide as Hjh; [|case_decide as Hjc].
    + subst j. intros Hi Hne M Hp Hst. apply Hexh; [done..|].
      destruct (decide (i = k)) as [->|]; [congruence|lia].
    + subst j. intros Hi _ M Hp Hst HM.
      destruct (decide ((hospital_prefs !!! c) !!! i = hm !!! c)) as [Heq|Hne];
        [|by eapply (Hrej c i)].
      rewrite Heq, Hcm in HM.
      apply (stable_not_blocked M h s c); try done.
      assert (k + 1 <= rank_in (hospital_prefs !!! h) (M !!! h)).
      { apply excluded_prefix_rank; [done..|]. intros i' Hi'.
        destruct (decide (i' = k)) as [->|]; [|apply Hexh; [done..|lia]].
        rewrite <- Hseq, <- HM. intros Heq'. apply Hch.
        by apply (is_permutation_lookup_inj n M). }
      rewrite Hseq at 1. rewrite (valid_prefs_rank_entry n hospital_prefs Hhp) by lia. lia.
    + intros Hi Hne. by apply Hrej.
  - destruct (Hsm s Hs) as [?|[Hcr Hcm]]; [done|].
    remember (sm !!! s) as c eqn:Hceq.
    assert (c ≠ h) as Hch by (intros ->; lia).
    intros j i Hj. rewrite Hnp' by done. case_decide as Hjh; [|by apply Hrej].
    subst j. intros Hi Hne M Hp Hst.
    destruct (decide (i = k)) as [->|]; [|apply Hexh; [done..|lia]].
    rewrite <- Hseq. intros HM.
    destruct (Hlast c Hcr) as [Hnc Hlc]; [lia|]. rewrite Hcm in Hlc.
    pose proof (Hcur c Hcr) as Hcc.
    apply (stable_not_blocked M c s h); try done.
    + assert (rank_in (student_prefs !!! s) c ≠ rank_in (student_prefs !!! s) h); [|lia].
      intros Heq. apply Hch. by apply (valid_prefs_rank_inj n student_prefs Hsp s).
    + assert (np !!! c <= rank_in (hospital_prefs !!! c) (M !!! c)).
      { apply excluded_prefix_rank; [done..|]. intros i' Hi'.
        destruct (decide (i' = np !!! c - 1)) as [->|].
        - rewrite <- Hlc, <- HM. intros Heq'. apply Hch.
          by apply (is_permutation_lookup_inj n M).
        - apply Hrej; [done|lia| |done..]. rewrite Hcm, Hlc. intros Heq'.
          apply (valid_prefs_entry_inj n hospital_prefs Hhp) in Heq'; lia. }
      rewrite Hlc at 1. rewrite (valid_prefs_rank_entry n hospital_prefs Hhp) by lia. lia.
Qed.
End optimal.

(** ** Runs of the engine *)

Lemma sum_Z_nonneg (l : list Z) :
  (∀ i, (i < length l)%nat → 0 <= l !!! i) → 0 <= sum_Z l.
Proof.
  induction l as [|x l IH]; intros Hb; [unfold sum_Z; simpl; lia|].
  unfold sum_Z in *. simpl foldr.
  assert (0 <= x) by (apply (Hb 0%nat); simpl; lia).
  assert (0 <= foldr Z.add 0 l).
  { apply IH. intros i Hi. apply (Hb (S i)). simpl. lia. }
  lia.
Qed.

Section run.
Context (n : Z) (hospital_prefs student_prefs student_ranking : list (list Z)).
Context (Hhp : valid_prefs n hospital_prefs) (Hsp : valid_prefs n student_prefs).
Context (Htable : is_ranking_table n student_prefs student_ranking).

Lemma init_state_inv : engine_inv n hospital_prefs student_prefs (init_state n).
Proof.
  constructor; simpl; rewrite ?length_py_repeat; try done.
  - intros h Hh. rewrite lookup_total_Z_replicate by done. lia.
  - intros h Hh. left. by apply lookup_total_Z_replicate.
  - intros s Hs. left. by apply lookup_total_Z_replicate.
  - intros h Hh. by rewrite lookup_total_Z_replicate by done.
  - intros h k Hh. rewrite lookup_total_Z_replicate by done. lia.
  - unfold py_repeat. by rewrite sum_Z_replicate_0.
Qed.

Lemma init_state_rejections :
  rejections_final n hospital_prefs student_prefs (init_state n).
Proof.
  intros h k Hh. simpl. rewrite lookup_total_Z_replicate by done. lia.
Qed.

(** What [find_free] returns is a free hospital, or [-1] when there is
    none. *)
Lemma find_free_range st h :
  engine_inv n hospital_prefs student_prefs st →
  find_free n st (range n) = Ok h →
  (h = -1 ∧ no_free_hospital n st) ∨
  (0 <= h < n ∧ hospital_match st !!! h = -1 ∧ next_proposal st !!! h < n).
Proof.
  intros Hinv Hfind.
  destruct (find_free_spec n st (range n)) as (r & Hr & Hcases).
  - apply Hinv.
  - apply Hinv.
  - intros h'. by rewrite elem_of_range.
  - rewrite Hfind in Hr. injection Hr as <-.
    destruct Hcases as [[-> Hnone]|(Hin & Hm & Hk)].
    + left. split; [done|]. intros h' Hh'. apply Hnone. by apply elem_of_range.
    + right. apply elem_of_range in Hin. done.
Qed.

Lemma iteration_spec st :
  engine_inv n hospital_prefs student_prefs st →
  (iteration n hospital_prefs student_ranking st = Ok (inr st) ∧
   find_free n st (range n) = Ok (-1) ∧ no_free_hospital n st) ∨
  (∃ h, 0 <= h < n ∧ hospital_match st !!! h = -1 ∧ next_proposal st !!! h < n ∧
     find_free n st (range n) = Ok h ∧
     iteration n hospital_prefs student_ranking st
       = Ok (inl (after_proposal hospital_prefs student_prefs st h))).
Proof.
  intros Hinv.
  destruct (find_free_spec n st (range n)) as (r & Hr & _).
  { apply Hinv. } { apply Hinv. } { intros h'. by rewrite elem_of_range. }
  destruct (find_free_range st r Hinv Hr) as [[-> Hnone]|(Hh & Hm & Hk)].
  - left. unfold iteration. rewrite Hr. cbn. done.
  - right. exists r. split_and!; try done; try lia.
    unfold iteration. rewrite Hr. cbn.
    rewrite bool_decide_eq_false_2 by lia.
    destruct (propose_spec n hospital_prefs student_prefs student_ranking
                Hhp Htable st r Hinv Hh Hk) as [_ ->].
    done.
Qed.

Lemma run_steps_trans st1 log1 st2 log2 st3 :
  run_steps n hospital_prefs student_ranking st1 log1 st2 →
  run_steps n hospital_prefs student_ranking st2 log2 st3 →
  run_steps n hospital_prefs student_ranking st1 (log1 ++ log2) st3.
Proof.
  induction 1 as [|st h s st' log st'' Hf Hh Hs Hp Hrun IH]; intros Hrest; [done|].
  simpl. econstructor; eauto.
Qed.

(** One step of a run, under the invariant. *)
Lemma run_step_inv st h s st' :
  engine_inv n hospital_prefs student_prefs st →
  find_free n st (range n) = Ok h → h ≠ -1 →
  next_student hospital_prefs st h = Ok s →
  propose hospital_prefs student_ranking st h = Ok st' →
  0 <= h < n ∧ hospital_match st !!! h = -1 ∧ next_proposal st !!! h < n ∧
  s = (hospital_prefs !!! h) !!! (next_proposal st !!! h) ∧
  st' = after_proposal hospital_prefs student_prefs st h.
Proof.
  intros Hinv Hfind Hne Hs Hp.
  destruct (find_free_range st h Hinv Hfind) as [[-> _]|(Hh & Hm & Hk)]; [done|].
  destruct (propose_spec n hospital_prefs student_prefs student_ranking
              Hhp Htable st h Hinv Hh Hk) as [Hs' Hp'].
  rewrite Hs' in Hs. rewrite Hp' in Hp. injection Hs as <-. injection Hp as <-.
  done.
Qed.

Lemma run_steps_inv st log st' :
  run_steps n hospital_prefs student_ranking st log st' →
  engine_inv n hospital_prefs student_prefs st →
  engine_inv n hospital_prefs student_prefs st'.
Proof.
  induction 1 as [|st h s st' log st'' Hf Hh Hs Hp Hrun IH]; intros Hinv; [done|].
  destruct (run_step_inv st h s st' Hinv Hf Hh Hs Hp) as (Hr & Hm & Hk & _ & ->).
  apply IH. by apply after_proposal_inv.
Qed.

Lemma run_steps_rejections st log st' :
  run_steps n hospital_prefs student_ranking st log st' →
  engine_inv n hospital_prefs student_prefs st →
  rejections_final n hospital_prefs student_prefs st →
  rejections_final n hospital_prefs student_prefs st'.
Proof.
  induction 1 as [|st h s st' log st'' Hf Hh Hs Hp Hrun IH]; intros Hinv Hrej; [done|].
  destruct (run_step_inv st h s st' Hinv Hf Hh Hs Hp) as (Hr & Hm & Hk & _ & ->).
  apply IH; [by apply after_proposal_inv|by apply after_proposal_rejections].
Qed.

Lemma proposal_count_bound st :
  engine_inv n hospital_prefs student_prefs st → 0 <= proposal_count st <= n * n.
Proof.
  intros Hinv. rewrite (inv_count _ _ _ _ Hinv).
  pose proof (inv_len_np _ _ _ _ Hinv) as Hlen.
  pose proof (inv_cursor _ _ _ _ Hinv) as Hcur.
  destruct (decide (0 <= n)) as [Hn|Hn].
  - split.
    + apply sum_Z_nonneg. intros i Hi. specialize (Hcur (Z.of_nat i)).
      rewrite lookup_total_Z_eq, Nat2Z.id in Hcur. lia.
    + pose proof (sum_Z_bound (next_proposal st) n) as Hb.
      rewrite Hlen, Z2Nat.id in Hb by done. apply Hb.
      intros i Hi. specialize (Hcur (Z.of_nat i)).
      rewrite lookup_total_Z_eq, Nat2Z.id in Hcur. lia.
  - destruct (next_proposal st); [|simpl in Hlen; lia]. unfold sum_Z. simpl. lia.
Qed.

(** The loop stops: given more iterations than [n * n] minus the
    proposals already made, it breaks, in a state reached by a run. *)
Lemma main_loop_terminates fuel : ∀ st,
  engine_inv n hospital_prefs student_prefs st →
  n * n - proposal_count st < Z.of_nat fuel →
  ∃ st' log,
    main_loop fuel n hospital_prefs student_ranking st = Some (Ok st') ∧
    run_steps n hospital_prefs student_ranking st log st' ∧
    find_free n st' (range n) = Ok (-1) ∧
    no_free_hospital n st'.
Proof.
  induction fuel as [|fuel IH]; intros st Hinv Hfuel.
  - pose proof (proposal_count_bound st Hinv). lia.
  - simpl. destruct (iteration_spec st Hinv) as [(-> & Hf & Hnone)|(h & Hh & Hm & Hk & Hf & ->)].
    + exists st, []. split_and!; try done. constructor.
    + destruct (propose_spec n hospital_prefs student_prefs student_ranking
                  Hhp Htable st h Hinv Hh Hk) as [Hs Hp].
      destruct (IH (after_proposal hospital_prefs student_prefs st h))
        as (st' & log & Hloop & Hrun & Hff & Hnone).
      * by apply after_proposal_inv.
      * assert (proposal_count (after_proposal hospital_prefs student_prefs st h)
                  = proposal_count st + 1) as ->; [|lia].
        unfold after_proposal. by repeat case_decide.
      * exists st', ((h, (hospital_prefs !!! h) !!! (next_proposal st !!! h)) :: log).
        split_and!; try done. econstructor; eauto. lia.
Qed.
End run.

(** ** The state in which the loop breaks *)

Lemma injective_is_permutation n (l : list Z) :
  length l = Z.to_nat n →
  (∀ i, 0 <= i < n → 0 <= l !!! i < n) →
  (∀ i j, 0 <= i < n → 0 <= j < n → l !!! i = l !!! j → i = j) →
  is_permutation n l.
Proof.
  intros Hlen Hran Hinj. unfold is_permutation.
  apply submseteq_length_Permutation; [|rewrite length_range; lia].
  apply NoDup_submseteq.
  - apply NoDup_alt. intros i j x Hi Hj.
    pose proof (lookup_lt_Some _ _ _ Hi). pose proof (lookup_lt_Some _ _ _ Hj).
    assert (Z.of_nat i = Z.of_nat j); [|lia].
    apply Hinj; [lia..|]. rewrite !lookup_total_Z_eq, !Nat2Z.id.
    by rewrite (list_lookup_total_correct _ _ _ Hi), (list_lookup_total_correct _ _ _ Hj).
  - intros x [i Hi]%list_elem_of_lookup. pose proof (lookup_lt_Some _ _ _ Hi).
    apply elem_of_range. specialize (Hran (Z.of_nat i)).
    rewrite lookup_total_Z_eq, Nat2Z.id, (list_lookup_total_correct _ _ _ Hi) in Hran. lia.
Qed.

Lemma is_permutation_surj n (l : list Z) x :
  is_permutation n l → 0 <= x < n → ∃ i, 0 <= i < n ∧ l !!! i = x.
Proof.
  intros Hp Hx. pose proof (is_permutation_length n l Hp) as Hlen.
  apply (is_permutation_elem n l x Hp) in Hx as [i Hi]%list_elem_of_lookup.
  pose proof (lookup_lt_Some _ _ _ Hi). exists (Z.of_nat i). split; [lia|].
  by rewrite lookup_total_Z_eq, Nat2Z.id, (list_lookup_total_correct _ _ _ Hi).
Qed.

Section final.
Context (n : Z) (hospital_prefs student_prefs : list (list Z)).
Context (Hhp : valid_prefs n hospital_prefs) (Hsp : valid_prefs n student_prefs).
Context (st : state).
Context (Hinv : engine_inv n hospital_prefs student_prefs st).
Context (Hdone : no_free_hospital n st).

Lemma final_all_matched h : 0 <= h < n → hospital_match st !!! h ≠ -1.
Proof.
  intros Hh Hm.
  pose proof (inv_cursor _ _ _ _ Hinv h Hh) as Hcur.
  assert (next_proposal st !!! h = n) as Hk by (specialize (Hdone h Hh); lia).
  assert (∀ s, 0 <= s < n → 0 <= student_match st !!! s < n ∧
            hospital_match st !!! (student_match st !!! s) = s) as Hall.
  { intros s Hs.
    pose proof (valid_prefs_rank_range n hospital_prefs Hhp h s Hh Hs) as Hr.
    destruct (inv_proposed _ _ _ _ Hinv h (rank_in (hospital_prefs !!! h) s) Hh) as [Hne _];
      [lia|].
    rewrite (valid_prefs_entry_rank n hospital_prefs Hhp) in Hne by done.
    by destruct (inv_sm _ _ _ _ Hinv s Hs) as [?|?]. }
  assert (is_permutation n (student_match st)) as Hp.
  { apply injective_is_permutation; [apply Hinv|intros; by apply Hall|].
    intros i j Hi Hj Heq. destruct (Hall i Hi) as [_ <-]. destruct (Hall j Hj) as [_ <-].
    by rewrite Heq. }
  destruct (is_permutation_surj n _ h Hp Hh) as (s & Hs & Hsh).
  destruct (Hall s Hs) as [_ Hback]. rewrite Hsh in Hback. lia.
Qed.

Lemma final_matched h :
  0 <= h < n →
  0 <= hospital_match st !!! h < n ∧
  student_match st !!! (hospital_match st !!! h) = h.
Proof.
  intros Hh. destruct (inv_hm _ _ _ _ Hinv h Hh) as [Hm|?]; [|done].
  by apply final_all_matched in Hm.
Qed.

Lemma final_perfect : is_permutation n (hospital_match st).
Proof.
  apply injective_is_permutation; [apply Hinv|intros; by apply final_matched|].
  intros i j Hi Hj Heq.
  destruct (final_matched i Hi) as [_ <-]. destruct (final_matched j Hj) as [_ <-].
  by rewrite Heq.
Qed.

Lemma final_rank h :
  0 <= h < n →
  rank_in (hospital_prefs !!! h) (hospital_match st !!! h) = next_proposal st !!! h - 1.
Proof.
  intros Hh. pose proof (inv_cursor _ _ _ _ Hinv h Hh) as Hcur.
  destruct (inv_last _ _ _ _ Hinv h Hh) as [Hk Hm]; [by apply final_all_matched|].
  rewrite Hm at 1. apply (valid_prefs_rank_entry n hospital_prefs Hhp); lia.
Qed.

Lemma final_stable : stable n hospital_prefs student_prefs (hospital_match st).
Proof.
  intros h s (Hh & Hs & Hne & Hph & h' & Hh' & Hm' & Hps).
  unfold prefers in *. rewrite final_rank in Hph by done.
  pose proof (valid_prefs_rank_range n hospital_prefs Hhp h s Hh Hs) as Hr.
  destruct (inv_proposed _ _ _ _ Hinv h (rank_in (hospital_prefs !!! h) s) Hh) as [_ Hle];
    [lia|].
  rewrite (valid_prefs_entry_rank n hospital_prefs Hhp) in Hle by done.
  destruct (final_matched h' Hh') as [_ Hback]. rewrite Hm' in Hback.
  rewrite Hback in Hle. lia.
Qed.

Lemma final_optimal M h :
  rejections_final n hospital_prefs student_prefs st →
  is_permutation n M → stable n hospital_prefs student_prefs M → 0 <= h < n →
  rank_in (hospital_prefs !!! h) (hospital_match st !!! h)
    <= rank_in (hospital_prefs !!! h) (M !!! h).
Proof.
  intros Hrej Hp Hst Hh. rewrite final_rank by done.
  pose proof (inv_cursor _ _ _ _ Hinv h Hh) as Hcur.
  destruct (inv_last _ _ _ _ Hinv h Hh) as [Hk Hm]; [by apply final_all_matched|].
  apply (excluded_prefix_rank n hospital_prefs Hhp); [done..|].
  intros i Hi. apply Hrej; [done|lia| |done..].
  rewrite Hm. intros Heq. apply (valid_prefs_entry_inj n hospital_prefs Hhp) in Heq; lia.
Qed.
End final.

(** ** Proposals along a run *)

Section log.
Context (n : Z) (hospital_prefs student_prefs student_ranking : list (list Z)).
Context (Hhp : valid_prefs n hospital_prefs) (Hsp : valid_prefs n student_prefs).
Context (Htable : is_ranking_table n student_prefs student_ranking).

Lemma after_proposal_cursor st h :
  next_proposal (after_proposal hospital_prefs student_prefs st h)
    = <[Z.to_nat h := next_proposal st !!! h + 1]> (next_proposal st) ∧
  proposal_count (after_proposal hospital_prefs student_prefs st h)
    = proposal_count st + 1.
Proof. unfold after_proposal. by repeat case_decide. Qed.

(** Along a run the counter counts the proposals, cursors only
    advance, every proposal of the log lies between the cursor before
    and the cursor after, and no proposal is made twice. *)
Lemma run_steps_log st log st' :
  run_steps n hospital_prefs student_ranking st log st' →
  engine_inv n hospital_prefs student_prefs st →
  proposal_count st' = proposal_count st + Z.of_nat (length log) ∧
  (∀ h, 0 <= h < n → next_proposal st !!! h <= next_proposal st' !!! h) ∧
  (∀ h s, (h, s) ∈ log →
     0 <= h < n ∧ 0 <= s < n ∧
     next_proposal st !!! h <= rank_in (hospital_prefs !!! h) s < next_proposal st' !!! h) ∧
  NoDup log.
Proof.
  induction 1 as [|st h s st' log st'' Hf Hh Hs Hp Hrun IH]; intros Hinv.
  - split_and!; [simpl; lia|intros; lia| |constructor]. by intros h s ?%elem_of_nil.
  - destruct (run_step_inv n hospital_prefs student_prefs student_ranking Hhp Htable
                st h s st' Hinv Hf Hh Hs Hp) as (Hr & Hm & Hk & -> & ->).
    pose proof (inv_cursor _ _ _ _ Hinv h Hr) as Hk0.
    pose proof (inv_len_np _ _ _ _ Hinv) as Hlen.
    destruct (after_proposal_cursor st h) as [Hnp Hcount].
    assert (∀ j, 0 <= j < n →
      next_proposal (after_proposal hospital_prefs student_prefs st h) !!! j
        = if decide (h = j) then next_proposal st !!! h + 1 else next_proposal st !!! j)
      as Hnp'.
    { intros j Hj. rewrite Hnp. apply lookup_total_Z_insert; lia. }
    destruct IH as (IHc & IHm & IHl & IHn); [by apply after_proposal_inv|].
    assert (∀ j, 0 <= j < n → next_proposal st !!! j <= next_proposal st'' !!! j) as Hmono.
    { intros j Hj. specialize (IHm j Hj). rewrite Hnp' in IHm by done.
      case_decide; [subst j|]; lia. }
    assert (next_proposal st !!! h < next_proposal st'' !!! h) as Hadv.
    { specialize (IHm h Hr). rewrite Hnp' in IHm by done.
      rewrite decide_True in IHm by done. lia. }
    assert (rank_in (hospital_prefs !!! h)
              ((hospital_prefs !!! h) !!! (next_proposal st !!! h))
            = next_proposal st !!! h) as Hrank
      by (apply (valid_prefs_rank_entry n hospital_prefs Hhp); lia).
    split_and!.
    + rewrite IHc, Hcount. simpl length. lia.
    + done.
    + intros h' s' [Heq|Hin]%elem_of_cons.
      * injection Heq as -> ->. rewrite Hrank. split; [done|].
        split; [apply (valid_prefs_entry n hospital_prefs Hhp); lia|lia].
      * destruct (IHl h' s' Hin) as (Hh' & Hs' & Hlo & Hhi).
        rewrite Hnp' in Hlo by done. split; [done|]. split; [done|].
        case_decide; [subst h'|]; lia.
    + constructor; [|done]. intros Hin.
      destruct (IHl _ _ Hin) as (_ & _ & Hlo & _).
      rewrite Hnp', decide_True, Hrank in Hlo by done. lia.
Qed.

(** A matched student stays matched, and changes hospital only for one
    it ranks strictly better. *)
Lemma after_proposal_trade_up st h s :
  engine_inv n hospital_prefs student_prefs st →
  0 <= h < n → hospital_match st !!! h = -1 → next_proposal st !!! h < n →
  0 <= s < n → student_match st !!! s ≠ -1 →
  student_match (after_proposal hospital_prefs student_prefs st h) !!! s ≠ -1 ∧
  (student_match (after_proposal hospital_prefs student_prefs st h) !!! s
     = student_match st !!! s ∨
   rank_in (student_prefs !!! s)
      (student_match (after_proposal hospital_prefs student_prefs st h) !!! s)
     < rank_in (student_prefs !!! s) (student_match st !!! s)).
Proof.
  intros Hinv Hh Hm Hk Hs Hne.
  pose proof (inv_cursor _ _ _ _ Hinv h Hh) as Hk0.
  pose proof (inv_len_sm _ _ _ _ Hinv) as Hlen.
  assert (0 <= (hospital_prefs !!! h) !!! (next_proposal st !!! h) < n) as Hs0
    by (apply (valid_prefs_entry n hospital_prefs Hhp); lia).
  unfold after_proposal. repeat case_decide; simpl; try (split; [done|by left]).
  - rewrite lookup_total_Z_insert by lia. case_decide; [congruence|]. split; [done|by left].
  - rewrite lookup_total_Z_insert by lia. case_decide as Heq; [|split; [done|by left]].
    subst s. split; [lia|by right].
Qed.

Lemma run_steps_trade_up st log st' s :
  run_steps n hospital_prefs student_ranking st log st' →
  engine_inv n hospital_prefs student_prefs st →
  0 <= s < n → student_match st !!! s ≠ -1 →
  student_match st' !!! s ≠ -1 ∧
  (student_match st' !!! s = student_match st !!! s ∨
   rank_in (student_prefs !!! s) (student_match st' !!! s)
     < rank_in (student_prefs !!! s) (student_match st !!! s)).
Proof.
  induction 1 as [|st h s0 st' log st'' Hf Hh Hs0 Hp Hrun IH]; intros Hinv Hs Hne.
  - split; [done|by left].
  - destruct (run_step_inv n hospital_prefs student_prefs student_ranking Hhp Htable
                st h s0 st' Hinv Hf Hh Hs0 Hp) as (Hr & Hm & Hk & _ & ->).
    destruct (after_proposal_trade_up st h s Hinv Hr Hm Hk Hs Hne) as [Hne' Hstep].
    destruct IH as [Hne'' Hrest]; [by apply after_proposal_inv|done..|].
    split; [done|]. destruct Hstep as [<-|Hlt]; [done|].
    right. destruct Hrest as [->|Hlt']; [done|lia].
Qed.

(** The two match maps agree. *)
Lemma engine_inv_consistent st h s :
  engine_inv n hospital_prefs student_prefs st →
  0 <= h < n → 0 <= s < n →
  hospital_match st !!! h = s ↔ student_match st !!! s = h.
Proof.
  intros Hinv Hh Hs. split; intros Heq.
  - destruct (inv_hm _ _ _ _ Hinv h Hh) as [?|[_ Hback]]; [lia|]. by rewrite Heq in Hback.
  - destruct (inv_sm _ _ _ _ Hinv s Hs) as [?|[_ Hback]]; [lia|]. by rewrite Heq in Hback.
Qed.
End log.

(** ** The verifier's search for a blocking pair *)

Lemma seqZ_succ lo (k : nat) :
  seqZ lo (Z.of_nat (S k)) = lo :: seqZ (lo + 1) (Z.of_nat k).
Proof.
  rewrite seqZ_cons by lia. f_equal. f_equal; lia.
Qed.

Lemma lookup_total_Z_fmap_Some (M : list Z) (h : Z) :
  0 <= h < Z.of_nat (length M) → (Some <$> M) !!! h = Some (M !!! h).
Proof.
  intros Hh. rewrite !lookup_total_Z_eq. apply list_lookup_total_fmap. lia.
Qed.

Lemma invert_matching_spec n (M : list Z) hs : ∀ sm0,
  is_permutation n M → length sm0 = Z.to_nat n →
  NoDup hs → (∀ h, h ∈ hs → 0 <= h < n) →
  ∃ sm, invert_matching (Some <$> M) sm0 hs = Ok sm ∧
    length sm = Z.to_nat n ∧
    ∀ s, 0 <= s < n →
      (∀ h, h ∈ hs → M !!! h = s → sm !!! s = Some h) ∧
      ((∀ h, h ∈ hs → M !!! h ≠ s) → sm !!! s = sm0 !!! s).
Proof.
  induction hs as [|h hs IH]; intros sm0 HM Hlen Hnd Hhs.
  - exists sm0. split_and!; try done. intros s Hs. split; [|done]. by intros h ?%elem_of_nil.
  - apply NoDup_cons in Hnd as [Hh Hnd].
    assert (0 <= h < n) as Hr by (apply Hhs; left).
    pose proof (is_permutation_length n M HM) as HlM.
    pose proof (is_permutation_lookup n M h HM Hr) as Hs0.
    simpl. rewrite (getitem_in_range (Some <$> M)) by (rewrite length_fmap; lia). cbn.
    rewrite lookup_total_Z_fmap_Some by lia. cbn.
    rewrite (setitem_in_range sm0) by lia. cbn.
    destruct (IH (<[Z.to_nat (M !!! h) := Some h]> sm0)) as (sm & Hsm & Hl & Hval);
      [done|by rewrite length_insert|done|intros h' Hh'; apply Hhs; by right|].
    exists sm. split_and!; try done. intros s Hs. destruct (Hval s Hs) as [Hv1 Hv2]. split.
    + intros h' [->|Hh']%elem_of_cons Heq; [|by apply Hv1].
      rewrite Hv2.
      * subst s. apply lookup_total_Z_insert_eq. lia.
      * intros h' Hh' Heq'. subst s.
        assert (h' = h) as -> by (apply (is_permutation_lookup_inj n M);
          [done|apply Hhs; by right|done..]).
        done.
    + intros Hnone. rewrite Hv2 by (intros h' Hh'; apply Hnone; by right).
      apply lookup_total_Z_insert_ne; [lia..|]. apply Hnone. left.
Qed.

Section stability_check.
Context (n : Z) (hospital_prefs student_prefs : list (list Z)).
Context (hospital_ranking student_ranking : list (list Z)).
Context (M : list Z) (student_match : list (option Z)).
Context (Hhtable : is_ranking_table n hospital_prefs hospital_ranking).
Context (Hstable : is_ranking_table n student_prefs student_ranking).
Context (HM : is_permutation n M).
Context (Hlen : length student_match = Z.to_nat n).
Context (Hinverse : ∀ h, 0 <= h < n → student_match !!! (M !!! h) = Some h).

Local Abbreviation blocking := (blocking_pair n hospital_prefs student_prefs M).
Local Abbreviation scan_s :=
  (scan_students hospital_ranking student_ranking (Some <$> M) student_match).
Local Abbreviation scan_h :=
  (scan_hospitals n hospital_ranking student_ranking (Some <$> M) student_match).

(** One pass of the inner loop: it returns at a blocking pair and goes
    on otherwise. *)
Lemma scan_students_step h s ss :
  0 <= h < n → 0 <= s < n →
  (blocking h s ∧ scan_s h (s :: ss) = Ok (Some (msg_blocking h s))) ∨
  (¬ blocking h s ∧ scan_s h (s :: ss) = scan_s h ss).
Proof.
  intros Hh Hs.
  pose proof (is_permutation_length n M HM) as HlM.
  pose proof (is_permutation_lookup n M h HM Hh) as Hcs.
  destruct (is_permutation_surj n M s HM Hs) as (h0 & Hh0 & HMh0).
  pose proof (Hinverse h0 Hh0) as Hsm. rewrite HMh0 in Hsm.
  destruct Hhtable as [Hlh Hhrows]. destruct (Hhrows h Hh) as [Hlhr Hhrow].
  destruct Hstable as [Hls Hsrows]. destruct (Hsrows s Hs) as [Hlsr Hsrow].
  assert (∀ h', 0 <= h' < n → M !!! h' = s → h' = h0) as Huniq.
  { intros h' Hh' Heq. apply (is_permutation_lookup_inj n M); [done..|congruence]. }
  simpl. rewrite (getitem_in_range (Some <$> M)) by (rewrite length_fmap; lia). cbn.
  rewrite lookup_total_Z_fmap_Some by lia.
  rewrite (getitem_in_range student_match) by lia. cbn. rewrite Hsm.
  case_bool_decide as Heq.
  { right. split; [|done]. intros (_ & _ & Hne & _). congruence. }
  rewrite (getitem_in_range hospital_ranking) by lia. cbn.
  rewrite !(getitem_in_range (hospital_ranking !!! h)) by lia. cbn.
  rewrite !Hhrow by lia.
  case_bool_decide as Hph; cycle 1.
  { right. split; [|done]. intros (_ & _ & _ & Hp & _). by apply Hph. }
  rewrite (getitem_in_range student_ranking) by lia. cbn.
  rewrite !(getitem_in_range (student_ranking !!! s)) by lia. cbn.
  rewrite !Hsrow by lia.
  case_bool_decide as Hps.
  - left. split; [|done]. split; [done|]. split; [done|]. split; [congruence|].
    split; [done|]. exists h0. done.
  - right. split; [|done]. intros (_ & _ & _ & _ & h' & Hh' & HMh' & Hp).
    apply Huniq in HMh' as ->; [|done]. by apply Hps.
Qed.

Lemma scan_students_spec h (k : nat) : ∀ lo,
  0 <= h < n → 0 <= lo → lo + Z.of_nat k <= n →
  (scan_s h (seqZ lo (Z.of_nat k)) = Ok None ∧
   ∀ s, lo <= s < lo + Z.of_nat k → ¬ blocking h s) ∨
  (∃ s, lo <= s < lo + Z.of_nat k ∧
     scan_s h (seqZ lo (Z.of_nat k)) = Ok (Some (msg_blocking h s)) ∧
     blocking h s ∧ ∀ s', lo <= s' < s → ¬ blocking h s').
Proof.
  induction k as [|k IH]; intros lo Hh Hlo Hhi.
  - left. split; [done|]. intros s Hs. lia.
  - rewrite seqZ_succ.
    destruct (scan_students_step h lo (seqZ (lo + 1) (Z.of_nat k))) as [[Hb ->]|[Hnb ->]];
      [done|lia| |].
    + right. exists lo. split_and!; try done; try lia; intros; lia.
    + destruct (IH (lo + 1)) as [[-> Hnone]|(s & Hs & -> & Hb & Hfirst)]; [done|lia..| |].
      * left. split; [done|]. intros s Hs.
        destruct (decide (s = lo)) as [->|]; [done|]. apply Hnone. lia.
      * right. exists s. split_and!; try done; try lia. intros s' Hs'.
        destruct (decide (s' = lo)) as [->|]; [done|]. apply Hfirst. lia.
Qed.

Lemma scan_hospitals_spec (k : nat) : ∀ lo,
  0 <= lo → lo + Z.of_nat k <= n →
  (scan_h (seqZ lo (Z.of_nat k)) = Ok None ∧
   ∀ h s, lo <= h < lo + Z.of_nat k → ¬ blocking h s) ∨
  (∃ h s, lo <= h < lo + Z.of_nat k ∧
     scan_h (seqZ lo (Z.of_nat k)) = Ok (Some (msg_blocking h s)) ∧
     blocking h s ∧
     (∀ s', s' < s → ¬ blocking h s') ∧
     (∀ h' s', lo <= h' < h → ¬ blocking h' s')).
Proof.
  induction k as [|k IH]; intros lo Hlo Hhi.
  - left. split; [done|]. intros h s Hh. lia.
  - rewrite seqZ_succ. simpl. unfold range.
    assert (0 <= n) as Hn by lia.
    destruct (scan_students_spec lo (Z.to_nat n) 0)
      as [[Hscan Hnone]|(s & Hs & Hscan & Hb & Hfirst)]; [lia..| |];
      rewrite Z2Nat.id in * by done; rewrite Hscan; cbn.
    + destruct (IH (lo + 1)) as [[-> Hnone']|(h & s & Hh & -> & Hb & Hfs & Hfh)]; [lia..| |].
      * left. split; [done|]. intros h s Hh.
        destruct (decide (h = lo)) as [->|]; [|apply Hnone'; lia].
        intros Hb. apply (Hnone s); [|done]. destruct Hb as (_ & ? & _). lia.
      * right. exists h, s. split_and!; try done; try lia. intros h' s' Hh'.
        destruct (decide (h' = lo)) as [->|]; [|apply Hfh; lia].
        intros Hb'. apply (Hnone s'); [|done]. destruct Hb' as (_ & ? & _). lia.
    + right. exists lo, s. split_and!; try done; try lia.
      intros s' Hs' Hb'. apply (Hfirst s'); [|done]. destruct Hb' as (_ & ? & _). lia.
Qed.
End stability_check.

Lemma seqZ_of_to_nat lo n : seqZ lo (Z.of_nat (Z.to_nat n)) = seqZ lo n.
Proof. unfold seqZ. by rewrite Nat2Z.id. Qed.

Lemma check_stability_spec n hospital_prefs student_prefs M :
  valid_instance n hospital_prefs student_prefs → is_permutation n M →
  (check_stability n hospital_prefs student_prefs (Some <$> M) = Ok (true, "") ∧
   stable n hospital_prefs student_prefs M) ∨
  (∃ p r,
     check_stability n hospital_prefs student_prefs (Some <$> M)
       = Ok (false, msg_blocking p r) ∧
     first_blocking_pair n hospital_prefs student_prefs M p r).
Proof.
  intros [Hhp Hsp] HM. unfold check_stability.
  destruct (invert_matching_spec n M (range n) (py_repeat None n) HM)
    as (sm & -> & Hlen & Hsm).
  { apply length_py_repeat. } { apply NoDup_seqZ. } { intros h. by rewrite elem_of_range. }
  destruct (ranking_table_spec n hospital_prefs Hhp) as (hrank & -> & Hhtable).
  destruct (ranking_table_spec n student_prefs Hsp) as (srank & -> & Hstable).
  cbn.
  assert (∀ h, 0 <= h < n → sm !!! (M !!! h) = Some h) as Hinverse.
  { intros h Hh. destruct (Hsm (M !!! h)) as [Hv _]; [by apply (is_permutation_lookup n)|].
    apply Hv; [by apply elem_of_range|done]. }
  destruct (decide (0 <= n)) as [Hn|Hn].
  - destruct (scan_hospitals_spec n hospital_prefs student_prefs hrank srank M sm
                Hhtable Hstable HM Hlen Hinverse (Z.to_nat n) 0)
      as [[Hscan Hnone]|(p & r & Hp & Hscan & Hb & Hfs & Hfh)]; [lia..| |];
      rewrite seqZ_of_to_nat in Hscan; unfold range; rewrite Hscan; cbn.
    + left. split; [done|]. intros h s Hb. apply (Hnone h s); [|done].
      destruct Hb as (? & _). lia.
    + right. exists p, r. split; [done|]. split; [done|].
      intros h' s' [Hlt|[-> Hlt]] Hb'; [|by apply (Hfs s')].
      apply (Hfh h' s'); [|done]. destruct Hb' as (? & _). lia.
  - left. unfold range. rewrite seqZ_nil by lia. cbn. split; [done|].
    intros h s (? & _). lia.
Qed.

Lemma first_blocking_pair_unique n hospital_prefs student_prefs M p r p' r' :
  first_blocking_pair n hospital_prefs student_prefs M p r →
  first_blocking_pair n hospital_prefs student_prefs M p' r' →
  p = p' ∧ r = r'.
Proof.
  intros [Hb Hfirst] [Hb' Hfirst'].
  destruct (decide (pair_before p r p' r')) as [Hlt|Hnlt]; [by destruct (Hfirst' p r Hlt)|].
  destruct (decide (pair_before p' r' p r)) as [Hlt'|Hnlt']; [by destruct (Hfirst p' r' Hlt')|].
  unfold pair_before in *. lia.
Qed.

(** A blocking pair, if there is one, comes with a first one. *)
Lemma blocking_pair_first n hospital_prefs student_prefs M :
  valid_instance n hospital_prefs student_prefs → is_permutation n M →
  (∃ p r, blocking_pair n hospital_prefs student_prefs M p r) →
  ∃ p r, first_blocking_pair n hospital_prefs student_prefs M p r.
Proof.
  intros Hv HM (p & r & Hb).
  destruct (check_stability_spec n hospital_prefs student_prefs M Hv HM)
    as [[_ Hst]|(p' & r' & _ & Hf)]; [by destruct (Hst p r)|eauto].
Qed.

(** ** The verifier's validity check *)

Lemma first_unmatched_spec (matching : list (option Z)) (k : nat) : ∀ lo,
  0 <= lo → lo + Z.of_nat k <= Z.of_nat (length matching) →
  (first_unmatched matching (seqZ lo (Z.of_nat k)) = Ok None ∧
   ∀ h, lo <= h < lo + Z.of_nat k → matching !!! h ≠ None) ∨
  (∃ h, lo <= h < lo + Z.of_nat k ∧
     first_unmatched matching (seqZ lo (Z.of_nat k)) = Ok (Some h) ∧
     matching !!! h = None ∧ ∀ h', lo <= h' < h → matching !!! h' ≠ None).
Proof.
  induction k as [|k IH]; intros lo Hlo Hhi.
  - left. split; [done|]. intros h Hh. lia.
  - rewrite seqZ_succ. simpl. rewrite (getitem_in_range matching) by lia. cbn.
    case_bool_decide as Hnone.
    + right. exists lo. split_and!; try done; try lia; intros; lia.
    + destruct (IH (lo + 1)) as [[-> Hall]|(h & Hh & -> & Hm & Hfirst)]; [lia..| |].
      * left. split; [done|]. intros h Hh.
        destruct (decide (h = lo)) as [->|]; [done|]. apply Hall. lia.
      * right. exists h. split_and!; try done; try lia. intros h' Hh'.
        destruct (decide (h' = lo)) as [->|]; [done|]. apply Hfirst. lia.
Qed.

(** What the dictionary holds after the hospitals below [lo]: each
    entry of [matching] seen so far, with the hospital it belongs to. *)
Lemma scan_duplicates_spec (matching : list (option Z)) (k : nat) : ∀ lo seen,
  0 <= lo → lo + Z.of_nat k <= Z.of_nat (length matching) →
  (∀ h, 0 <= h < lo + Z.of_nat k → matching !!! h ≠ None) →
  seen_below matching seen lo →
  (∃ d, scan_duplicates matching seen (seqZ lo (Z.of_nat k)) = Ok (inl d) ∧
     seen_below matching d (lo + Z.of_nat k)) ∨
  (∃ h s h0, lo <= h < lo + Z.of_nat k ∧ 0 <= h0 < h ∧
     matching !!! h = Some s ∧ matching !!! h0 = Some s ∧
     (∀ i j, 0 <= i < h → 0 <= j < h → matching !!! i = matching !!! j → i = j) ∧
     scan_duplicates matching seen (seqZ lo (Z.of_nat k))
       = Ok (inr (msg_duplicate s h0 h))).
Proof.
  induction k as [|k IH]; intros lo seen Hlo Hhi Hsome [Hseen Hsize].
  - left. exists seen. split; [done|].
    replace (lo + Z.of_nat 0) with lo by lia. done.
  - rewrite seqZ_succ. simpl. rewrite (getitem_in_range matching) by lia. cbn.
    destruct (matching !!! lo) as [s|] eqn:Hs; [|by destruct (Hsome lo); [lia|]].
    destruct (seen !! Some s) as [h0|] eqn:Hh0.
    + right. exists lo, s, h0. apply Hseen in Hh0 as [Hr Hm].
      split_and!; try done; try lia.
      intros i j Hi Hj Heq.
      assert (seen !! (matching !!! i) = Some i) as Hi' by (by apply Hseen).
      assert (seen !! (matching !!! i) = Some j) as Hj' by (by apply Hseen).
      congruence.
    + destruct (IH (lo + 1) (<[Some s := lo]> seen)) as [(d & -> & Hd)|Hdup]; [lia..| | | |].
      * intros h Hh. apply Hsome. lia.
      * split.
        -- intros v h0. rewrite lookup_insert. case_decide as Hv.
           ++ subst v. split.
              ** intros [= <-]. split; [lia|done].
              ** intros [Hr Hm]. destruct (decide (h0 = lo)) as [->|]; [done|].
                 assert (seen !! Some s = Some h0) by (apply Hseen; split; [lia|done]).
                 congruence.
           ++ rewrite Hseen. split; [intros [? ?]; split; [lia|done]|].
              intros [Hr Hm]. split; [|done].
              destruct (decide (h0 = lo)) as [->|]; [congruence|lia].
        -- rewrite map_size_insert_None by done. lia.
      * left. exists d. split; [done|]. by replace (lo + Z.of_nat (S k)) with (lo + 1 + Z.of_nat k) by lia.
      * right. destruct Hdup as (h & s' & h0 & Hh & Hh0' & Hm & Hm0 & Hinj & ->).
        exists h, s', h0. split_and!; try done; lia.
Qed.

Lemma seen_below_empty (matching : list (option Z)) : seen_below matching ∅ 0.
Proof.
  split; [|by rewrite map_size_empty].
  intros v h0. rewrite lookup_empty. split; [done|lia].
Qed.

Lemma seen_below_inj (matching : list (option Z)) seen lo i j :
  seen_below matching seen lo →
  0 <= i < lo → 0 <= j < lo → matching !!! i = matching !!! j → i = j.
Proof.
  intros [Hseen _] Hi Hj Heq.
  assert (seen !! (matching !!! i) = Some i) as Hi' by (by apply Hseen).
  assert (seen !! (matching !!! i) = Some j) as Hj' by (by apply Hseen).
  congruence.
Qed.

(** The three outcomes of [check_validity] on a list of [n] entries. *)
Lemma check_validity_spec n (matching : list (option Z)) :
  Z.of_nat (length matching) = n →
  (∃ h, 0 <= h < n ∧ matching !!! h = None ∧
     (∀ h', 0 <= h' < h → matching !!! h' ≠ None) ∧
     check_validity n matching = Ok (false, msg_unmatched h)) ∨
  ((∀ h, 0 <= h < n → matching !!! h ≠ None) ∧
   ∃ h s h0, 0 <= h0 < h ∧ h < n ∧
     matching !!! h = Some s ∧ matching !!! h0 = Some s ∧
     (∀ i j, 0 <= i < h → 0 <= j < h → matching !!! i = matching !!! j → i = j) ∧
     check_validity n matching = Ok (false, msg_duplicate s h0 h)) ∨
  ((∀ h, 0 <= h < n → matching !!! h ≠ None) ∧
   (∀ i j, 0 <= i < n → 0 <= j < n → matching !!! i = matching !!! j → i = j) ∧
   (∃ d, scan_duplicates matching ∅ (range n) = Ok (inl d) ∧ seen_below matching d n) ∧
   check_validity n matching = Ok (true, "")).
Proof.
  intros Hlen. unfold check_validity, range. subst n.
  destruct (first_unmatched_spec matching (length matching) 0)
    as [[-> Hall]|(h & Hh & -> & Hm & Hfirst)]; [lia..| |]; cbn.
  - right.
    destruct (scan_duplicates_spec matching (length matching) 0 ∅)
      as [(d & -> & Hd)|(h & s & h0 & Hh & Hh0 & Hm & Hm0 & Hinj & ->)];
      [lia|lia|done|apply seen_below_empty| |]; cbn.
    + right. rewrite Z.add_0_l in Hd. split; [intros; apply Hall; lia|].
      split; [intros i j; by apply (seen_below_inj matching d)|].
      split; [by exists d|].
      destruct Hd as [_ Hsize]. by rewrite bool_decide_eq_false_2 by lia.
    + left. split; [intros; apply Hall; lia|].
      exists h, s, h0. split_and!; try done; lia.
  - left. exists h. split_and!; try done; lia.
Qed.

Lemma check_validity_perfect n M :
  is_permutation n M → 0 <= n → check_validity n (Some <$> M) = Ok (true, "").
Proof.
  intros HM Hn. pose proof (is_permutation_length n M HM) as HlM.
  assert (∀ h, 0 <= h < n → (Some <$> M) !!! h = Some (M !!! h)) as Hsome
    by (intros; apply lookup_total_Z_fmap_Some; lia).
  destruct (check_validity_spec n (Some <$> M)) as
    [(h & Hh & Hm & _)|[(_ & h & s & h0 & Hh0 & Hh & Hm & Hm0 & _)|(_ & _ & _ & ->)]];
    [rewrite length_fmap; lia| | |done].
  - rewrite Hsome in Hm by done. done.
  - rewrite Hsome in Hm, Hm0 by lia.
    assert (h = h0); [|lia].
    apply (is_permutation_lookup_inj n M); [done|lia..|congruence].
Qed.

(** ** The run as a whole *)

(** A run that ends where no hospital is free is what the loop computes,
    given one iteration more than the run has proposals. *)
Lemma main_loop_of_run n hospital_prefs student_ranking st log st' :
  run_steps n hospital_prefs student_ranking st log st' →
  find_free n st' (range n) = Ok (-1) →
  ∀ fuel, (length log < fuel)%nat →
    main_loop fuel n hospital_prefs student_ranking st = Some (Ok st').
Proof.
  induction 1 as [|st h s st' log st'' Hf Hh Hs Hp Hrun IH]; intros Hend fuel Hfuel.
  - destruct fuel as [|fuel]; [lia|]. simpl. unfold iteration. rewrite Hend. by cbn.
  - destruct fuel as [|fuel]; [simpl in Hfuel; lia|]. simpl. unfold iteration.
    rewrite Hf. cbn. rewrite bool_decide_eq_false_2 by done. rewrite Hp. cbn.
    apply IH; [done|]. simpl in Hfuel. lia.
Qed.

(** On a valid instance the engine returns: with more than [n * n]
    iterations allowed, [run] ends in a state that a run of proposals
    reaches from the initial state and in which no hospital is free. *)
Lemma run_result n hospital_prefs student_prefs :
  valid_instance n hospital_prefs student_prefs →
  ∃ student_ranking log st,
    ranking_table n student_prefs = Ok student_ranking ∧
    is_ranking_table n student_prefs student_ranking ∧
    run_steps n hospital_prefs student_ranking (init_state n) log st ∧
    (∀ fuel, n * n < Z.of_nat fuel →
       run fuel n hospital_prefs student_prefs = Some (Ok st)) ∧
    engine_inv n hospital_prefs student_prefs st ∧
    rejections_final n hospital_prefs student_prefs st ∧
    no_free_hospital n st.
Proof.
  intros [Hhp Hsp].
  destruct (ranking_table_spec n student_prefs Hsp) as (srank & Htab & Htable).
  pose proof (init_state_inv n hospital_prefs student_prefs) as Hinit.
  destruct (main_loop_terminates n hospital_prefs student_prefs srank Hhp Htable
              (S (Z.to_nat (n * n))) (init_state n) Hinit)
    as (st & log & _ & Hrun & Hend & Hnone); [simpl; lia|].
  pose proof (run_steps_inv n hospital_prefs student_prefs srank Hhp Htable
                _ _ _ Hrun Hinit) as Hinv.
  exists srank, log, st. split_and!; try done.
  - intros fuel Hfuel. unfold run. rewrite Htab.
    apply (main_loop_of_run _ _ _ _ log); [done..|].
    destruct (run_steps_log n hospital_prefs student_prefs srank Hhp Htable
                _ _ _ Hrun Hinit) as (Hcount & _).
    pose proof (proposal_count_bound n hospital_prefs student_prefs st Hinv).
    simpl in Hcount. lia.
  - apply (run_steps_rejections n hospital_prefs student_prefs srank Hhp Hsp Htable
             _ _ _ Hrun Hinit).
    apply init_state_rejections.
Qed.

Lemma gale_shapley_result n hospital_prefs student_prefs :
  valid_instance n hospital_prefs student_prefs →
  ∃ st,
    (∀ fuel, n * n < Z.of_nat fuel →
       gale_shapley fuel n hospital_prefs student_prefs = Some (Ok (hospital_match st))) ∧
    engine_inv n hospital_prefs student_prefs st ∧
    rejections_final n hospital_prefs student_prefs st ∧
    no_free_hospital n st.
Proof.
  intros Hv. destruct (run_result n hospital_prefs student_prefs Hv)
    as (srank & log & st & _ & _ & _ & Hrun & Hinv & Hrej & Hnone).
  exists st. split_and!; try done.
  intros fuel Hfuel. unfold gale_shapley. by rewrite Hrun.
Qed.

Lemma lookup_total_Z_fmap {A B} `{Inhabited A, Inhabited B} (f : A → B) (l : list A) (i : Z) :
  0 <= i < Z.of_nat (length l) → (f <$> l) !!! i = f (l !!! i).
Proof.
  intros Hi. rewrite !lookup_total_Z_eq. apply list_lookup_total_fmap. lia.
Qed.

(** A pairing without gaps and without duplicates is a perfect matching. *)
Lemma total_matching_is_permutation n (matching : list (option Z)) :
  Z.of_nat (length matching) = n →
  (∀ h, 0 <= h < n → ∃ s, matching !!! h = Some s ∧ 0 <= s < n) →
  (∀ i j, 0 <= i < n → 0 <= j < n → matching !!! i = matching !!! j → i = j) →
  ∃ M, matching = Some <$> M ∧ is_permutation n M.
Proof.
  intros Hlen Hsome Hinj. exists (default 0 <$> matching).
  assert (∀ h, 0 <= h < n →
    matching !!! h = Some ((default 0 <$> matching) !!! h)) as Hat.
  { intros h Hh. destruct (Hsome h Hh) as (s & Hs & _).
    rewrite lookup_total_Z_fmap by lia. by rewrite Hs. }
  split.
  - apply list_eq. intros i. rewrite !list_lookup_fmap.
    destruct (matching !! i) as [v|] eqn:Hi; [|done]. simpl.
    pose proof (lookup_lt_Some _ _ _ Hi) as Hlt.
    destruct (Hsome (Z.of_nat i)) as (s & Hs & _); [lia|].
    rewrite lookup_total_Z_eq, Nat2Z.id, (list_lookup_total_correct _ _ _ Hi) in Hs.
    by subst v.
  - apply injective_is_permutation.
    + rewrite length_fmap. lia.
    + intros h Hh. destruct (Hsome h Hh) as (s & Hs & Hr).
      rewrite Hat in Hs by done. by injection Hs as ->.
    + intros i j Hi Hj Heq. apply Hinj; [done..|]. rewrite !Hat by done. by rewrite Heq.
Qed.

Lemma verify_perfect n hospital_prefs student_prefs M :
  valid_instance n hospital_prefs student_prefs → is_permutation n M → 0 <= n →
  (verify n hospital_prefs student_prefs (Some <$> M) = Ok Stable ∧
   check_stability n hospital_prefs student_prefs (Some <$> M) = Ok (true, "") ∧
   stable n hospital_prefs student_prefs M) ∨
  (∃ p r,
     verify n hospital_prefs student_prefs (Some <$> M) = Ok (Unstable (msg_blocking p r)) ∧
     check_stability n hospital_prefs student_prefs (Some <$> M)
       = Ok (false, msg_blocking p r) ∧
     first_blocking_pair n hospital_prefs student_prefs M p r).
Proof.
  intros Hv HM Hn. unfold verify. rewrite (check_validity_perfect n M HM Hn).
  destruct (check_stability_spec n hospital_prefs student_prefs M Hv HM)
    as [[Hs Hst]|(p & r & Hs & Hf)]; rewrite Hs.
  - by left.
  - right. by exists p, r.
Qed.

(** ** The claims of the specification *)

(** C1. On every valid instance with [n >= 1] the engine returns a
    pairing, and the verifier run on that pairing finds no blocking pair:
    its stability check passes and its verdict is [Stable]. *)
Theorem engine_output_is_stable n hospital_prefs student_prefs :
  1 <= n → valid_instance n hospital_prefs student_prefs →
  ∃ M,
    (∀ fuel, n * n < Z.of_nat fuel →
       gale_shapley fuel n hospital_prefs student_prefs = Some (Ok M)) ∧
    stable n hospital_prefs student_prefs M ∧
    check_stability n hospital_prefs student_prefs (Some <$> M) = Ok (true, "") ∧
    verify n hospital_prefs student_prefs (Some <$> M) = Ok Stable.
Proof.
  intros Hn Hv. pose proof Hv as [Hhp Hsp].
  destruct (gale_shapley_result n hospital_prefs student_prefs Hv)
    as (st & Hrun & Hinv & _ & Hnone).
  exists (hospital_match st). split; [done|].
  pose proof (final_perfect n hospital_prefs student_prefs Hhp st Hinv Hnone) as HM.
  pose proof (final_stable n hospital_prefs student_prefs Hhp st Hinv Hnone) as Hst.
  split; [done|].
  destruct (verify_perfect n hospital_prefs student_prefs _ Hv HM)
    as [(Hver & Hchk & _)|(p & r & _ & _ & [Hb _])]; [lia|done|].
  by destruct (Hst p r).
Qed.

Lemma engine_output_is_stable_witness :
  1 <= 3 ∧
  valid_instance 3 [[0;1;2];[1;0;2];[0;1;2]] [[1;0;2];[0;1;2];[0;1;2]] ∧
  ∃ M,
    (∀ fuel, 3 * 3 < Z.of_nat fuel →
       gale_shapley fuel 3 [[0;1;2];[1;0;2];[0;1;2]] [[1;0;2];[0;1;2];[0;1;2]]
         = Some (Ok M)) ∧
    stable 3 [[0;1;2];[1;0;2];[0;1;2]] [[1;0;2];[0;1;2];[0;1;2]] M ∧
    check_stability 3 [[0;1;2];[1;0;2];[0;1;2]] [[1;0;2];[0;1;2];[0;1;2]] (Some <$> M)
      = Ok (true, "") ∧
    verify 3 [[0;1;2];[1;0;2];[0;1;2]] [[1;0;2];[0;1;2];[0;1;2]] (Some <$> M) = Ok Stable.
Proof.
  assert (valid_instance 3 [[0;1;2];[1;0;2];[0;1;2]] [[1;0;2];[0;1;2];[0;1;2]]) as Hv
    by (apply (bool_decide_unpack _); vm_compute; exact I).
  split; [lia|]. split; [exact Hv|].
  apply engine_output_is_stable; [lia|exact Hv].
Defined.

(** C2. On every valid instance with [n >= 1] the pairing the engine
    returns is a perfect matching: a permutation of [0..n-1] of length
    [n], in which no entry is the sentinel [-1] and every receiver is
    the match of exactly one proposer. *)
Theorem engine_output_is_perfect_matching n hospital_prefs student_prefs :
  1 <= n → valid_instance n hospital_prefs student_prefs →
  ∃ M,
    (∀ fuel, n * n < Z.of_nat fuel →
       gale_shapley fuel n hospital_prefs student_prefs = Some (Ok M)) ∧
    is_permutation n M ∧
    Z.of_nat (length M) = n ∧
    (∀ h, 0 <= h < n → M !!! h ≠ -1 ∧ 0 <= M !!! h < n) ∧
    (∀ s, 0 <= s < n →
       ∃ h, 0 <= h < n ∧ M !!! h = s ∧ ∀ h', 0 <= h' < n → M !!! h' = s → h' = h).
Proof.
  intros Hn Hv. pose proof Hv as [Hhp Hsp].
  destruct (gale_shapley_result n hospital_prefs student_prefs Hv)
    as (st & Hrun & Hinv & _ & Hnone).
  exists (hospital_match st). split; [done|].
  pose proof (final_perfect n hospital_prefs student_prefs Hhp st Hinv Hnone) as HM.
  split; [done|]. split; [rewrite (is_permutation_length n _ HM); lia|]. split.
  - intros h Hh. pose proof (is_permutation_lookup n _ h HM Hh). lia.
  - intros s Hs. destruct (is_permutation_surj n _ s HM Hs) as (h & Hh & Hhs).
    exists h. split; [done|]. split; [done|]. intros h' Hh' Heq.
    apply (is_permutation_lookup_inj n (hospital_match st)); [done..|congruence].
Qed.

Lemma engine_output_is_perfect_matching_witness :
  1 <= 3 ∧
  valid_instance 3 [[0;1;2];[1;0;2];[0;1;2]] [[1;0;2];[0;1;2];[0;1;2]] ∧
  ∃ M,
    (∀ fuel, 3 * 3 < Z.of_nat fuel →
       gale_shapley fuel 3 [[0;1;2];[1;0;2];[0;1;2]] [[1;0;2];[0;1;2];[0;1;2]]
         = Some (Ok M)) ∧
    is_permutation 3 M ∧
    Z.of_nat (length M) = 3 ∧
    (∀ h, 0 <= h < 3 → M !!! h ≠ -1 ∧ 0 <= M !!! h < 3) ∧
    (∀ s, 0 <= s < 3 →
       ∃ h, 0 <= h < 3 ∧ M !!! h = s ∧ ∀ h', 0 <= h' < 3 → M !!! h' = s → h' = h).
Proof.
  assert (valid_instance 3 [[0;1;2];[1;0;2];[0;1;2]] [[1;0;2];[0;1;2];[0;1;2]]) as Hv
    by (apply (bool_decide_unpack _); vm_compute; exact I).
  split; [lia|]. split; [exact Hv|].
  apply engine_output_is_perfect_matching; [lia|exact Hv].
Defined.

(** C3. On every valid instance with [n >= 1] the main loop stops: given
    more than [n * n] iterations it breaks, after a run of at most
    [n * n] proposals. The counter counts the proposals of the run, no
    (proposer, receiver) pair is proposed twice, between any two states of
    a run every cursor only advances, a proposal advances the proposer's
    cursor by one past the receiver it names, and the loop breaks in a
    state where no unmatched hospital has a student left on its list. *)
Theorem engine_terminates_within_n_squared n hospital_prefs student_prefs :
  1 <= n → valid_instance n hospital_prefs student_prefs →
  ∃ student_ranking log st,
    ranking_table n student_prefs = Ok student_ranking ∧
    (∀ fuel, n * n < Z.of_nat fuel →
       run fuel n hospital_prefs student_prefs = Some (Ok st)) ∧
    run_steps n hospital_prefs student_ranking (init_state n) log st ∧
    proposal_count st = Z.of_nat (length log) ∧
    proposal_count st <= n * n ∧
    NoDup log ∧
    (∀ log1 st1 log2 st2 h,
       run_steps n hospital_prefs student_ranking (init_state n) log1 st1 →
       run_steps n hospital_prefs student_ranking st1 log2 st2 →
       0 <= h < n → next_proposal st1 !!! h <= next_proposal st2 !!! h) ∧
    (∀ log1 st1 h s st2,
       run_steps n hospital_prefs student_ranking (init_state n) log1 st1 →
       run_steps n hospital_prefs student_ranking st1 [(h, s)] st2 →
       s = (hospital_prefs !!! h) !!! (next_proposal st1 !!! h) ∧
       next_proposal st2 !!! h = next_proposal st1 !!! h + 1) ∧
    no_free_hospital n st.
Proof.
  intros Hn Hv. pose proof Hv as [Hhp Hsp].
  destruct (run_result n hospital_prefs student_prefs Hv)
    as (srank & log & st & Htab & Htable & Hsteps & Hrun & Hinv & _ & Hnone).
  pose proof (init_state_inv n hospital_prefs student_prefs) as Hinit.
  exists srank, log, st.
  destruct (run_steps_log n hospital_prefs student_prefs srank Hhp Htable
              _ _ _ Hsteps Hinit) as (Hcount & _ & _ & Hnd).
  simpl in Hcount.
  pose proof (proposal_count_bound n hospital_prefs student_prefs st Hinv).
  split_and!; try done; try lia.
  - intros log1 st1 log2 st2 h Hrun1 Hrun2 Hh.
    pose proof (run_steps_inv n hospital_prefs student_prefs srank Hhp Htable
                  _ _ _ Hrun1 Hinit) as Hinv1.
    destruct (run_steps_log n hospital_prefs student_prefs srank Hhp Htable
                _ _ _ Hrun2 Hinv1) as (_ & Hmono & _).
    by apply Hmono.
  - intros log1 st1 h s st2 Hrun1 Hrun2.
    pose proof (run_steps_inv n hospital_prefs student_prefs srank Hhp Htable
                  _ _ _ Hrun1 Hinit) as Hinv1.
    inversion Hrun2 as [|? ? ? st' ? ? Hf Hh Hs Hp Hrest]; subst.
    inversion Hrest; subst.
    destruct (run_step_inv n hospital_prefs student_prefs srank Hhp Htable
                st1 h s st2 Hinv1 Hf Hh Hs Hp) as (Hr & _ & _ & -> & ->).
    split; [done|].
    destruct (after_proposal_cursor hospital_prefs student_prefs st1 h) as [-> _].
    apply lookup_total_Z_insert_eq. rewrite (inv_len_np _ _ _ _ Hinv1). lia.
Qed.

Lemma engine_terminates_within_n_squared_witness :
  1 <= 3 ∧
  valid_instance 3 [[0;1;2];[1;0;2];[0;1;2]] [[1;0;2];[0;1;2];[0;1;2]] ∧
  ∃ student_ranking log st,
    ranking_table 3 [[1;0;2];[0;1;2];[0;1;2]] = Ok student_ranking ∧
    (∀ fuel, 3 * 3 < Z.of_nat fuel →
       run fuel 3 [[0;1;2];[1;0;2];[0;1;2]] [[1;0;2];[0;1;2];[0;1;2]] = Some (Ok st)) ∧
    run_steps 3 [[0;1;2];[1;0;2];[0;1;2]] student_ranking (init_state 3) log st ∧
    proposal_count st = Z.of_nat (length log) ∧
    proposal_count st <= 3 * 3 ∧
    NoDup log ∧
    (∀ log1 st1 log2 st2 h,
       run_steps 3 [[0;1;2];[1;0;2];[0;1;2]] student_ranking (init_state 3) log1 st1 →
       run_steps 3 [[0;1;2];[1;0;2];[0;1;2]] student_ranking st1 log2 st2 →
       0 <= h < 3 → next_proposal st1 !!! h <= next_proposal st2 !!! h) ∧
    (∀ log1 st1 h s st2,
       run_steps 3 [[0;1;2];[1;0;2];[0;1;2]] student_ranking (init_state 3) log1 st1 →
       run_steps 3 [[0;1;2];[1;0;2];[0;1;2]] student_ranking st1 [(h, s)] st2 →
       s = ([[0;1;2];[1;0;2];[0;1;2]] !!! h) !!! (next_proposal st1 !!! h) ∧
       next_proposal st2 !!! h = next_proposal st1 !!! h + 1) ∧
    no_free_hospital 3 st.
Proof.
  assert (valid_instance 3 [[0;1;2];[1;0;2];[0;1;2]] [[1;0;2];[0;1;2];[0;1;2]]) as Hv
    by (apply (bool_decide_unpack _); vm_compute; exact I).
  split; [lia|]. split; [exact Hv|].
  apply engine_terminates_within_n_squared; [lia|exact Hv].
Defined.

(** C6. On every valid instance with [n >= 1] the pairing the engine
    returns is proposer-optimal: whatever stable perfect matching [M'] of
    the instance one takes, no proposer ranks its match in [M'] better
    than the receiver the engine gives it. *)
Theorem engine_output_is_proposer_optimal n hospital_prefs student_prefs :
  1 <= n → valid_instance n hospital_prefs student_prefs →
  ∃ M,
    (∀ fuel, n * n < Z.of_nat fuel →
       gale_shapley fuel n hospital_prefs student_prefs = Some (Ok M)) ∧
    ∀ M' p,
      is_permutation n M' → stable n hospital_prefs student_prefs M' → 0 <= p < n →
      rank_in (hospital_prefs !!! p) (M !!! p)
        <= rank_in (hospital_prefs !!! p) (M' !!! p).
Proof.
  intros Hn Hv. pose proof Hv as [Hhp Hsp].
  destruct (gale_shapley_result n hospital_prefs student_prefs Hv)
    as (st & Hrun & Hinv & Hrej & Hnone).
  exists (hospital_match st). split; [done|]. intros M' p HM' Hst Hp.
  by apply (final_optimal n hospital_prefs student_prefs Hhp st Hinv Hnone).
Qed.

Lemma engine_output_is_proposer_optimal_witness :
  1 <= 3 ∧
  valid_instance 3 [[0;1;2];[1;0;2];[0;1;2]] [[1;0;2];[0;1;2];[0;1;2]] ∧
  ∃ M,
    (∀ fuel, 3 * 3 < Z.of_nat fuel →
       gale_shapley fuel 3 [[0;1;2];[1;0;2];[0;1;2]] [[1;0;2];[0;1;2];[0;1;2]]
         = Some (Ok M)) ∧
    ∀ M' p,
      is_permutation 3 M' →
      stable 3 [[0;1;2];[1;0;2];[0;1;2]] [[1;0;2];[0;1;2];[0;1;2]] M' → 0 <= p < 3 →
      rank_in ([[0;1;2];[1;0;2];[0;1;2]] !!! p) (M !!! p)
        <= rank_in ([[0;1;2];[1;0;2];[0;1;2]] !!! p) (M' !!! p).
Proof.
  assert (valid_instance 3 [[0;1;2];[1;0;2];[0;1;2]] [[1;0;2];[0;1;2];[0;1;2]]) as Hv
    by (apply (bool_decide_unpack _); vm_compute; exact I).
  split; [lia|]. split; [exact Hv|].
  apply engine_output_is_proposer_optimal; [lia|exact Hv].
Defined.

(** C4. For permutation preference tables and a pairing [M] that is a
    bijection from proposers to receivers, the stability check reports
    stability exactly when [M] has no blocking pair, and reports a pair
    exactly when one exists; the pair it reports is the first blocking
    pair in the order of its loops (proposer index, then receiver index,
    both ascending). *)
Theorem check_stability_finds_first_blocking_pair n hospital_prefs student_prefs M :
  valid_instance n hospital_prefs student_prefs → is_permutation n M →
  (check_stability n hospital_prefs student_prefs (Some <$> M) = Ok (true, "")
     ↔ stable n hospital_prefs student_prefs M) ∧
  ((∃ p r, check_stability n hospital_prefs student_prefs (Some <$> M)
             = Ok (false, msg_blocking p r))
     ↔ ∃ p r, blocking_pair n hospital_prefs student_prefs M p r) ∧
  (∀ p r, first_blocking_pair n hospital_prefs student_prefs M p r →
     check_stability n hospital_prefs student_prefs (Some <$> M)
       = Ok (false, msg_blocking p r)) ∧
  (∀ msg, check_stability n hospital_prefs student_prefs (Some <$> M) = Ok (false, msg) →
     ∃ p r, msg = msg_blocking p r ∧
            first_blocking_pair n hospital_prefs student_prefs M p r).
Proof.
  intros Hv HM.
  destruct (check_stability_spec n hospital_prefs student_prefs M Hv HM)
    as [[Hs Hst]|(p & r & Hs & Hf)]; rewrite Hs.
  - split_and!.
    + done.
    + split; [by intros (p & r & ?)|]. intros (p & r & Hb). by destruct (Hst p r).
    + intros p r [Hb _]. by destruct (Hst p r).
    + by intros msg.
  - split_and!.
    + split; [done|]. intros Hst. destruct Hf as [Hb _]. by destruct (Hst p r).
    + split; [|by eauto]. intros _. exists p, r. apply Hf.
    + intros p' r' Hf'.
      by destruct (first_blocking_pair_unique _ _ _ _ _ _ _ _ Hf Hf') as [-> ->].
    + intros msg [= <-]. by exists p, r.
Qed.

Lemma check_stability_finds_first_blocking_pair_witness :
  valid_instance 2 [[1;0];[0;1]] [[0;1];[0;1]] ∧ is_permutation 2 [0;1] ∧
  (check_stability 2 [[1;0];[0;1]] [[0;1];[0;1]] (Some <$> [0;1]) = Ok (true, "")
     ↔ stable 2 [[1;0];[0;1]] [[0;1];[0;1]] [0;1]) ∧
  ((∃ p r, check_stability 2 [[1;0];[0;1]] [[0;1];[0;1]] (Some <$> [0;1])
             = Ok (false, msg_blocking p r))
     ↔ ∃ p r, blocking_pair 2 [[1;0];[0;1]] [[0;1];[0;1]] [0;1] p r) ∧
  (∀ p r, first_blocking_pair 2 [[1;0];[0;1]] [[0;1];[0;1]] [0;1] p r →
     check_stability 2 [[1;0];[0;1]] [[0;1];[0;1]] (Some <$> [0;1])
       = Ok (false, msg_blocking p r)) ∧
  (∀ msg, check_stability 2 [[1;0];[0;1]] [[0;1];[0;1]] (Some <$> [0;1]) = Ok (false, msg) →
     ∃ p r, msg = msg_blocking p r ∧
            first_blocking_pair 2 [[1;0];[0;1]] [[0;1];[0;1]] [0;1] p r).
Proof.
  assert (valid_instance 2 [[1;0];[0;1]] [[0;1];[0;1]]) as Hv
    by (apply (bool_decide_unpack _); vm_compute; exact I).
  assert (is_permutation 2 [0;1]) as HM
    by (apply (bool_decide_unpack _); vm_compute; exact I).
  split; [exact Hv|]. split; [exact HM|].
  apply check_stability_finds_first_blocking_pair; [exact Hv|exact HM].
Defined.

(** C7. The third branch of the validity check cannot be entered: for a
    pairing of length [n] with entries in [0..n-1], if every proposer has
    a receiver and no two proposers have the same one, then every
    receiver is covered, the dictionary built by the second loop has
    exactly [n] keys, and the check returns valid. *)
Theorem uncovered_receiver_branch_unreachable n (matching : list (option Z)) :
  Z.of_nat (length matching) = n →
  (∀ h, 0 <= h < n → ∃ s, matching !!! h = Some s ∧ 0 <= s < n) →
  (∀ h h', 0 <= h < n → 0 <= h' < n → matching !!! h = matching !!! h' → h = h') →
  (∀ s, 0 <= s < n → ∃ h, 0 <= h < n ∧ matching !!! h = Some s) ∧
  (∃ student_matched_to,
     first_unmatched matching (range n) = Ok None ∧
     scan_duplicates matching ∅ (range n) = Ok (inl student_matched_to) ∧
     Z.of_nat (size student_matched_to) = n ∧
     unmatched_students n student_matched_to = []) ∧
  check_validity n matching = Ok (true, "").
Proof.
  intros Hlen Hsome Hinj.
  assert (∀ s, 0 <= s < n → ∃ h, 0 <= h < n ∧ matching !!! h = Some s) as Hcover.
  { destruct (total_matching_is_permutation n matching Hlen Hsome Hinj) as (M & -> & HM).
    intros s Hs. destruct (is_permutation_surj n M s HM Hs) as (h & Hh & <-).
    exists h. split; [done|]. apply lookup_total_Z_fmap.
    rewrite (is_permutation_length n M HM). lia. }
  split; [done|].
  destruct (check_validity_spec n matching Hlen) as
    [(h & Hh & Hm & _)|[(_ & h & s & h0 & Hh0 & Hh & Hm & Hm0 & _)|
                        (Hall & _ & (d & Hscan & Hd) & Hcheck)]].
  - destruct (Hsome h Hh) as (s & Hs & _). congruence.
  - assert (h = h0); [|lia]. apply Hinj; [lia..|congruence].
  - split; [|done]. exists d. destruct Hd as [Hseen Hsize].
    split_and!; try done.
    + unfold range. subst n.
      destruct (first_unmatched_spec matching (length matching) 0)
        as [[Hf _]|(h & Hh & _ & Hm & _)]; [lia..|done|].
      destruct (Hall h); [lia|done].
    + unfold unmatched_students. apply elements_empty_iff, equiv_empty.
      intros s [Hin Hnot]%elem_of_difference. destruct Hnot.
      apply elem_of_list_to_set, elem_of_range in Hin.
      destruct (Hcover s Hin) as (h & Hh & Hhs).
      apply elem_of_list_to_set, list_elem_of_omap. exists (Some s). split; [|done].
      apply elem_of_elements, elem_of_dom. exists h. by apply Hseen.
Qed.

Lemma uncovered_receiver_branch_unreachable_witness :
  Z.of_nat (length [Some 1; Some 2; Some 0]) = 3 ∧
  (∀ h, 0 <= h < 3 → ∃ s, [Some 1; Some 2; Some 0] !!! h = Some s ∧ 0 <= s < 3) ∧
  (∀ h h', 0 <= h < 3 → 0 <= h' < 3 →
     [Some 1; Some 2; Some 0] !!! h = [Some 1; Some 2; Some 0] !!! h' → h = h') ∧
  (∀ s, 0 <= s < 3 → ∃ h, 0 <= h < 3 ∧ [Some 1; Some 2; Some 0] !!! h = Some s) ∧
  (∃ student_matched_to,
     first_unmatched [Some 1; Some 2; Some 0] (range 3) = Ok None ∧
     scan_duplicates [Some 1; Some 2; Some 0] ∅ (range 3) = Ok (inl student_matched_to) ∧
     Z.of_nat (size student_matched_to) = 3 ∧
     unmatched_students 3 student_matched_to = []) ∧
  check_validity 3 [Some 1; Some 2; Some 0] = Ok (true, "").
Proof.
  assert (∀ h, 0 <= h < 3 → h = 0 ∨ h = 1 ∨ h = 2) as Hcases by lia.
  assert (∀ h, 0 <= h < 3 → ∃ s, [Some 1; Some 2; Some 0] !!! h = Some s ∧ 0 <= s < 3) as H1.
  { intros h Hh. destruct (Hcases h Hh) as [-> | [-> | ->]];
      [exists 1|exists 2|exists 0]; (split; [reflexivity|lia]). }
  assert (∀ h h', 0 <= h < 3 → 0 <= h' < 3 →
     [Some 1; Some 2; Some 0] !!! h = [Some 1; Some 2; Some 0] !!! h' → h = h') as H2.
  { intros h h' Hh Hh'.
    destruct (Hcases h Hh) as [-> | [-> | ->]]; destruct (Hcases h' Hh') as [-> | [-> | ->]];
      vm_compute; congruence. }
  split; [reflexivity|]. split; [exact H1|]. split; [exact H2|].
  apply uncovered_receiver_branch_unreachable; [reflexivity|exact H1|exact H2].
Defined.

Lemma check_validity_message n (matching : list (option Z)) msg :
  Z.of_nat (length matching) = n →
  check_validity n matching = Ok (false, msg) →
  String.prefix "INVALID: " msg = true ∧ structurally_invalid n matching.
Proof.
  intros Hlen Hcheck.
  destruct (check_validity_spec n matching Hlen) as
    [(h & Hh & Hm & _ & Hc)|[(_ & h & s & h0 & Hh0 & Hh & Hm & Hm0 & _ & Hc)|
                             (_ & _ & _ & Hc)]];
    rewrite Hc in Hcheck; [| |done]; injection Hcheck as <-.
  - split; [done|]. left. by exists h.
  - split; [done|]. right. exists h0, h. split_and!; try lia. congruence.
Qed.

Lemma check_validity_valid n (matching : list (option Z)) :
  Z.of_nat (length matching) = n →
  check_validity n matching = Ok (true, "") →
  ¬ structurally_invalid n matching.
Proof.
  intros Hlen Hcheck.
  destruct (check_validity_spec n matching Hlen) as
    [(h & Hh & Hm & _ & Hc)|[(_ & h & s & h0 & Hh0 & Hh & Hm & Hm0 & _ & Hc)|
                             (Hall & Hinj & _ & Hc)]];
    rewrite Hc in Hcheck; [done..|].
  intros [(h & Hh & Hm)|(h & h' & Hh & Hh' & Hne & Heq)].
  - by destruct (Hall h Hh).
  - by apply Hne, Hinj.
Qed.

(** C5. On preference tables of a valid instance and a pairing of [n]
    entries, each a receiver index or nothing, the verifier reports one
    verdict, [Invalid], [Unstable] or [Stable], which its printed line
    tells apart. It reports [Invalid] exactly on the result of the
    validity check; the stability check decides only after the validity
    check has passed; and a structurally invalid pairing gets [Invalid],
    never [Unstable]. *)
Theorem validity_precedes_stability n hospital_prefs student_prefs
    (matching : list (option Z)) :
  valid_instance n hospital_prefs student_prefs →
  Z.of_nat (length matching) = n →
  (∀ h s, 0 <= h < n → matching !!! h = Some s → 0 <= s < n) →
  ∃ v, verify n hospital_prefs student_prefs matching = Ok v ∧
    printed_as v (print_verdict v) ∧
    ((∃ msg, v = Invalid msg ∧ check_validity n matching = Ok (false, msg)) ∨
     (∃ msg, v = Unstable msg ∧ check_validity n matching = Ok (true, "") ∧
        check_stability n hospital_prefs student_prefs matching = Ok (false, msg)) ∨
     (v = Stable ∧ check_validity n matching = Ok (true, "") ∧
        check_stability n hospital_prefs student_prefs matching = Ok (true, ""))) ∧
    (structurally_invalid n matching ↔ ∃ msg, v = Invalid msg).
Proof.
  intros Hv Hlen Hrange. unfold verify.
  destruct (check_validity_spec n matching Hlen) as
    [(h & Hh & Hm & _ & Hc)|[(_ & h & s & h0 & Hh0 & Hh & Hm & Hm0 & _ & Hc)|
                             (Hall & Hinj & _ & Hc)]].
  - destruct (check_validity_message n matching _ Hlen Hc) as [Hpre Hinv].
    rewrite Hc. eexists. split; [done|]. split; [done|]. split; [left; eauto|].
    split; eauto.
  - destruct (check_validity_message n matching _ Hlen Hc) as [Hpre Hinv].
    rewrite Hc. eexists. split; [done|]. split; [done|]. split; [left; eauto|].
    split; eauto.
  - pose proof (check_validity_valid n matching Hlen Hc) as Hok.
    rewrite Hc.
    destruct (total_matching_is_permutation n matching Hlen) as (M & -> & HM); [|done|].
    { intros h Hh. destruct (matching !!! h) as [s|] eqn:Hs; [|by destruct (Hall h Hh)].
      exists s. split; [done|]. by apply (Hrange h). }
    destruct (check_stability_spec n hospital_prefs student_prefs M Hv HM)
      as [[Hs Hst]|(p & r & Hs & Hf)]; rewrite Hs.
    + eexists. split; [done|]. split; [done|]. split; [right; right; done|].
      split; [done|]. by intros [msg ?].
    + eexists. split; [done|]. split; [done|]. split; [right; left; eauto|].
      split; [done|]. by intros [msg ?].
Qed.

Lemma validity_precedes_stability_witness :
  valid_instance 2 [[1;0];[0;1]] [[0;1];[0;1]] ∧
  Z.of_nat (length [Some 1; Some 1]) = 2 ∧
  (∀ h s, 0 <= h < 2 → [Some 1; Some 1] !!! h = Some s → 0 <= s < 2) ∧
  ∃ v, verify 2 [[1;0];[0;1]] [[0;1];[0;1]] [Some 1; Some 1] = Ok v ∧
    printed_as v (print_verdict v) ∧
    ((∃ msg, v = Invalid msg ∧ check_validity 2 [Some 1; Some 1] = Ok (false, msg)) ∨
     (∃ msg, v = Unstable msg ∧ check_validity 2 [Some 1; Some 1] = Ok (true, "") ∧
        check_stability 2 [[1;0];[0;1]] [[0;1];[0;1]] [Some 1; Some 1] = Ok (false, msg)) ∨
     (v = Stable ∧ check_validity 2 [Some 1; Some 1] = Ok (true, "") ∧
        check_stability 2 [[1;0];[0;1]] [[0;1];[0;1]] [Some 1; Some 1] = Ok (true, ""))) ∧
    (structurally_invalid 2 [Some 1; Some 1] ↔ ∃ msg, v = Invalid msg).
Proof.
  assert (valid_instance 2 [[1;0];[0;1]] [[0;1];[0;1]]) as Hv
    by (apply (bool_decide_unpack _); vm_compute; exact I).
  assert (∀ h s, 0 <= h < 2 → [Some 1; Some 1] !!! h = Some s → 0 <= s < 2) as Hr.
  { intros h s Hh Hs. assert (h = 0 ∨ h = 1) as [-> | ->] by lia;
      vm_compute in Hs; injection Hs as <-; lia. }
  split; [exact Hv|]. split; [reflexivity|]. split; [exact Hr|].
  apply validity_precedes_stability; [exact Hv|reflexivity|exact Hr].
Defined.

(** C8, as stated, fails where a proposer is unmatched as well: on
    [[1, 1, None]] two proposers have receiver [1], and the check stops
    at the first loop and reports the unmatched proposer, not the
    duplicate. *)
Lemma duplicate_receiver_hidden_by_unmatched :
  [Some 1; Some 1; None] !!! 0 = Some 1 ∧
  [Some 1; Some 1; None] !!! 1 = Some 1 ∧
  check_validity 3 [Some 1; Some 1; None] = Ok (false, msg_unmatched 2) ∧
  ∀ s h0 h, check_validity 3 [Some 1; Some 1; None] ≠ Ok (false, msg_duplicate s h0 h).
Proof.
  split; [reflexivity|]. split; [reflexivity|]. split; [reflexivity|].
  intros s h0 h Heq. vm_compute in Heq. discriminate Heq.
Qed.

(** C8, amended. For a pairing of [n] entries in which every proposer
    has a receiver and two proposers [h1 < h2] have the same one, the
    validity check returns invalid with the duplicate message for a
    receiver [s] and two proposers [a < b] that both have [s]: [b] is the
    first proposer whose receiver is already taken, so [b <= h2] and no
    receiver occurs twice below [b]. For [n = 2] the pairing
    [{0:1, 1:1}] gives the message for receiver [1] and proposers [0]
    and [1]. *)
Theorem duplicate_receiver_reported n (matching : list (option Z)) h1 h2 s :
  Z.of_nat (length matching) = n →
  (∀ h, 0 <= h < n → matching !!! h ≠ None) →
  0 <= h1 < h2 → h2 < n →
  matching !!! h1 = Some s → matching !!! h2 = Some s →
  (∃ s' a b, 0 <= a < b ∧ b <= h2 ∧
     matching !!! a = Some s' ∧ matching !!! b = Some s' ∧
     (∀ i j, 0 <= i < b → 0 <= j < b → matching !!! i = matching !!! j → i = j) ∧
     check_validity n matching = Ok (false, msg_duplicate s' a b)) ∧
  check_validity 2 [Some 1; Some 1] = Ok (false, msg_duplicate 1 0 1) ∧
  msg_duplicate 1 0 1 = "INVALID: Student 2 is matched to both Hospital 1 and Hospital 2".
Proof.
  intros Hlen Hall Hh1 Hh2 Hm1 Hm2. split; [|split; reflexivity].
  destruct (check_validity_spec n matching Hlen) as
    [(h & Hh & Hm & _)|[(_ & h & s' & h0 & Hh0 & Hh & Hm & Hm0 & Hinj & Hc)|
                        (_ & Hinj & _)]].
  - by destruct (Hall h Hh).
  - exists s', h0, h. split_and!; try done; try lia.
    destruct (decide (h <= h2)) as [|Hgt]; [done|].
    assert (h1 = h2); [|lia]. apply Hinj; [lia..|congruence].
  - assert (h1 = h2); [|lia]. apply Hinj; [lia..|congruence].
Qed.

Lemma duplicate_receiver_reported_witness :
  Z.of_nat (length [Some 1; Some 1]) = 2 ∧
  (∀ h, 0 <= h < 2 → [Some 1; Some 1] !!! h ≠ None) ∧
  0 <= 0 < 1 ∧ 1 < 2 ∧
  [Some 1; Some 1] !!! 0 = Some 1 ∧ [Some 1; Some 1] !!! 1 = Some 1 ∧
  (∃ s' a b, 0 <= a < b ∧ b <= 1 ∧
     [Some 1; Some 1] !!! a = Some s' ∧ [Some 1; Some 1] !!! b = Some s' ∧
     (∀ i j, 0 <= i < b → 0 <= j < b →
        [Some 1; Some 1] !!! i = [Some 1; Some 1] !!! j → i = j) ∧
     check_validity 2 [Some 1; Some 1] = Ok (false, msg_duplicate s' a b)) ∧
  check_validity 2 [Some 1; Some 1] = Ok (false, msg_duplicate 1 0 1) ∧
  msg_duplicate 1 0 1 = "INVALID: Student 2 is matched to both Hospital 1 and Hospital 2".
Proof.
  assert (∀ h, 0 <= h < 2 → [Some 1; Some 1] !!! h ≠ None) as Hall.
  { intros h Hh. assert (h = 0 ∨ h = 1) as [-> | ->] by lia; vm_compute; discriminate. }
  split; [reflexivity|]. split; [exact Hall|]. split; [lia|]. split; [lia|].
  split; [reflexivity|]. split; [reflexivity|].
  apply (duplicate_receiver_reported 2 [Some 1; Some 1] 0 1 1);
    [reflexivity|exact Hall|lia|lia|reflexivity|reflexivity].
Defined.

(** C9. In every state the loop reaches on a valid instance, the two
    match maps agree: [hospital_match[h] = s] exactly when
    [student_match[s] = h], for every hospital [h] and student [s]; each
    entry is the sentinel [-1] or an index, so the matched pairs form a
    partial one-to-one matching. *)
Theorem match_maps_stay_consistent n hospital_prefs student_prefs student_ranking log st :
  valid_instance n hospital_prefs student_prefs →
  ranking_table n student_prefs = Ok student_ranking →
  run_steps n hospital_prefs student_ranking (init_state n) log st →
  (∀ h s, 0 <= h < n → 0 <= s < n →
     hospital_match st !!! h = s ↔ student_match st !!! s = h) ∧
  (∀ h, 0 <= h < n → hospital_match st !!! h = -1 ∨ 0 <= hospital_match st !!! h < n) ∧
  (∀ s, 0 <= s < n → student_match st !!! s = -1 ∨ 0 <= student_match st !!! s < n) ∧
  (∀ h h', 0 <= h < n → 0 <= h' < n → hospital_match st !!! h ≠ -1 →
     hospital_match st !!! h = hospital_match st !!! h' → h = h').
Proof.
  intros [Hhp Hsp] Htab Hrun.
  destruct (ranking_table_spec n student_prefs Hsp) as (srank & Htab' & Htable).
  rewrite Htab in Htab'. injection Htab' as <-.
  pose proof (run_steps_inv n hospital_prefs student_prefs student_ranking Hhp Htable
                _ _ _ Hrun (init_state_inv n hospital_prefs student_prefs)) as Hinv.
  split_and!.
  - intros h s Hh Hs. by apply (engine_inv_consistent n hospital_prefs student_prefs).
  - intros h Hh. destruct (inv_hm _ _ _ _ Hinv h Hh) as [?|[? _]]; [by left|by right].
  - intros s Hs. destruct (inv_sm _ _ _ _ Hinv s Hs) as [?|[? _]]; [by left|by right].
  - intros h h' Hh Hh' Hne Heq.
    destruct (inv_hm _ _ _ _ Hinv h Hh) as [?|[_ Hback]]; [done|].
    destruct (inv_hm _ _ _ _ Hinv h' Hh') as [?|[_ Hback']]; [congruence|].
    rewrite Heq in Hback. congruence.
Qed.

Lemma match_maps_stay_consistent_witness :
  valid_instance 2 [[0;1];[0;1]] [[1;0];[0;1]] ∧
  ranking_table 2 [[1;0];[0;1]] = Ok [[1;0];[0;1]] ∧
  run_steps 2 [[0;1];[0;1]] [[1;0];[0;1]] (init_state 2) [(0, 0); (1, 0)]
    (State [-1; 0] [1; -1] [1; 1] 2) ∧
  (∀ h s, 0 <= h < 2 → 0 <= s < 2 →
     [-1; 0] !!! h = s ↔ [1; -1] !!! s = h) ∧
  (∀ h, 0 <= h < 2 → [-1; 0] !!! h = -1 ∨ 0 <= [-1; 0] !!! h < 2) ∧
  (∀ s, 0 <= s < 2 → [1; -1] !!! s = -1 ∨ 0 <= [1; -1] !!! s < 2) ∧
  (∀ h h', 0 <= h < 2 → 0 <= h' < 2 → [-1; 0] !!! h ≠ -1 →
     [-1; 0] !!! h = [-1; 0] !!! h' → h = h').
Proof.
  assert (valid_instance 2 [[0;1];[0;1]] [[1;0];[0;1]]) as Hv
    by (apply (bool_decide_unpack _); vm_compute; exact I).
  assert (run_steps 2 [[0;1];[0;1]] [[1;0];[0;1]] (init_state 2) [(0, 0); (1, 0)]
            (State [-1; 0] [1; -1] [1; 1] 2)) as Hrun.
  { eapply run_steps_cons; [reflexivity|lia|reflexivity|reflexivity|].
    eapply run_steps_cons; [reflexivity|lia|reflexivity|reflexivity|].
    apply run_steps_nil. }
  split; [exact Hv|]. split; [reflexivity|]. split; [exact Hrun|].
  apply (match_maps_stay_consistent 2 [[0;1];[0;1]] [[1;0];[0;1]] [[1;0];[0;1]]
           [(0, 0); (1, 0)] (State [-1; 0] [1; -1] [1; 1] 2));
    [exact Hv|reflexivity|exact Hrun].
Defined.

(** C10. Along every run on a valid instance a matched student stays
    matched, and whenever its match is another hospital later in the run,
    the later hospital has a strictly smaller rank in the student's row
    of the ranking table. *)
Theorem receivers_only_trade_up n hospital_prefs student_prefs student_ranking
    log1 st1 log2 st2 s :
  valid_instance n hospital_prefs student_prefs →
  ranking_table n student_prefs = Ok student_ranking →
  run_steps n hospital_prefs student_ranking (init_state n) log1 st1 →
  run_steps n hospital_prefs student_ranking st1 log2 st2 →
  0 <= s < n → student_match st1 !!! s ≠ -1 →
  student_match st2 !!! s ≠ -1 ∧
  (student_match st2 !!! s ≠ student_match st1 !!! s →
   (student_ranking !!! s) !!! (student_match st2 !!! s)
     < (student_ranking !!! s) !!! (student_match st1 !!! s)).
Proof.
  intros [Hhp Hsp] Htab Hrun1 Hrun2 Hs Hne.
  destruct (ranking_table_spec n student_prefs Hsp) as (srank & Htab' & Htable).
  rewrite Htab in Htab'. injection Htab' as <-.
  pose proof (run_steps_inv n hospital_prefs student_prefs student_ranking Hhp Htable
                _ _ _ Hrun1 (init_state_inv n hospital_prefs student_prefs)) as Hinv1.
  pose proof (run_steps_inv n hospital_prefs student_prefs student_ranking Hhp Htable
                _ _ _ Hrun2 Hinv1) as Hinv2.
  destruct (run_steps_trade_up n hospital_prefs student_prefs student_ranking Hhp Htable
              _ _ _ s Hrun2 Hinv1 Hs Hne) as [Hne2 Hcases].
  split; [done|]. intros Hchange. destruct Hcases as [?|Hlt]; [done|].
  destruct Htable as [_ Hrows]. destruct (Hrows s Hs) as [_ Hrow].
  destruct (inv_sm _ _ _ _ Hinv1 s Hs) as [?|[Hr1 _]]; [done|].
  destruct (inv_sm _ _ _ _ Hinv2 s Hs) as [?|[Hr2 _]]; [done|].
  by rewrite !Hrow by done.
Qed.

Lemma receivers_only_trade_up_witness :
  valid_instance 2 [[0;1];[0;1]] [[1;0];[0;1]] ∧
  ranking_table 2 [[1;0];[0;1]] = Ok [[1;0];[0;1]] ∧
  run_steps 2 [[0;1];[0;1]] [[1;0];[0;1]] (init_state 2) [(0, 0)]
    (State [0; -1] [0; -1] [1; 0] 1) ∧
  run_steps 2 [[0;1];[0;1]] [[1;0];[0;1]] (State [0; -1] [0; -1] [1; 0] 1) [(1, 0)]
    (State [-1; 0] [1; -1] [1; 1] 2) ∧
  0 <= 0 < 2 ∧ [0; -1] !!! 0 ≠ -1 ∧
  [1; -1] !!! 0 ≠ -1 ∧
  ([1; -1] !!! 0 ≠ [0; -1] !!! 0 →
   ([[1;0];[0;1]] !!! 0) !!! ([1; -1] !!! 0) < ([[1;0];[0;1]] !!! 0) !!! ([0; -1] !!! 0)).
Proof.
  assert (valid_instance 2 [[0;1];[0;1]] [[1;0];[0;1]]) as Hv
    by (apply (bool_decide_unpack _); vm_compute; exact I).
  assert (run_steps 2 [[0;1];[0;1]] [[1;0];[0;1]] (init_state 2) [(0, 0)]
            (State [0; -1] [0; -1] [1; 0] 1)) as Hrun1.
  { eapply run_steps_cons; [reflexivity|lia|reflexivity|reflexivity|apply run_steps_nil]. }
  assert (run_steps 2 [[0;1];[0;1]] [[1;0];[0;1]] (State [0; -1] [0; -1] [1; 0] 1) [(1, 0)]
            (State [-1; 0] [1; -1] [1; 1] 2)) as Hrun2.
  { eapply run_steps_cons; [reflexivity|lia|reflexivity|reflexivity|apply run_steps_nil]. }
  assert ([0; -1] !!! 0 ≠ -1) as Hne by (vm_compute; discriminate).
  split; [exact Hv|]. split; [reflexivity|]. split; [exact Hrun1|]. split; [exact Hrun2|].
  split; [lia|]. split; [exact Hne|].
  apply (receivers_only_trade_up 2 [[0;1];[0;1]] [[1;0];[0;1]] [[1;0];[0;1]]
           [(0, 0)] (State [0; -1] [0; -1] [1; 0] 1)
           [(1, 0)] (State [-1; 0] [1; -1] [1; 1] 2) 0);
    [exact Hv|reflexivity|exact Hrun1|exact Hrun2|lia|exact Hne].
Defined.


(** ** The scenarios of the specification, run *)

Example scenario_round_trip :
  gale_shapley 10 3 [[0;1;2];[1;0;2];[0;1;2]] [[1;0;2];[0;1;2];[0;1;2]]
    = Some (Ok [0; 1; 2]) ∧
  verify 3 [[0;1;2];[1;0;2];[0;1;2]] [[1;0;2];[0;1;2];[0;1;2]] (Some <$> [0; 1; 2])
    = Ok Stable.
Proof. split; vm_compute; reflexivity. Qed.

Example scenario_blocking_pair :
  verify 2 [[1;0];[0;1]] [[0;1];[0;1]] [Some 0; Some 1] = Ok (Unstable (msg_blocking 0 1)) ∧
  msg_blocking 0 1 = "UNSTABLE: Blocking pair (Hospital 1, Student 2)".
Proof. split; vm_compute; reflexivity. Qed.

Example scenario_invalid :
  verify 2 [[1;0];[0;1]] [[0;1];[0;1]] [Some 1; Some 1]
    = Ok (Invalid "INVALID: Student 2 is matched to both Hospital 1 and Hospital 2").
Proof. vm_compute; reflexivity. Qed.

Example scenario_trivial :
  gale_shapley 2 1 [[0]] [[0]] = Some (Ok [0]) ∧
  verify 1 [[0]] [[0]] [Some 0] = Ok Stable.
Proof. split; vm_compute; reflexivity. Qed.

(** * Further properties of the code *)

(** ** The engine on arbitrary input *)

Lemma bind_Ok {A B} (m : result A) (f : A → result B) b :
  m ≫= f = Ok b → ∃ a, m = Ok a ∧ f a = Ok b.
Proof. destruct m as [a|e]; [|done]. intros Hf. by exists a. Qed.

Lemma setitem_length {A} (xs xs' : list A) i v :
  setitem xs i v = Ok xs' → length xs' = length xs.
Proof.
  unfold setitem. intros (k & _ & [= <-])%bind_Ok. apply length_insert.
Qed.

Lemma find_free_sound n st hs h :
  find_free n st hs = Ok h →
  h = -1 ∨ (h ∈ hs ∧ getitem (hospital_match st) h = Ok (-1) ∧
            ∃ k, getitem (next_proposal st) h = Ok k ∧ k < n).
Proof.
  induction hs as [|h0 hs IH]; simpl; [intros [= <-]; by left|].
  intros (m & Hm & Hrest)%bind_Ok. case_bool_decide as Hfree.
  - apply bind_Ok in Hrest as (k & Hk & Hrest). case_bool_decide as Hlt.
    + injection Hrest as <-. right. subst m. split; [left|]. eauto.
    + destruct (IH Hrest) as [?|(? & ?)]; [by left|right]. split; [by right|done].
  - destruct (IH Hrest) as [?|(? & ?)]; [by left|right]. split; [by right|done].
Qed.

Lemma cursors_bounded_count n st :
  cursors_bounded n st → 0 <= proposal_count st <= n * n.
Proof.
  intros (_ & Hlen & Hcur & ->).
  destruct (decide (0 <= n)) as [Hn|Hn].
  - split.
    + apply sum_Z_nonneg. intros i Hi. specialize (Hcur (Z.of_nat i)).
      rewrite lookup_total_Z_eq, Nat2Z.id in Hcur. lia.
    + pose proof (sum_Z_bound (next_proposal st) n) as Hb.
      rewrite Hlen, Z2Nat.id in Hb by done. apply Hb.
      intros i Hi. specialize (Hcur (Z.of_nat i)).
      rewrite lookup_total_Z_eq, Nat2Z.id in Hcur. lia.
  - destruct (next_proposal st); [|simpl in Hlen; lia]. unfold sum_Z. simpl. lia.
Qed.

Lemma propose_cursors n hospital_prefs student_ranking st h st' :
  cursors_bounded n st →
  0 <= h < n → next_proposal st !!! h < n →
  propose hospital_prefs student_ranking st h = Ok st' →
  cursors_bounded n st' ∧ proposal_count st' = proposal_count st + 1.
Proof.
  intros (Hlm & Hlp & Hcur & Hcount) Hh Hk. unfold propose.
  intros (student & _ & Hrest)%bind_Ok.
  rewrite (getitem_in_range (next_proposal st)) in Hrest by lia. cbn in Hrest.
  rewrite (setitem_in_range (next_proposal st)) in Hrest by lia. cbn in Hrest.
  apply bind_Ok in Hrest as (cur & _ & Hrest).
  assert (∀ hm sm, length hm = Z.to_nat n →
    cursors_bounded n (State hm sm (<[Z.to_nat h := next_proposal st !!! h + 1]>
                                      (next_proposal st)) (proposal_count st + 1))) as Hnew.
  { intros hm sm Hl. unfold cursors_bounded.
    cbn [hospital_match student_match next_proposal proposal_count].
    split_and!; [done|by rewrite length_insert| |].
    - intros j Hj. rewrite lookup_total_Z_insert by lia.
      destruct (decide (h = j)); [specialize (Hcur h Hh); lia|by apply Hcur].
    - rewrite sum_Z_insert by lia. rewrite <- lookup_total_Z_eq. lia. }
  case_bool_decide.
  - apply bind_Ok in Hrest as (hm & Hhm & Hrest). apply bind_Ok in Hrest as (sm & _ & [= <-]).
    split; [|done]. apply Hnew. by rewrite (setitem_length _ _ _ _ Hhm).
  - apply bind_Ok in Hrest as (c & _ & Hrest). apply bind_Ok in Hrest as (row & _ & Hrest).
    apply bind_Ok in Hrest as (rn & _ & Hrest). apply bind_Ok in Hrest as (row' & _ & Hrest).
    apply bind_Ok in Hrest as (rc & _ & Hrest). case_bool_decide.
    + apply bind_Ok in Hrest as (hm & Hhm & Hrest).
      apply bind_Ok in Hrest as (hm' & Hhm' & Hrest).
      apply bind_Ok in Hrest as (sm & _ & [= <-]).
      split; [|done]. apply Hnew.
      by rewrite (setitem_length _ _ _ _ Hhm'), (setitem_length _ _ _ _ Hhm).
    + injection Hrest as <-. split; [|done]. by apply Hnew.
Qed.

Lemma main_loop_total n hospital_prefs student_ranking fuel : ∀ st,
  cursors_bounded n st →
  n * n - proposal_count st < Z.of_nat fuel →
  ∃ r, main_loop fuel n hospital_prefs student_ranking st = Some r ∧
       ∀ st', r = Ok st' → cursors_bounded n st'.
Proof.
  induction fuel as [|fuel IH]; intros st Hb Hfuel.
  - pose proof (cursors_bounded_count n st Hb). lia.
  - simpl. unfold iteration.
    destruct (find_free n st (range n)) as [h|e] eqn:Hf; cbn; [|by eexists].
    case_bool_decide as Hh; [eexists; split; [done|]; by intros ? [= <-]|].
    destruct (find_free_sound n st _ h Hf) as [?|(Hin & _ & k & Hk & Hlt)]; [done|].
    apply elem_of_range in Hin. pose proof Hb as (_ & Hlp & _).
    rewrite getitem_in_range in Hk by lia. injection Hk as <-.
    destruct (propose hospital_prefs student_ranking st h) as [st'|e] eqn:Hp; cbn;
      [|by eexists].
    destruct (propose_cursors n _ _ st h st' Hb Hin Hlt Hp) as [Hb' Hc].
    apply IH; [done|lia].
Qed.

Lemma init_state_cursors n : cursors_bounded n (init_state n).
Proof.
  split_and!; simpl; rewrite ?length_py_repeat; try done.
  - intros h Hh. rewrite lookup_total_Z_replicate by done. lia.
  - unfold py_repeat. by rewrite sum_Z_replicate_0.
Qed.

(** X1. Whatever the input, permutations or not, the engine stops:
    allowed more than [n * n] iterations, the loop breaks or an exception
    is raised, and a run that returns has made at most [n * n]
    proposals and returns a list of [n] entries. *)
Theorem engine_stops_on_any_input n hospital_prefs student_prefs fuel :
  n * n < Z.of_nat fuel →
  (∃ r, gale_shapley fuel n hospital_prefs student_prefs = Some r) ∧
  ∀ st, run fuel n hospital_prefs student_prefs = Some (Ok st) →
    0 <= proposal_count st <= n * n ∧ length (hospital_match st) = Z.to_nat n.
Proof.
  intros Hfuel. unfold gale_shapley, run.
  destruct (ranking_table n student_prefs) as [srank|e]; [|split; [by eexists|done]].
  destruct (main_loop_total n hospital_prefs srank fuel (init_state n))
    as (r & -> & Hr); [apply init_state_cursors|simpl; lia|].
  split; [destruct r; by eexists|].
  intros st [= ->]. specialize (Hr st eq_refl).
  split; [by apply (cursors_bounded_count n)|apply Hr].
Qed.

Lemma engine_stops_on_any_input_witness :
  2 * 2 < Z.of_nat 5 ∧
  (∃ r, gale_shapley 5 2 [[0;0];[0;0]] [[0;1];[7]] = Some r) ∧
  ∀ st, run 5 2 [[0;0];[0;0]] [[0;1];[7]] = Some (Ok st) →
    0 <= proposal_count st <= 2 * 2 ∧ length (hospital_match st) = Z.to_nat 2.
Proof.
  split; [lia|]. apply engine_stops_on_any_input. lia.
Defined.

(** ** More about the pairing the engine returns *)

(** X2. On a valid instance the pairing the engine returns is the worst
    stable one for the receivers: in no stable perfect matching is a
    student matched to a hospital it ranks below the one the engine
    gives it. *)
Theorem engine_output_is_receiver_pessimal n hospital_prefs student_prefs :
  valid_instance n hospital_prefs student_prefs →
  ∃ M,
    (∀ fuel, n * n < Z.of_nat fuel →
       gale_shapley fuel n hospital_prefs student_prefs = Some (Ok M)) ∧
    ∀ M' s h h',
      is_permutation n M' → stable n hospital_prefs student_prefs M' →
      0 <= s < n → 0 <= h < n → 0 <= h' < n →
      M !!! h = s → M' !!! h' = s →
      rank_in (student_prefs !!! s) h' <= rank_in (student_prefs !!! s) h.
Proof.
  intros Hv. pose proof Hv as [Hhp Hsp].
  destruct (gale_shapley_result n hospital_prefs student_prefs Hv)
    as (st & Hrun & Hinv & Hrej & Hnone).
  exists (hospital_match st). split; [done|].
  intros M' s h h' HM' Hst Hs Hh Hh' HMh HM'h'.
  destruct (decide (rank_in (student_prefs !!! s) h' <= rank_in (student_prefs !!! s) h))
    as [|Hlt]; [done|]. exfalso.
  assert (h ≠ h') as Hne by (intros ->; lia).
  pose proof (final_optimal n hospital_prefs student_prefs Hhp st Hinv Hnone
                M' h Hrej HM' Hst Hh) as Hopt.
  pose proof (is_permutation_lookup n M' h HM' Hh) as Hr.
  apply (stable_not_blocked n hospital_prefs student_prefs M' h s h'); try done; [lia|].
  assert (rank_in (hospital_prefs !!! h) s ≠ rank_in (hospital_prefs !!! h) (M' !!! h));
    [|rewrite HMh in Hopt; lia].
  intros Heq. apply (valid_prefs_rank_inj n hospital_prefs Hhp) in Heq; [|done..].
  apply Hne. apply (is_permutation_lookup_inj n M'); [done..|congruence].
Qed.

Lemma engine_output_is_receiver_pessimal_witness :
  valid_instance 2 [[0;1];[1;0]] [[1;0];[0;1]] ∧
  ∃ M,
    (∀ fuel, 2 * 2 < Z.of_nat fuel →
       gale_shapley fuel 2 [[0;1];[1;0]] [[1;0];[0;1]] = Some (Ok M)) ∧
    ∀ M' s h h',
      is_permutation 2 M' → stable 2 [[0;1];[1;0]] [[1;0];[0;1]] M' →
      0 <= s < 2 → 0 <= h < 2 → 0 <= h' < 2 →
      M !!! h = s → M' !!! h' = s →
      rank_in ([[1;0];[0;1]] !!! s) h' <= rank_in ([[1;0];[0;1]] !!! s) h.
Proof.
  assert (valid_instance 2 [[0;1];[1;0]] [[1;0];[0;1]]) as Hv
    by (apply (bool_decide_unpack _); vm_compute; exact I).
  split; [exact Hv|]. apply engine_output_is_receiver_pessimal. exact Hv.
Defined.

Lemma sum_Z_at_least (l : list Z) (b : Z) :
  (∀ i, (i < length l)%nat → b <= l !!! i) → Z.of_nat (length l) * b <= sum_Z l.
Proof.
  induction l as [|x l IH]; intros Hb; [simpl; unfold sum_Z; simpl; lia|].
  unfold sum_Z in *. simpl foldr. simpl length.
  assert (b <= x) by (apply (Hb 0%nat); simpl; lia).
  assert (Z.of_nat (length l) * b <= foldr Z.add 0 l).
  { apply IH. intros i Hi. apply (Hb (S i)). simpl. lia. }
  lia.
Qed.

(** X3. On a valid instance, when the loop breaks every hospital has
    proposed at least once, so at least [n] proposals were made; each
    hospital is matched to the last student it proposed to, and every
    student it proposed to before is matched to a hospital that the
    student ranks strictly above it. *)
Theorem engine_match_is_last_proposal n hospital_prefs student_prefs :
  0 <= n → valid_instance n hospital_prefs student_prefs →
  ∃ st,
    (∀ fuel, n * n < Z.of_nat fuel →
       run fuel n hospital_prefs student_prefs = Some (Ok st)) ∧
    n <= proposal_count st ∧
    ∀ h, 0 <= h < n →
      1 <= next_proposal st !!! h <= n ∧
      hospital_match st !!! h = (hospital_prefs !!! h) !!! (next_proposal st !!! h - 1) ∧
      ∀ k, 0 <= k < next_proposal st !!! h - 1 →
        ∃ c, 0 <= c < n ∧
          hospital_match st !!! c = (hospital_prefs !!! h) !!! k ∧
          rank_in (student_prefs !!! ((hospital_prefs !!! h) !!! k)) c
            < rank_in (student_prefs !!! ((hospital_prefs !!! h) !!! k)) h.
Proof.
  intros Hn Hv. pose proof Hv as [Hhp Hsp].
  destruct (run_result n hospital_prefs student_prefs Hv)
    as (srank & log & st & _ & _ & _ & Hrun & Hinv & _ & Hnone).
  exists st. split; [done|].
  assert (∀ h, 0 <= h < n → 1 <= next_proposal st !!! h <= n ∧
    hospital_match st !!! h = (hospital_prefs !!! h) !!! (next_proposal st !!! h - 1)) as Hlast.
  { intros h Hh. pose proof (inv_cursor _ _ _ _ Hinv h Hh).
    destruct (inv_last _ _ _ _ Hinv h Hh); [|split; [lia|done]].
    by apply (final_all_matched n hospital_prefs student_prefs Hhp st). }
  split.
  - rewrite (inv_count _ _ _ _ Hinv).
    pose proof (sum_Z_at_least (next_proposal st) 1) as Hb.
    rewrite (inv_len_np _ _ _ _ Hinv), Z2Nat.id in Hb by done.
    rewrite Z.mul_1_r in Hb. apply Hb. intros i Hi.
    destruct (Hlast (Z.of_nat i)) as [Hge _]; [lia|].
    rewrite lookup_total_Z_eq, Nat2Z.id in Hge. lia.
  - intros h Hh. destruct (Hlast h Hh) as [Hk Hm]. split; [done|]. split; [done|].
    intros k Hk'. set (s := (hospital_prefs !!! h) !!! k).
    assert (0 <= s < n) as Hs by (apply (valid_prefs_entry n hospital_prefs Hhp); lia).
    destruct (inv_proposed _ _ _ _ Hinv h k Hh) as [Hne Hle]; [lia|]. fold s in Hne, Hle.
    destruct (inv_sm _ _ _ _ Hinv s Hs) as [?|[Hc Hback]]; [done|].
    exists (student_match st !!! s). split; [done|]. split; [done|].
    assert (rank_in (student_prefs !!! s) (student_match st !!! s)
              ≠ rank_in (student_prefs !!! s) h); [|lia].
    intros Heq. apply (valid_prefs_rank_inj n student_prefs Hsp) in Heq; [|done..].
    rewrite Heq, Hm in Hback. unfold s in Hback.
    apply (valid_prefs_entry_inj n hospital_prefs Hhp) in Hback; lia.
Qed.

Lemma engine_match_is_last_proposal_witness :
  0 <= 3 ∧
  valid_instance 3 [[0;1;2];[1;0;2];[0;1;2]] [[1;0;2];[0;1;2];[0;1;2]] ∧
  ∃ st,
    (∀ fuel, 3 * 3 < Z.of_nat fuel →
       run fuel 3 [[0;1;2];[1;0;2];[0;1;2]] [[1;0;2];[0;1;2];[0;1;2]] = Some (Ok st)) ∧
    3 <= proposal_count st ∧
    ∀ h, 0 <= h < 3 →
      1 <= next_proposal st !!! h <= 3 ∧
      hospital_match st !!! h
        = ([[0;1;2];[1;0;2];[0;1;2]] !!! h) !!! (next_proposal st !!! h - 1) ∧
      ∀ k, 0 <= k < next_proposal st !!! h - 1 →
        ∃ c, 0 <= c < 3 ∧
          hospital_match st !!! c = ([[0;1;2];[1;0;2];[0;1;2]] !!! h) !!! k ∧
          rank_in ([[1;0;2];[0;1;2];[0;1;2]] !!! (([[0;1;2];[1;0;2];[0;1;2]] !!! h) !!! k)) c
            < rank_in ([[1;0;2];[0;1;2];[0;1;2]] !!! (([[0;1;2];[1;0;2];[0;1;2]] !!! h) !!! k)) h.
Proof.
  assert (valid_instance 3 [[0;1;2];[1;0;2];[0;1;2]] [[1;0;2];[0;1;2];[0;1;2]]) as Hv
    by (apply (bool_decide_unpack _); vm_compute; exact I).
  split; [lia|]. split; [exact Hv|].
  apply engine_match_is_last_proposal; [lia|exact Hv].
Defined.

(** X4. On a valid instance the reverse mapping that [check_stability]
    builds from the engine's output is the engine's own [student_match]:
    the two programs agree on who each student is matched to. *)
Theorem verifier_inverse_is_student_match n hospital_prefs student_prefs :
  valid_instance n hospital_prefs student_prefs →
  ∃ st,
    (∀ fuel, n * n < Z.of_nat fuel →
       run fuel n hospital_prefs student_prefs = Some (Ok st)) ∧
    invert_matching (Some <$> hospital_match st) (py_repeat None n) (range n)
      = Ok (Some <$> student_match st).
Proof.
  intros Hv. pose proof Hv as [Hhp Hsp].
  destruct (run_result n hospital_prefs student_prefs Hv)
    as (srank & log & st & _ & _ & _ & Hrun & Hinv & _ & Hnone).
  exists st. split; [done|].
  pose proof (final_perfect n hospital_prefs student_prefs Hhp st Hinv Hnone) as HM.
  destruct (invert_matching_spec n (hospital_match st) (range n) (py_repeat None n) HM)
    as (sm & -> & Hlen & Hsm).
  { apply length_py_repeat. } { apply NoDup_seqZ. } { intros h. by rewrite elem_of_range. }
  f_equal. apply list_eq. intros i.
  destruct (decide (i < Z.to_nat n)%nat) as [Hi|Hi].
  - assert (0 <= Z.of_nat i < n) as Hs by lia.
    destruct (is_permutation_surj n _ _ HM Hs) as (h & Hh & Hhs).
    destruct (Hsm _ Hs) as [Hv1 _].
    specialize (Hv1 h (proj2 (elem_of_range n h) Hh) Hhs).
    apply (engine_inv_consistent n hospital_prefs student_prefs st h _ Hinv Hh Hs) in Hhs.
    rewrite lookup_total_Z_eq, Nat2Z.id in Hv1. rewrite lookup_total_Z_eq, Nat2Z.id in Hhs.
    rewrite list_lookup_fmap.
    rewrite (list_lookup_lookup_total_lt sm) by lia.
    rewrite (list_lookup_lookup_total_lt (student_match st))
      by (rewrite (inv_len_sm _ _ _ _ Hinv); lia).
    simpl. by rewrite Hv1, Hhs.
  - rewrite !lookup_ge_None_2; [done|..].
    + rewrite length_fmap, (inv_len_sm _ _ _ _ Hinv). lia.
    + lia.
Qed.

Lemma verifier_inverse_is_student_match_witness :
  valid_instance 2 [[0;1];[0;1]] [[1;0];[0;1]] ∧
  ∃ st,
    (∀ fuel, 2 * 2 < Z.of_nat fuel →
       run fuel 2 [[0;1];[0;1]] [[1;0];[0;1]] = Some (Ok st)) ∧
    invert_matching (Some <$> hospital_match st) (py_repeat None 2) (range 2)
      = Ok (Some <$> student_match st).
Proof.
  assert (valid_instance 2 [[0;1];[0;1]] [[1;0];[0;1]]) as Hv
    by (apply (bool_decide_unpack _); vm_compute; exact I).
  split; [exact Hv|]. apply verifier_inverse_is_student_match. exact Hv.
Defined.

(** ** Errors and edge cases of the engine *)

Lemma norm_index_Ok {A} (xs : list A) i k :
  norm_index xs i = Ok k → - Z.of_nat (length xs) <= i < Z.of_nat (length xs).
Proof.
  unfold norm_index. repeat case_bool_decide; [lia..|done].
Qed.

Lemma norm_index_Raise {A} (xs : list A) i e :
  norm_index xs i = Raise e →
  e = IndexError ∧ ¬ (- Z.of_nat (length xs) <= i < Z.of_nat (length xs)).
Proof.
  unfold norm_index. repeat case_bool_decide; [done..|]. intros [= <-]. split; [done|lia].
Qed.

Lemma getitem_Ok {A} (xs : list A) i v :
  getitem xs i = Ok v → - Z.of_nat (length xs) <= i < Z.of_nat (length xs).
Proof. unfold getitem. intros (k & Hk & _)%bind_Ok. by eapply norm_index_Ok. Qed.

Lemma setitem_Ok {A} (xs xs' : list A) i v :
  setitem xs i v = Ok xs' → - Z.of_nat (length xs) <= i < Z.of_nat (length xs).
Proof. unfold setitem. intros (k & Hk & _)%bind_Ok. by eapply norm_index_Ok. Qed.

Lemma getitem_out_of_range {A} (xs : list A) i :
  ¬ (- Z.of_nat (length xs) <= i < Z.of_nat (length xs)) → getitem xs i = Raise IndexError.
Proof.
  intros Hi. unfold getitem, norm_index. by rewrite !bool_decide_eq_false_2 by lia.
Qed.

Lemma getitem_Raise {A} (xs : list A) i e : getitem xs i = Raise e → e = IndexError.
Proof.
  unfold getitem. destruct (norm_index xs i) as [k|e'] eqn:Hk; cbn.
  - destruct (xs !! k); [done|by intros [= <-]].
  - intros [= <-]. by apply norm_index_Raise in Hk as [-> _].
Qed.

Lemma setitem_Raise {A} (xs : list A) i v e : setitem xs i v = Raise e → e = IndexError.
Proof.
  unfold setitem. destruct (norm_index xs i) as [k|e'] eqn:Hk; cbn; [done|].
  intros [= <-]. by apply norm_index_Raise in Hk as [-> _].
Qed.

Lemma fill_ranking_Ok prefs : ∀ ranking rank ranking',
  fill_ranking ranking rank prefs = Ok ranking' →
  ∀ x, x ∈ prefs → - Z.of_nat (length ranking) <= x < Z.of_nat (length ranking).
Proof.
  induction prefs as [|y prefs IH]; intros ranking rank ranking' Hfill x Hx;
    [by apply elem_of_nil in Hx|].
  simpl in Hfill. apply bind_Ok in Hfill as (r1 & Hset & Hrest).
  apply elem_of_cons in Hx as [->|Hx]; [by eapply setitem_Ok|].
  rewrite <- (setitem_length _ _ _ _ Hset). by eapply IH.
Qed.

Lemma fill_ranking_Raise prefs : ∀ ranking rank e,
  fill_ranking ranking rank prefs = Raise e → e = IndexError.
Proof.
  induction prefs as [|y prefs IH]; intros ranking rank e; simpl; [done|].
  destruct (setitem ranking y rank) as [r1|e'] eqn:Hset; cbn; [by apply IH|].
  intros [= <-]. by eapply setitem_Raise.
Qed.

Lemma ranking_rows_Ok n prefs agents table :
  ranking_rows n prefs agents = Ok table →
  ∀ a, a ∈ agents →
    - Z.of_nat (length prefs) <= a < Z.of_nat (length prefs) ∧
    ∃ row, getitem prefs a = Ok row ∧
      ∀ x, x ∈ row → - Z.of_nat (Z.to_nat n) <= x < Z.of_nat (Z.to_nat n).
Proof.
  revert table. induction agents as [|a0 agents IH]; intros table Hrows a Ha;
    [by apply elem_of_nil in Ha|].
  simpl in Hrows. apply bind_Ok in Hrows as (row & Hrow & Hrest).
  apply bind_Ok in Hrest as (ranking & Hrank & Hrest).
  apply bind_Ok in Hrest as (rest & Hrest' & _).
  apply elem_of_cons in Ha as [->|Ha]; [|by eapply IH].
  split; [by eapply getitem_Ok|]. exists row. split; [done|].
  intros x Hx. unfold build_ranking in Hrank.
  pose proof (fill_ranking_Ok _ _ _ _ Hrank x Hx) as Hr.
  by rewrite length_py_repeat in Hr.
Qed.

Lemma ranking_rows_Raise n prefs agents e :
  ranking_rows n prefs agents = Raise e → e = IndexError.
Proof.
  induction agents as [|a0 agents IH]; simpl; [done|].
  destruct (getitem prefs a0) as [row|e'] eqn:Hrow; cbn;
    [|intros [= <-]; by eapply getitem_Raise].
  destruct (build_ranking n row) as [ranking|e'] eqn:Hrank; cbn;
    [|intros [= <-]; by eapply fill_ranking_Raise].
  destruct (ranking_rows n prefs agents) as [rest|e'] eqn:Hrest; cbn; [done|].
  intros [= <-]. by apply IH.
Qed.

(** X5. The engine builds the students' rank table before the loop, and
    does not check its input: when the student table has fewer than [n]
    rows, or one of its first [n] rows names an index outside
    [-n .. n-1], the engine raises [IndexError] without a proposal, under
    any iteration bound. *)
Theorem engine_rejects_malformed_student_prefs n hospital_prefs student_prefs fuel :
  Z.of_nat (length student_prefs) < n ∨
  (∃ a x, 0 <= a < n ∧ a < Z.of_nat (length student_prefs) ∧
          x ∈ student_prefs !!! a ∧ ¬ (- n <= x < n)) →
  gale_shapley fuel n hospital_prefs student_prefs = Some (Raise IndexError).
Proof.
  intros Hbad. unfold gale_shapley, run.
  destruct (ranking_table n student_prefs) as [table|e] eqn:Htab.
  - exfalso. unfold ranking_table in Htab.
    destruct Hbad as [Hshort|(a & x & Ha & Hlen & Hx & Hout)].
    + assert (0 <= Z.of_nat (length student_prefs) < n) as Hin by lia.
      apply elem_of_range in Hin.
      destruct (ranking_rows_Ok _ _ _ _ Htab _ Hin) as [? _]. lia.
    + destruct (ranking_rows_Ok _ _ _ _ Htab a) as [_ (row & Hrow & Hall)];
        [by apply elem_of_range|].
      rewrite getitem_in_range in Hrow by lia. injection Hrow as <-.
      specialize (Hall x Hx). lia.
  - by apply ranking_rows_Raise in Htab as ->.
Qed.

Lemma engine_rejects_malformed_student_prefs_witness :
  (Z.of_nat (length [[0;1]]) < 2 ∨
   (∃ a x, 0 <= a < 2 ∧ a < Z.of_nat (length [[0;1]]) ∧
           x ∈ [[0;1]] !!! a ∧ ¬ (- 2 <= x < 2))) ∧
  gale_shapley 0 2 [[0;1];[1;0]] [[0;1]] = Some (Raise IndexError).
Proof.
  assert (Z.of_nat (length [[0;1]]) < 2 ∨
   (∃ a x, 0 <= a < 2 ∧ a < Z.of_nat (length [[0;1]]) ∧
           x ∈ [[0;1]] !!! a ∧ ¬ (- 2 <= x < 2))) as H by (left; simpl; lia).
  split; [exact H|]. apply engine_rejects_malformed_student_prefs. exact H.
Defined.


(** ** Errors and edge cases of the verifier *)

(** X6. The third branch of [check_validity] is entered when [n] is
    negative: both loops are empty, the dictionary has no key, its size
    is not [n], and the check returns invalid with an empty list of
    students, whatever the pairing is. *)
Theorem check_validity_negative_n n (matching : list (option Z)) :
  n < 0 →
  check_validity n matching
    = Ok (false, "INVALID: Students [] are not matched to any hospital").
Proof.
  intros Hn. unfold check_validity, unmatched_students, range.
  rewrite seqZ_nil by lia. cbn.
  rewrite bool_decide_eq_true_2 by (rewrite map_size_empty; lia).
  rewrite dom_empty_L, elements_empty. cbn.
  rewrite difference_diag_L, elements_empty. done.
Qed.

Lemma check_validity_negative_n_witness :
  -1 < 0 ∧
  check_validity (-1) [Some 0]
    = Ok (false, "INVALID: Students [] are not matched to any hospital").
Proof. split; [lia|]. apply check_validity_negative_n. lia. Defined.

(** X7. An unmatched proposer is reported before anything else: on a
    pairing of [n] entries the check returns the message for the first
    proposer, in index order, whose entry is [None], whether or not
    receivers are duplicated. *)
Theorem check_validity_reports_first_unmatched n (matching : list (option Z)) h :
  Z.of_nat (length matching) = n →
  0 <= h < n → matching !!! h = None →
  (∀ h', 0 <= h' < h → matching !!! h' ≠ None) →
  check_validity n matching = Ok (false, msg_unmatched h).
Proof.
  intros Hlen Hh Hnone Hfirst.
  destruct (check_validity_spec n matching Hlen) as
    [(h0 & Hh0 & Hm & Hf & ->)|[(Hall & _)|(Hall & _)]].
  - assert (h0 = h) as ->; [|done].
    destruct (decide (h0 < h)); [by destruct (Hfirst h0); [lia|]|].
    destruct (decide (h < h0)); [by destruct (Hf h); [lia|]|]. lia.
  - by destruct (Hall h Hh).
  - by destruct (Hall h Hh).
Qed.

Lemma check_validity_reports_first_unmatched_witness :
  Z.of_nat (length [Some 1; None; Some 1; None]) = 4 ∧
  0 <= 1 < 4 ∧ [Some 1; None; Some 1; None] !!! 1 = None ∧
  (∀ h', 0 <= h' < 1 → [Some 1; None; Some 1; None] !!! h' ≠ None) ∧
  check_validity 4 [Some 1; None; Some 1; None] = Ok (false, msg_unmatched 1).
Proof.
  assert (∀ h', 0 <= h' < 1 → [Some 1; None; Some 1; None] !!! h' ≠ None) as Hfirst.
  { intros h' Hh'. assert (h' = 0) as -> by lia. vm_compute. discriminate. }
  split; [reflexivity|]. split; [lia|]. split; [reflexivity|]. split; [exact Hfirst|].
  apply check_validity_reports_first_unmatched; [reflexivity|lia|reflexivity|exact Hfirst].
Defined.

Lemma first_unmatched_short (matching : list (option Z)) (k : nat) : ∀ lo,
  0 <= lo <= Z.of_nat (length matching) →
  Z.of_nat (length matching) < lo + Z.of_nat k →
  (∀ h, lo <= h < Z.of_nat (length matching) → matching !!! h ≠ None) →
  first_unmatched matching (seqZ lo (Z.of_nat k)) = Raise IndexError.
Proof.
  induction k as [|k IH]; intros lo Hlo Hhi Hall; [lia|].
  rewrite seqZ_succ. simpl.
  destruct (decide (lo = Z.of_nat (length matching))) as [->|Hne].
  - rewrite getitem_out_of_range by lia. done.
  - rewrite (getitem_in_range matching) by lia. cbn.
    rewrite bool_decide_eq_false_2 by (apply Hall; lia).
    apply IH; [lia..|]. intros h Hh. apply Hall. lia.
Qed.

(** X8. The check does not guard the length of the pairing: given fewer
    than [n] entries, none of them [None], it runs off the end of the
    list in its first loop and raises [IndexError]. *)
Theorem check_validity_short_pairing n (matching : list (option Z)) :
  Z.of_nat (length matching) < n →
  (∀ h, 0 <= h < Z.of_nat (length matching) → matching !!! h ≠ None) →
  check_validity n matching = Raise IndexError.
Proof.
  intros Hshort Hall. unfold check_validity, range.
  rewrite <- seqZ_of_to_nat.
  rewrite (first_unmatched_short matching (Z.to_nat n) 0); [done|lia|lia|done].
Qed.

Lemma check_validity_short_pairing_witness :
  Z.of_nat (length [Some 0; Some 1]) < 3 ∧
  (∀ h, 0 <= h < Z.of_nat (length [Some 0; Some 1]) → [Some 0; Some 1] !!! h ≠ None) ∧
  check_validity 3 [Some 0; Some 1] = Raise IndexError.
Proof.
  assert (∀ h, 0 <= h < Z.of_nat (length [Some 0; Some 1]) →
            [Some 0; Some 1] !!! h ≠ None) as Hall.
  { intros h Hh. simpl in Hh. assert (h = 0 ∨ h = 1) as [-> | ->] by lia;
      vm_compute; discriminate. }
  split; [simpl; lia|]. split; [exact Hall|].
  apply check_validity_short_pairing; [simpl; lia|exact Hall].
Defined.

Lemma invert_matching_unmatched n (matching : list (option Z)) (k : nat) : ∀ lo sm,
  Z.of_nat (length matching) = n → length sm = Z.to_nat n →
  0 <= lo → lo + Z.of_nat k <= n →
  (∀ h s, 0 <= h < n → matching !!! h = Some s → 0 <= s < n) →
  (∃ h, lo <= h < lo + Z.of_nat k ∧ matching !!! h = None) →
  invert_matching matching sm (seqZ lo (Z.of_nat k)) = Raise TypeError.
Proof.
  induction k as [|k IH]; intros lo sm Hlen Hsm Hlo Hhi Hrange (h & Hh & Hnone); [lia|].
  rewrite seqZ_succ. simpl. rewrite (getitem_in_range matching) by lia. cbn.
  destruct (matching !!! lo) as [s|] eqn:Hs; [|done]. cbn.
  pose proof (Hrange lo s ltac:(lia) Hs) as Hsr.
  rewrite (setitem_in_range sm) by lia. cbn.
  apply IH; [done|by rewrite length_insert|lia|lia|done|].
  exists h. split; [|done]. destruct (decide (h = lo)) as [->|]; [congruence|lia].
Qed.

(** X9. The stability check relies on the validity check having
    passed: on a pairing of [n] entries, each [None] or a receiver
    index, in which some proposer is unmatched, it raises [TypeError]
    while it builds the reverse mapping, before it reads a preference
    list. *)
Theorem check_stability_needs_validity n hospital_prefs student_prefs
    (matching : list (option Z)) :
  Z.of_nat (length matching) = n →
  (∀ h s, 0 <= h < n → matching !!! h = Some s → 0 <= s < n) →
  (∃ h, 0 <= h < n ∧ matching !!! h = None) →
  check_stability n hospital_prefs student_prefs matching = Raise TypeError.
Proof.
  intros Hlen Hrange (h & Hh & Hnone). unfold check_stability, range.
  rewrite <- seqZ_of_to_nat.
  rewrite (invert_matching_unmatched n matching (Z.to_nat n) 0);
    [done|done|apply length_py_repeat|lia|lia|done|].
  exists h. split; [lia|done].
Qed.

Lemma check_stability_needs_validity_witness :
  Z.of_nat (length [Some 1; None]) = 2 ∧
  (∀ h s, 0 <= h < 2 → [Some 1; None] !!! h = Some s → 0 <= s < 2) ∧
  (∃ h, 0 <= h < 2 ∧ [Some 1; None] !!! h = None) ∧
  check_stability 2 [[0;1];[0;1]] [[0;1];[0;1]] [Some 1; None] = Raise TypeError.
Proof.
  assert (∀ h s, 0 <= h < 2 → [Some 1; None] !!! h = Some s → 0 <= s < 2) as Hr.
  { intros h s Hh Hs. assert (h = 0 ∨ h = 1) as [-> | ->] by lia;
      vm_compute in Hs; [injection Hs as <-; lia|discriminate]. }
  assert (∃ h, 0 <= h < 2 ∧ [Some 1; None] !!! h = None) as Hn
    by (exists 1; split; [lia|reflexivity]).
  split; [reflexivity|]. split; [exact Hr|]. split; [exact Hn|].
  apply check_stability_needs_validity; [reflexivity|exact Hr|exact Hn].
Defined.

(** ** The readers *)

Lemma main_loop_keeps_cursors n hospital_prefs student_ranking fuel : ∀ st st',
  cursors_bounded n st →
  main_loop fuel n hospital_prefs student_ranking st = Some (Ok st') →
  cursors_bounded n st'.
Proof.
  induction fuel as [|fuel IH]; intros st st' Hb; [done|]. simpl. unfold iteration.
  destruct (find_free n st (range n)) as [h|e] eqn:Hf; cbn; [|done].
  case_bool_decide as Hh; [by intros [= <-]|].
  destruct (find_free_sound n st _ h Hf) as [?|(Hin & _ & k & Hk & Hlt)]; [done|].
  apply elem_of_range in Hin. pose proof Hb as (_ & Hlp & _).
  rewrite getitem_in_range in Hk by lia. injection Hk as <-.
  destruct (propose hospital_prefs student_ranking st h) as [st1|e] eqn:Hp; cbn; [|done].
  destruct (propose_cursors n _ _ st h st1 Hb Hin Hlt Hp) as [Hb' _].
  by apply IH.
Qed.

Lemma gale_shapley_length fuel n hospital_prefs student_prefs M :
  gale_shapley fuel n hospital_prefs student_prefs = Some (Ok M) →
  length M = Z.to_nat n.
Proof.
  unfold gale_shapley, run.
  destruct (ranking_table n student_prefs) as [srank|e]; [|done].
  destruct (main_loop fuel n hospital_prefs srank (init_state n)) as [[st|e]|] eqn:Hloop;
    [|done..].
  intros [= <-].
  by apply (main_loop_keeps_cursors _ _ _ _ _ _ (init_state_cursors n)) in Hloop as [? _].
Qed.

Lemma print_pairs_spec (M : list Z) (k : nat) : ∀ lo,
  0 <= lo → lo + Z.of_nat k <= Z.of_nat (length M) →
  print_pairs M (seqZ lo (Z.of_nat k))
    = Ok ((fun h => pair_line h (M !!! h)) <$> seqZ lo (Z.of_nat k)).
Proof.
  induction k as [|k IH]; intros lo Hlo Hhi; [done|].
  rewrite seqZ_succ. simpl. rewrite (getitem_in_range M) by lia. cbn.
  rewrite IH by lia. done.
Qed.

Lemma print_pairs_range n (M : list Z) :
  length M = Z.to_nat n →
  print_pairs M (range n) = Ok ((fun h => pair_line h (M !!! h)) <$> range n).
Proof.
  intros Hlen. unfold range. rewrite <- seqZ_of_to_nat.
  apply print_pairs_spec; lia.
Qed.

Lemma verify_returns n hospital_prefs student_prefs (matching : list (option Z)) :
  valid_instance n hospital_prefs student_prefs →
  Z.of_nat (length matching) = n →
  (∀ h s, 0 <= h < n → matching !!! h = Some s → 0 <= s < n) →
  ∃ v, verify n hospital_prefs student_prefs matching = Ok v ∧
       printed_as v (print_verdict v).
Proof.
  intros Hv Hlen Hrange. unfold verify.
  destruct (check_validity_spec n matching Hlen) as
    [(h & Hh & Hm & _ & Hc)|[(_ & h & s & h0 & Hh0 & Hh & Hm & Hm0 & _ & Hc)|
                             (Hall & Hinj & _ & Hc)]]; rewrite Hc.
  - by eexists.
  - by eexists.
  - destruct (total_matching_is_permutation n matching Hlen) as (M & -> & HM); [|done|].
    { intros h Hh. destruct (matching !!! h) as [s|] eqn:Hs; [|by destruct (Hall h Hh)].
      exists s. split; [done|]. by apply (Hrange h). }
    destruct (check_stability_spec n hospital_prefs student_prefs M Hv HM)
      as [[Hs Hst]|(p & r & Hs & Hf)]; rewrite Hs; by eexists.
Qed.

Lemma pair_line_nonempty a b : pair_line a b ≠ "".
Proof. unfold pair_line. destruct (pretty (a + 1)); discriminate. Qed.

Lemma gale_shapley_nonpositive n hospital_prefs student_prefs fuel :
  n <= 0 →
  gale_shapley (S fuel) n hospital_prefs student_prefs = Some (Ok []).
Proof.
  intros Hn. unfold gale_shapley, run, ranking_table, init_state, py_repeat, range.
  rewrite seqZ_nil by done. replace (Z.to_nat n) with 0%nat by lia. simpl.
  unfold iteration, range. rewrite seqZ_nil by done. done.
Qed.

Lemma bind_Return {A B} (m : outcome A) (f : A → outcome B) b :
  m ≫= f = Return b → ∃ a, m = Return a ∧ f a = Return b.
Proof. destruct m as [a| |]; [|done..]. intros Hf. by exists a. Qed.

Lemma lift_Return {A} (r : result A) a : lift r = Return a → r = Ok a.
Proof. destruct r; [by intros [= ->]|done]. Qed.

Section readers_properties.
Context (py_strip : string → string).
Context (py_split : string → list string).
Context (py_int : string → outcome Z).

Lemma read_pair_shape n matching line matching' :
  read_pair py_split py_int n matching line = Return matching' →
  length matching' = length matching ∧
  ∃ hospital student,
    0 <= hospital < n ∧ 0 <= student < n ∧
    hospital < Z.of_nat (length matching) ∧
    line_names py_split py_int line hospital student ∧
    matching' = <[Z.to_nat hospital := Some student]> matching.
Proof.
  unfold read_pair. case_bool_decide as Hparts; [done|].
  destruct (py_split line) as [|p0 [|p1 [|]]] eqn:Hsplit; simpl in Hparts; try lia.
  intros (p0' & [= <-]%lift_Return & Hrest)%bind_Return.
  apply bind_Return in Hrest as (h & Hh & Hrest).
  apply bind_Return in Hrest as (p1' & [= <-]%lift_Return & Hrest).
  apply bind_Return in Hrest as (s & Hs & Hrest).
  cbn zeta in Hrest. repeat case_bool_decide; try done.
  apply lift_Return in Hrest. pose proof (setitem_Ok _ _ _ _ Hrest) as Hr.
  rewrite setitem_in_range in Hrest by lia. injection Hrest as <-.
  split; [by rewrite length_insert|]. exists (h - 1), (s - 1).
  split_and!; try done; try lia.
  exists p0, p1. split; [done|]. by rewrite !Z.sub_add.
Qed.

Lemma read_pairs_shape n lines : ∀ matching matching',
  read_pairs py_split py_int n matching lines = Return matching' →
  (∀ h s, 0 <= h → matching !!! h = Some s → 0 <= s < n) →
  length matching' = length matching ∧
  ∀ h s, 0 <= h → matching' !!! h = Some s → 0 <= s < n.
Proof.
  induction lines as [|line lines IH]; intros matching matching'; simpl.
  - by intros [= <-].
  - intros (m1 & Hpair & Hrest)%bind_Return Hrange.
    destruct (read_pair_shape _ _ _ _ Hpair) as (Hlen & hosp & stud & Hh & Hs & Hlt & _ & ->).
    destruct (IH _ _ Hrest) as [Hlen' Hrange'].
    + intros h s Hh0. rewrite lookup_total_Z_insert by lia.
      case_decide; [intros [= <-]; done|by apply Hrange].
    + split; [congruence|done].
Qed.

Lemma read_pairs_from_none n lines matching :
  read_pairs py_split py_int n (py_repeat None n) lines = Return matching →
  length matching = Z.to_nat n ∧
  ∀ h s, 0 <= h → matching !!! h = Some s → 0 <= s < n.
Proof.
  intros Hread. destruct (read_pairs_shape _ _ _ _ Hread) as [Hlen Hrange].
  - intros h s Hh. destruct (decide (h < n)) as [Hlt|Hge].
    + by rewrite lookup_total_Z_replicate by lia.
    + rewrite lookup_total_Z_eq. unfold py_repeat.
      rewrite list_lookup_total_alt, lookup_ge_None_2; [done|].
      rewrite length_replicate. lia.
  - by rewrite length_py_repeat in Hlen.
Qed.

(** X10. What [read_matching] returns has the shape the verifier's
    checks expect: the file had exactly [n] non-blank lines, the pairing
    has [n] entries, and every entry is [None] or a receiver index in
    [0..n-1]. *)
Theorem read_matching_shape file_lines n matching :
  read_matching py_strip py_split py_int file_lines n = Return matching →
  Z.of_nat (length ((nonblank_lines py_strip) file_lines)) = n ∧
  Z.of_nat (length matching) = n ∧
  ∀ h s, 0 <= h < n → matching !!! h = Some s → 0 <= s < n.
Proof.
  unfold read_matching. case_bool_decide as Hn; [done|]. intros Hread.
  destruct (read_pairs_from_none _ _ _ Hread) as [Hlen Hrange].
  split; [done|]. split; [lia|]. intros h s Hh. apply Hrange. lia.
Qed.


Lemma read_pairs_entries n lines : ∀ matching matching',
  read_pairs py_split py_int n matching lines = Return matching' →
  (∀ h s, 0 <= h → matching' !!! h = Some s →
     matching !!! h = Some s ∨
     ∃ line, line ∈ lines ∧ line_names py_split py_int line h s) ∧
  (∀ line, line ∈ lines →
     ∃ h s, 0 <= h < n ∧ line_names py_split py_int line h s ∧ matching' !!! h ≠ None) ∧
  (∀ h, 0 <= h → matching !!! h ≠ None → matching' !!! h ≠ None).
Proof.
  induction lines as [|line lines IH]; intros matching matching'; simpl.
  - intros [= <-]. split_and!; [by left| |done]. by intros line ?%elem_of_nil.
  - intros (m1 & Hpair & Hrest)%bind_Return.
    destruct (read_pair_shape _ _ _ _ Hpair)
      as (Hlen & hosp & stud & Hh & Hs & Hlt & Hnames & ->).
    destruct (IH _ _ Hrest) as (Hfrom & Hall & Hkeep).
    split_and!.
    + intros h s Hh0 Hm. destruct (Hfrom h s Hh0 Hm) as [Hm1|(l & Hl & Hn)].
      * rewrite lookup_total_Z_insert in Hm1 by lia. case_decide as Heq; [|by left].
        injection Hm1 as <-. subst h. right. exists line. split; [left|done].
      * right. exists l. split; [by right|done].
    + intros l [->|Hl]%elem_of_cons; [|by apply Hall].
      exists hosp, stud. split; [done|]. split; [done|]. apply Hkeep; [lia|].
      by rewrite lookup_total_Z_insert_eq by lia.
    + intros h Hh0 Hne. apply Hkeep; [done|]. rewrite lookup_total_Z_insert by lia.
      by case_decide.
Qed.

(** X11. [read_matching] invents no pair and drops no hospital: every
    entry it returns is named by a non-blank line of the file, and the
    hospital named by any non-blank line has an entry. When two lines name
    the same hospital the later one is kept and no error is raised. *)
Theorem read_matching_entries file_lines n matching :
  read_matching py_strip py_split py_int file_lines n = Return matching →
  (∀ h s, 0 <= h < n → matching !!! h = Some s →
     ∃ line, line ∈ (nonblank_lines py_strip) file_lines ∧ line_names py_split py_int line h s) ∧
  (∀ line, line ∈ (nonblank_lines py_strip) file_lines →
     ∃ h s, 0 <= h < n ∧ line_names py_split py_int line h s ∧ matching !!! h ≠ None).
Proof.
  unfold read_matching. case_bool_decide as Hn; [done|]. intros Hread.
  destruct (read_pairs_entries _ _ _ _ Hread) as (Hfrom & Hall & _).
  split; [|done]. intros h s Hh Hm.
  destruct (Hfrom h s) as [Hinit|?]; [lia|done| |done].
  by rewrite lookup_total_Z_replicate in Hinit by lia.
Qed.

Lemma read_rows_shape who shift n lines indices : ∀ rows,
  read_rows py_split py_int who shift n lines indices = Return rows →
  length rows = length indices ∧ Forall (fun row => Z.of_nat (length row) = n) rows.
Proof.
  induction indices as [|i indices IH]; intros rows; simpl.
  - intros [= <-]. by split.
  - intros (line & _ & Hrest)%bind_Return. apply bind_Return in Hrest as (prefs & _ & Hrest).
    case_bool_decide as Hlen; [done|].
    apply bind_Return in Hrest as (rest & Hrest & [= <-]).
    destruct (IH _ Hrest) as [Hl Hall]. split; [simpl; congruence|].
    constructor; [|done]. by destruct (decide (Z.of_nat (length prefs) = n)).
Qed.

(** X12. What [read_input] returns has [n] rows on each side, each of
    [n] entries, read from a file of at least [1 + 2n] non-blank lines.
    Nothing more is checked: the rows need not be permutations. *)
Theorem read_input_shape file_lines n hospital_prefs student_prefs :
  read_input py_strip py_split py_int file_lines = Return (n, hospital_prefs, student_prefs) →
  1 + 2 * n <= Z.of_nat (length ((nonblank_lines py_strip) file_lines)) ∧
  length hospital_prefs = Z.to_nat n ∧
  length student_prefs = Z.to_nat n ∧
  Forall (fun row => Z.of_nat (length row) = n) hospital_prefs ∧
  Forall (fun row => Z.of_nat (length row) = n) student_prefs.
Proof.
  unfold read_input. cbn zeta.
  intros (first & _ & Hrest)%bind_Return. apply bind_Return in Hrest as (n' & _ & Hrest).
  case_bool_decide as Hlen; [done|].
  apply bind_Return in Hrest as (hp & Hhp & Hrest).
  apply bind_Return in Hrest as (sp & Hsp & [= -> -> ->]).
  destruct (read_rows_shape _ _ _ _ _ _ Hhp) as [Hlh Hfh].
  destruct (read_rows_shape _ _ _ _ _ _ Hsp) as [Hls Hfs].
  rewrite length_seqZ in Hlh, Hls. split_and!; try done. lia.
Qed.

Lemma nonblank_lines_app l1 l2 :
  (nonblank_lines py_strip) (l1 ++ l2) = (nonblank_lines py_strip) l1 ++ (nonblank_lines py_strip) l2.
Proof. unfold nonblank_lines. by rewrite filter_app, fmap_app. Qed.

Lemma nonblank_lines_blank blank l :
  py_strip blank = "" → (nonblank_lines py_strip) (blank :: l) = (nonblank_lines py_strip) l.
Proof.
  intros Hblank. unfold nonblank_lines.
  by rewrite filter_cons_False by (by intros ?).
Qed.

Lemma getitem_app_l {A} (xs ys : list A) i v :
  getitem xs i = Ok v → 0 <= i → getitem (xs ++ ys) i = Ok v.
Proof.
  intros Hget Hi. pose proof (getitem_Ok _ _ _ Hget) as Hr.
  unfold getitem, norm_index in *. rewrite length_app.
  rewrite bool_decide_eq_true_2 in Hget by lia. rewrite bool_decide_eq_true_2 by lia.
  cbn in *. by rewrite lookup_app_l by lia.
Qed.

Lemma read_rows_app who shift n lines extra indices : ∀ rows,
  read_rows py_split py_int who shift n lines indices = Return rows →
  (∀ i, i ∈ indices → 0 <= i) →
  read_rows py_split py_int who shift n (lines ++ extra) indices = Return rows.
Proof.
  induction indices as [|i indices IH]; intros rows; simpl; [done|].
  intros (line & Hline%lift_Return & Hrest)%bind_Return Hpos.
  apply bind_Return in Hrest as (prefs & Hprefs & Hrest).
  rewrite (getitem_app_l _ _ _ _ Hline) by (apply Hpos; left). cbn.
  rewrite Hprefs. cbn. case_bool_decide; [done|].
  apply bind_Return in Hrest as (rest & Hrest & [= <-]).
  rewrite (IH _ Hrest); [done|]. intros j Hj. apply Hpos. by right.
Qed.

(** X13. [read_input] skips blank lines wherever they stand, and reads
    no line after the first [1 + 2n] non-blank ones: a blank line put
    anywhere into the file, or any lines added at its end, leave the
    result of a successful read as it was. *)
Theorem read_input_ignores_blank_and_trailing file_lines r :
  read_input py_strip py_split py_int file_lines = Return r →
  (∀ before after blank, file_lines = before ++ after → py_strip blank = "" →
     read_input py_strip py_split py_int (before ++ blank :: after) = Return r) ∧
  (∀ extra, read_input py_strip py_split py_int (file_lines ++ extra) = Return r).
Proof.
  intros Hread. split.
  - intros before after blank -> Hblank. rewrite <- Hread. unfold read_input.
    by rewrite !nonblank_lines_app, nonblank_lines_blank.
  - intros extra. revert Hread. unfold read_input. cbn zeta.
    rewrite nonblank_lines_app. set (lines := (nonblank_lines py_strip) file_lines).
    set (more := (nonblank_lines py_strip) extra).
    intros (first & Hfirst%lift_Return & Hrest)%bind_Return.
    apply bind_Return in Hrest as (n & Hn & Hrest).
    case_bool_decide as Hlen; [done|].
    apply bind_Return in Hrest as (hp & Hhp & Hrest).
    apply bind_Return in Hrest as (sp & Hsp & [= <-]).
    rewrite (getitem_app_l _ _ _ _ Hfirst) by lia. cbn. rewrite Hn. cbn.
    rewrite bool_decide_eq_false_2 by (rewrite length_app; lia).
    rewrite (read_rows_app _ _ _ _ _ _ _ Hhp)
      by (intros i [? ?]%elem_of_seqZ; lia). cbn.
    rewrite (read_rows_app _ _ _ _ _ _ _ Hsp); [done|].
    intros i [? ?]%elem_of_seqZ. lia.
Qed.

(** X14. A file with no non-blank line makes [read_input] fail on its
    first lookup with [IndexError], not with the [ValueError] its other
    checks raise. *)
Theorem read_input_blank_file file_lines :
  (∀ line, line ∈ file_lines → py_strip line = "") →
  read_input py_strip py_split py_int file_lines = Uncaught IndexError.
Proof.
  intros Hblank. unfold read_input. cbn zeta.
  assert ((nonblank_lines py_strip) file_lines = []) as ->; [|done].
  unfold nonblank_lines.
  induction file_lines as [|line lines IH]; [done|].
  rewrite filter_cons_False by (intros Hne; apply Hne, Hblank; left).
  apply IH. intros l Hl. apply Hblank. by right.
Qed.

(** X15. A first line that reads as a number [n <= 0] is accepted: the
    rest of the file is not read, the engine has nothing to match, and
    [main] of the matcher prints nothing and fails nowhere. For [n < 0]
    the verifier then accepts no matching file: a file cannot have [n]
    lines, and [read_matching] raises [ValueError]. *)
Theorem matcher_main_nonpositive_n file_lines first rest n fuel :
  nonblank_lines py_strip file_lines = first :: rest →
  py_int first = Return n → n <= 0 →
  read_input py_strip py_split py_int file_lines = Return (n, [], []) ∧
  matcher_main py_strip py_split py_int (S fuel) file_lines = Some (Return []) ∧
  (n < 0 → ∀ matching_lines,
     verifier_main py_strip py_split py_int file_lines matching_lines
       = ValueError (msg_expected_pairs n
           (Z.of_nat (length (nonblank_lines py_strip matching_lines))))).
Proof.
  intros Hlines Hint Hn.
  assert (read_input py_strip py_split py_int file_lines = Return (n, [], [])) as Hread.
  { unfold read_input. cbn zeta. rewrite Hlines.
    rewrite getitem_in_range by (simpl; lia). cbn.
    change ((first :: rest) !!! Z.to_nat 0) with first. rewrite Hint. cbn.
    rewrite bool_decide_eq_false_2 by lia. by rewrite !seqZ_nil by lia. }
  split; [done|]. split.
  - unfold matcher_main. rewrite Hread.
    rewrite gale_shapley_nonpositive by done. unfold range. by rewrite seqZ_nil by lia.
  - intros Hneg matching_lines. unfold verifier_main. rewrite Hread. cbn.
    unfold read_matching. by rewrite bool_decide_eq_true_2 by lia.
Qed.

(** X16. Whenever the input file is read and the engine returns, on
    preference rows of any content, [main] of the matcher prints one line
    for each hospital, in index order, with the one-based indices of the
    hospital and of its entry in the pairing; no lookup of the printing
    loop goes out of range. *)
Theorem matcher_main_prints_every_hospital file_lines n hospital_prefs student_prefs
    fuel M :
  read_input py_strip py_split py_int file_lines
    = Return (n, hospital_prefs, student_prefs) →
  gale_shapley fuel n hospital_prefs student_prefs = Some (Ok M) →
  matcher_main py_strip py_split py_int fuel file_lines
    = Some (Return ((fun h => pair_line h (M !!! h)) <$> range n)) ∧
  length ((fun h => pair_line h (M !!! h)) <$> range n) = Z.to_nat n.
Proof.
  intros Hread Hgs. unfold matcher_main. rewrite Hread, Hgs.
  rewrite print_pairs_range by (by eapply gale_shapley_length).
  split; [done|]. by rewrite length_fmap, length_range.
Qed.

(** X17. When the preference file reads as a valid instance and the
    matching file is read without error, [main] of the verifier raises
    nothing: it prints the line of one verdict, ["VALID STABLE"] or a
    line that starts with ["INVALID: "] or with ["UNSTABLE: "]. *)
Theorem verifier_main_prints_verdict input_lines matching_lines n hospital_prefs
    student_prefs matching :
  read_input py_strip py_split py_int input_lines
    = Return (n, hospital_prefs, student_prefs) →
  valid_instance n hospital_prefs student_prefs →
  read_matching py_strip py_split py_int matching_lines n = Return matching →
  ∃ v, verify n hospital_prefs student_prefs matching = Ok v ∧
       verifier_main py_strip py_split py_int input_lines matching_lines
         = Return (print_verdict v) ∧
       printed_as v (print_verdict v).
Proof.
  intros Hread Hv Hmatch.
  assert (Z.of_nat (length matching) = n ∧
          ∀ h s, 0 <= h < n → matching !!! h = Some s → 0 <= s < n) as [Hlen Hrange].
  { revert Hmatch. unfold read_matching. case_bool_decide as Hn; [done|]. intros Hpairs.
    destruct (read_pairs_from_none _ _ _ Hpairs) as [Hl Hr].
    split; [lia|]. intros h s Hh. apply Hr. lia. }
  destruct (verify_returns n hospital_prefs student_prefs matching Hv Hlen Hrange)
    as (v & Hver & Hprint).
  exists v. split; [done|]. split; [|done].
  unfold verifier_main. rewrite Hread. cbn. rewrite Hmatch. cbn. by rewrite Hver.
Qed.

Lemma nonblank_lines_printed n (M : list Z) (indices : list Z) :
  (∀ a b, 0 <= a < n → 0 <= b < n → py_strip (pair_line a b) = pair_line a b) →
  (∀ h, h ∈ indices → 0 <= h < n ∧ 0 <= M !!! h < n) →
  nonblank_lines py_strip ((fun h => pair_line h (M !!! h)) <$> indices)
    = (fun h => pair_line h (M !!! h)) <$> indices.
Proof.
  intros Hstrip Hin. unfold nonblank_lines.
  induction indices as [|h indices IH]; [done|].
  destruct (Hin h) as [Hh HM]; [left|]. csimpl.
  rewrite filter_cons_True by (rewrite Hstrip by done; apply pair_line_nonempty).
  csimpl. rewrite Hstrip by done. f_equal. apply IH. intros j Hj. apply Hin. by right.
Qed.

Lemma read_pairs_printed n (M : list Z) (k : nat) : ∀ lo matching,
  (∀ a b, 0 <= a < n → 0 <= b < n →
     py_split (pair_line a b) = [pretty (a + 1); pretty (b + 1)]) →
  (∀ a, 0 <= a < n → py_int (pretty (a + 1)) = Return (a + 1)) →
  (∀ h, 0 <= h < n → 0 <= M !!! h < n) →
  length matching = Z.to_nat n →
  0 <= lo → lo + Z.of_nat k <= n →
  ∃ matching',
    read_pairs py_split py_int n matching
      ((fun h => pair_line h (M !!! h)) <$> seqZ lo (Z.of_nat k)) = Return matching' ∧
    length matching' = Z.to_nat n ∧
    ∀ j, 0 <= j < n →
      matching' !!! j
        = if decide (lo <= j < lo + Z.of_nat k) then Some (M !!! j) else matching !!! j.
Proof.
  induction k as [|k IH]; intros lo matching Hsplit Hint HM Hlen Hlo Hhi.
  - exists matching. split; [done|]. split; [done|]. intros j Hj.
    by rewrite decide_False by lia.
  - rewrite seqZ_succ. csimpl.
    destruct (HM lo) as [HM0 HM1]; [lia|].
    assert (read_pair py_split py_int n matching (pair_line lo (M !!! lo))
              = Return (<[Z.to_nat lo := Some (M !!! lo)]> matching)) as ->.
    { unfold read_pair. rewrite Hsplit by lia. cbn zeta.
      rewrite bool_decide_eq_false_2 by (by intros ?).
      change (getitem [pretty (lo + 1); pretty (M !!! lo + 1)] 0) with (Ok (pretty (lo + 1))).
      change (getitem [pretty (lo + 1); pretty (M !!! lo + 1)] 1)
        with (Ok (pretty (M !!! lo + 1))).
      cbn. rewrite !Hint by lia. cbn.
      rewrite !Z.add_simpl_r.
      rewrite !bool_decide_eq_false_2 by lia.
      by rewrite setitem_in_range by lia. }
    cbn.
    destruct (IH (lo + 1) (<[Z.to_nat lo := Some (M !!! lo)]> matching))
      as (m' & -> & Hlen' & Hval); [done..|by rewrite length_insert|lia|lia|].
    exists m'. split; [done|]. split; [done|]. intros j Hj. rewrite Hval by done.
    case_decide as H1.
    + by rewrite decide_True by lia.
    + rewrite lookup_total_Z_insert by lia. case_decide as H2.
      * subst j. by rewrite decide_True by lia.
      * by rewrite decide_False by lia.
Qed.

Lemma read_printed_matching n (M : list Z) :
  (∀ a b, 0 <= a < n → 0 <= b < n → py_strip (pair_line a b) = pair_line a b) →
  (∀ a b, 0 <= a < n → 0 <= b < n →
     py_split (pair_line a b) = [pretty (a + 1); pretty (b + 1)]) →
  (∀ a, 0 <= a < n → py_int (pretty (a + 1)) = Return (a + 1)) →
  Z.of_nat (length M) = n →
  (∀ h, 0 <= h < n → 0 <= M !!! h < n) →
  read_matching py_strip py_split py_int ((fun h => pair_line h (M !!! h)) <$> range n) n
    = Return (Some <$> M).
Proof.
  intros Hstrip Hsplit Hint Hlen HM. unfold read_matching.
  rewrite (nonblank_lines_printed n) by
    (done || (intros h Hh%elem_of_range; split; [done|by apply HM])).
  rewrite bool_decide_eq_false_2 by (rewrite length_fmap, length_range; lia).
  unfold range. rewrite <- seqZ_of_to_nat.
  destruct (read_pairs_printed n M (Z.to_nat n) 0 (py_repeat None n))
    as (m' & -> & Hlen' & Hval); [done..|apply length_py_repeat|lia|lia|].
  f_equal. apply list_eq. intros i. rewrite list_lookup_fmap.
  destruct (decide (i < Z.to_nat n)%nat) as [Hi|Hi].
  - rewrite (list_lookup_lookup_total_lt m') by lia.
    rewrite (list_lookup_lookup_total_lt M) by lia. simpl.
    specialize (Hval (Z.of_nat i)). rewrite !lookup_total_Z_eq, Nat2Z.id in Hval.
    rewrite Hval by lia. by rewrite decide_True by lia.
  - by rewrite !lookup_ge_None_2 by lia.
Qed.

(** X18. Printing and reading back is the identity: if the built-ins
    leave a printed line as it is, split it at its blank and read its
    two numbers, then [read_matching] on the lines that the matcher
    prints for a pairing [M] of [n] receiver indices returns [M]. *)
Theorem print_then_read_matching n (M : list Z) :
  (∀ a b, 0 <= a < n → 0 <= b < n → py_strip (pair_line a b) = pair_line a b) →
  (∀ a b, 0 <= a < n → 0 <= b < n →
     py_split (pair_line a b) = [pretty (a + 1); pretty (b + 1)]) →
  (∀ a, 0 <= a < n → py_int (pretty (a + 1)) = Return (a + 1)) →
  Z.of_nat (length M) = n →
  (∀ h, 0 <= h < n → 0 <= M !!! h < n) →
  ∃ printed,
    print_pairs M (range n) = Ok printed ∧
    read_matching py_strip py_split py_int printed n = Return (Some <$> M).
Proof.
  intros Hstrip Hsplit Hint Hlen HM. eexists. split.
  - apply print_pairs_range. lia.
  - by apply read_printed_matching.
Qed.

(** X19. The two programs fit together: on a file that reads as a valid
    instance with [n >= 0], with built-ins that read printed lines back
    as above, what [main] of the matcher prints is accepted by [main] of
    the verifier, which prints ["VALID STABLE"]. *)
Theorem matcher_output_passes_verifier file_lines n hospital_prefs student_prefs fuel :
  (∀ a b, 0 <= a < n → 0 <= b < n → py_strip (pair_line a b) = pair_line a b) →
  (∀ a b, 0 <= a < n → 0 <= b < n →
     py_split (pair_line a b) = [pretty (a + 1); pretty (b + 1)]) →
  (∀ a, 0 <= a < n → py_int (pretty (a + 1)) = Return (a + 1)) →
  read_input py_strip py_split py_int file_lines
    = Return (n, hospital_prefs, student_prefs) →
  valid_instance n hospital_prefs student_prefs →
  0 <= n → n * n < Z.of_nat fuel →
  ∃ printed,
    matcher_main py_strip py_split py_int fuel file_lines = Some (Return printed) ∧
    verifier_main py_strip py_split py_int file_lines printed = Return "VALID STABLE".
Proof.
  intros Hstrip Hsplit Hint Hread Hv Hn Hfuel. pose proof Hv as [Hhp Hsp].
  destruct (gale_shapley_result n hospital_prefs student_prefs Hv)
    as (st & Hrun & Hinv & _ & Hnone).
  pose proof (final_perfect n hospital_prefs student_prefs Hhp st Hinv Hnone) as HM.
  pose proof (final_stable n hospital_prefs student_prefs Hhp st Hinv Hnone) as Hst.
  pose proof (is_permutation_length n _ HM) as Hlen.
  eexists. split.
  - unfold matcher_main. rewrite Hread, (Hrun fuel Hfuel).
    by rewrite print_pairs_range by done.
  - unfold verifier_main. rewrite Hread. cbn.
    rewrite (read_printed_matching n) by
      (done || lia || (intros; by apply (is_permutation_lookup n))). cbn.
    destruct (verify_perfect n hospital_prefs student_prefs _ Hv HM Hn)
      as [(-> & _)|(p & r & _ & _ & [Hb _])]; [done|by destruct (Hst p r)].
Qed.
End readers_properties.

Lemma read_matching_shape_witness :
  read_matching ascii_strip ascii_split ascii_int ["1 2"; ""; " 1 1 "] 2
    = Return [Some 0; None] ∧
  Z.of_nat (length (nonblank_lines ascii_strip ["1 2"; ""; " 1 1 "])) = 2 ∧
  Z.of_nat (length [Some 0; None]) = 2 ∧
  ∀ h s, 0 <= h < 2 → [Some 0; None] !!! h = Some s → 0 <= s < 2.
Proof.
  split; [reflexivity|].
  apply (read_matching_shape ascii_strip ascii_split ascii_int). reflexivity.
Defined.

Lemma read_matching_entries_witness :
  read_matching ascii_strip ascii_split ascii_int ["1 2"; ""; " 1 1 "] 2
    = Return [Some 0; None] ∧
  (∀ h s, 0 <= h < 2 → [Some 0; None] !!! h = Some s →
     ∃ line, line ∈ nonblank_lines ascii_strip ["1 2"; ""; " 1 1 "] ∧
             line_names ascii_split ascii_int line h s) ∧
  (∀ line, line ∈ nonblank_lines ascii_strip ["1 2"; ""; " 1 1 "] →
     ∃ h s, 0 <= h < 2 ∧ line_names ascii_split ascii_int line h s ∧
            [Some 0; None] !!! h ≠ None).
Proof.
  split; [reflexivity|].
  apply (read_matching_entries ascii_strip ascii_split ascii_int). reflexivity.
Defined.

Lemma read_input_shape_witness :
  read_input ascii_strip ascii_split ascii_int ["2"; "1 2"; " 2 1 "; ""; "2 2"; "1 2"]
    = Return (2, [[0; 1]; [1; 0]], [[1; 1]; [0; 1]]) ∧
  1 + 2 * 2 <= Z.of_nat (length (nonblank_lines ascii_strip
                                   ["2"; "1 2"; " 2 1 "; ""; "2 2"; "1 2"])) ∧
  length [[0; 1]; [1; 0]] = Z.to_nat 2 ∧
  length [[1; 1]; [0; 1]] = Z.to_nat 2 ∧
  Forall (fun row => Z.of_nat (length row) = 2) [[0; 1]; [1; 0]] ∧
  Forall (fun row => Z.of_nat (length row) = 2) [[1; 1]; [0; 1]].
Proof.
  split; [reflexivity|].
  apply (read_input_shape ascii_strip ascii_split ascii_int). reflexivity.
Defined.

Lemma read_input_ignores_blank_and_trailing_witness :
  read_input ascii_strip ascii_split ascii_int ["1"; "1"; "1"] = Return (1, [[0]], [[0]]) ∧
  (∀ before after blank, ["1"; "1"; "1"] = before ++ after → ascii_strip blank = "" →
     read_input ascii_strip ascii_split ascii_int (before ++ blank :: after)
       = Return (1, [[0]], [[0]])) ∧
  (∀ extra, read_input ascii_strip ascii_split ascii_int (["1"; "1"; "1"] ++ extra)
       = Return (1, [[0]], [[0]])).
Proof.
  split; [reflexivity|].
  apply (read_input_ignores_blank_and_trailing ascii_strip ascii_split ascii_int).
  reflexivity.
Defined.

Lemma read_input_blank_file_witness :
  (∀ line, line ∈ [""; "  "] → ascii_strip line = "") ∧
  read_input ascii_strip ascii_split ascii_int [""; "  "] = Uncaught IndexError.
Proof.
  assert (∀ line, line ∈ [""; "  "] → ascii_strip line = "") as H.
  { intros line [->|[->|?%elem_of_nil]%elem_of_cons]%elem_of_cons; [reflexivity..|done]. }
  split; [exact H|]. apply read_input_blank_file. exact H.
Defined.

Lemma matcher_main_nonpositive_n_witness :
  nonblank_lines ascii_strip [""; "-1"; "1 2"] = ["-1"; "1 2"] ∧
  ascii_int "-1" = Return (-1) ∧ -1 <= 0 ∧
  read_input ascii_strip ascii_split ascii_int [""; "-1"; "1 2"] = Return (-1, [], []) ∧
  matcher_main ascii_strip ascii_split ascii_int (S 0) [""; "-1"; "1 2"] = Some (Return []) ∧
  (-1 < 0 → ∀ matching_lines,
     verifier_main ascii_strip ascii_split ascii_int [""; "-1"; "1 2"] matching_lines
       = ValueError (msg_expected_pairs (-1)
           (Z.of_nat (length (nonblank_lines ascii_strip matching_lines))))).
Proof.
  split; [reflexivity|]. split; [reflexivity|]. split; [lia|].
  apply (matcher_main_nonpositive_n ascii_strip ascii_split ascii_int
           [""; "-1"; "1 2"] "-1" ["1 2"] (-1) 0); [reflexivity|reflexivity|lia].
Defined.

Lemma matcher_main_prints_every_hospital_witness :
  read_input ascii_strip ascii_split ascii_int ["2"; "1 1"; "1 1"; "1 2"; "1 2"]
    = Return (2, [[0; 0]; [0; 0]], [[0; 1]; [0; 1]]) ∧
  gale_shapley 5 2 [[0; 0]; [0; 0]] [[0; 1]; [0; 1]] = Some (Ok [0; -1]) ∧
  matcher_main ascii_strip ascii_split ascii_int 5 ["2"; "1 1"; "1 1"; "1 2"; "1 2"]
    = Some (Return ((fun h => pair_line h ([0; -1] !!! h)) <$> range 2)) ∧
  length ((fun h => pair_line h ([0; -1] !!! h)) <$> range 2) = Z.to_nat 2.
Proof.
  split; [reflexivity|]. split; [reflexivity|].
  apply (matcher_main_prints_every_hospital ascii_strip ascii_split ascii_int
           ["2"; "1 1"; "1 1"; "1 2"; "1 2"] 2 [[0; 0]; [0; 0]] [[0; 1]; [0; 1]] 5 [0; -1]);
    reflexivity.
Defined.

Lemma verifier_main_prints_verdict_witness :
  read_input ascii_strip ascii_split ascii_int ["2"; "2 1"; "1 2"; "1 2"; "1 2"]
    = Return (2, [[1; 0]; [0; 1]], [[0; 1]; [0; 1]]) ∧
  valid_instance 2 [[1; 0]; [0; 1]] [[0; 1]; [0; 1]] ∧
  read_matching ascii_strip ascii_split ascii_int ["1 1"; "2 2"] 2
    = Return [Some 0; Some 1] ∧
  ∃ v, verify 2 [[1; 0]; [0; 1]] [[0; 1]; [0; 1]] [Some 0; Some 1] = Ok v ∧
       verifier_main ascii_strip ascii_split ascii_int
         ["2"; "2 1"; "1 2"; "1 2"; "1 2"] ["1 1"; "2 2"] = Return (print_verdict v) ∧
       printed_as v (print_verdict v).
Proof.
  assert (valid_instance 2 [[1; 0]; [0; 1]] [[0; 1]; [0; 1]]) as Hv
    by (apply (bool_decide_unpack _); vm_compute; exact I).
  split; [reflexivity|]. split; [exact Hv|]. split; [reflexivity|].
  apply (verifier_main_prints_verdict ascii_strip ascii_split ascii_int
           ["2"; "2 1"; "1 2"; "1 2"; "1 2"] ["1 1"; "2 2"]);
    [reflexivity|exact Hv|reflexivity].
Defined.

Lemma ascii_builtins_read_pair_lines :
  (∀ a b, 0 <= a < 2 → 0 <= b < 2 → ascii_strip (pair_line a b) = pair_line a b) ∧
  (∀ a b, 0 <= a < 2 → 0 <= b < 2 →
     ascii_split (pair_line a b) = [pretty (a + 1); pretty (b + 1)]) ∧
  (∀ a, 0 <= a < 2 → ascii_int (pretty (a + 1)) = Return (a + 1)).
Proof.
  split_and!.
  - intros a b Ha Hb. assert (a = 0 ∨ a = 1) as [-> | ->] by lia;
      assert (b = 0 ∨ b = 1) as [-> | ->] by lia; reflexivity.
  - intros a b Ha Hb. assert (a = 0 ∨ a = 1) as [-> | ->] by lia;
      assert (b = 0 ∨ b = 1) as [-> | ->] by lia; reflexivity.
  - intros a Ha. assert (a = 0 ∨ a = 1) as [-> | ->] by lia; reflexivity.
Defined.

Lemma print_then_read_matching_witness :
  (∀ a b, 0 <= a < 2 → 0 <= b < 2 → ascii_strip (pair_line a b) = pair_line a b) ∧
  (∀ a b, 0 <= a < 2 → 0 <= b < 2 →
     ascii_split (pair_line a b) = [pretty (a + 1); pretty (b + 1)]) ∧
  (∀ a, 0 <= a < 2 → ascii_int (pretty (a + 1)) = Return (a + 1)) ∧
  Z.of_nat (length [1; 1]) = 2 ∧
  (∀ h, 0 <= h < 2 → 0 <= [1; 1] !!! h < 2) ∧
  ∃ printed,
    print_pairs [1; 1] (range 2) = Ok printed ∧
    read_matching ascii_strip ascii_split ascii_int printed 2 = Return (Some <$> [1; 1]).
Proof.
  destruct ascii_builtins_read_pair_lines as (H1 & H2 & H3).
  assert (∀ h, 0 <= h < 2 → 0 <= [1; 1] !!! h < 2) as HM.
  { intros h Hh. assert (h = 0 ∨ h = 1) as [-> | ->] by lia;
      vm_compute; (split; [discriminate|reflexivity]). }
  split; [exact H1|]. split; [exact H2|]. split; [exact H3|]. split; [reflexivity|].
  split; [exact HM|].
  apply (print_then_read_matching ascii_strip ascii_split ascii_int 2 [1; 1]);
    [exact H1|exact H2|exact H3|reflexivity|exact HM].
Defined.

Lemma matcher_output_passes_verifier_witness :
  (∀ a b, 0 <= a < 2 → 0 <= b < 2 → ascii_strip (pair_line a b) = pair_line a b) ∧
  (∀ a b, 0 <= a < 2 → 0 <= b < 2 →
     ascii_split (pair_line a b) = [pretty (a + 1); pretty (b + 1)]) ∧
  (∀ a, 0 <= a < 2 → ascii_int (pretty (a + 1)) = Return (a + 1)) ∧
  read_input ascii_strip ascii_split ascii_int ["2"; "1 2"; "1 2"; "2 1"; "1 2"]
    = Return (2, [[0; 1]; [0; 1]], [[1; 0]; [0; 1]]) ∧
  valid_instance 2 [[0; 1]; [0; 1]] [[1; 0]; [0; 1]] ∧
  0 <= 2 ∧ 2 * 2 < Z.of_nat 5 ∧
  ∃ printed,
    matcher_main ascii_strip ascii_split ascii_int 5 ["2"; "1 2"; "1 2"; "2 1"; "1 2"]
      = Some (Return printed) ∧
    verifier_main ascii_strip ascii_split ascii_int ["2"; "1 2"; "1 2"; "2 1"; "1 2"] printed
      = Return "VALID STABLE".
Proof.
  destruct ascii_builtins_read_pair_lines as (H1 & H2 & H3).
  assert (valid_instance 2 [[0; 1]; [0; 1]] [[1; 0]; [0; 1]]) as Hv
    by (apply (bool_decide_unpack _); vm_compute; exact I).
  split; [exact H1|]. split; [exact H2|]. split; [exact H3|]. split; [reflexivity|].
  split; [exact Hv|]. split; [lia|]. split; [lia|].
  apply (matcher_output_passes_verifier ascii_strip ascii_split ascii_int
           ["2"; "1 2"; "1 2"; "2 1"; "1 2"] 2 [[0; 1]; [0; 1]] [[1; 0]; [0; 1]] 5);
    [exact H1|exact H2|exact H3|reflexivity|exact Hv|lia|lia].
Defined.

(** ** The engine on rows that are no permutations *)

Lemma fill_ranking_in_range prefs : ∀ ranking rank,
  (∀ x, x ∈ prefs → 0 <= x < Z.of_nat (length ranking)) →
  ∃ ranking', fill_ranking ranking rank prefs = Ok ranking' ∧
              length ranking' = length ranking.
Proof.
  induction prefs as [|y prefs IH]; intros ranking rank Hin; [by exists ranking|].
  simpl. rewrite setitem_in_range by (apply Hin; left). cbn.
  destruct (IH (<[Z.to_nat y := rank]> ranking) (rank + 1)) as (r' & -> & Hlen).
  - intros x Hx. rewrite length_insert. apply Hin. by right.
  - exists r'. split; [done|]. by rewrite Hlen, length_insert.
Qed.

Lemma rows_in_range_row n prefs a :
  rows_in_range n prefs → 0 <= a < n →
  length (prefs !!! a) = Z.to_nat n ∧ ∀ k, 0 <= k < n → 0 <= (prefs !!! a) !!! k < n.
Proof.
  intros [Hlen Hall] Ha.
  assert (prefs !!! a ∈ prefs) as Hin
    by (rewrite lookup_total_Z_eq; apply list_elem_of_lookup_total_2; lia).
  destruct (proj1 (Forall_forall _ _) Hall _ Hin) as [Hl Hrow]. split; [done|].
  intros k Hk.
  assert ((prefs !!! a) !!! k ∈ prefs !!! a) as Hk'
    by (rewrite (lookup_total_Z_eq (prefs !!! a)); apply list_elem_of_lookup_total_2; lia).
  by pose proof (proj1 (Forall_forall _ _) Hrow _ Hk') as Hx.
Qed.

Lemma ranking_rows_in_range n prefs agents :
  rows_in_range n prefs → (∀ a, a ∈ agents → 0 <= a < n) →
  ∃ table, ranking_rows n prefs agents = Ok table ∧
    Forall2 (fun a row => length row = Z.to_nat n) agents table.
Proof.
  intros Hrows Hag. induction agents as [|a agents IH].
  - exists []. split; [done|]. constructor.
  - destruct IH as (rest & Hrest & Hall); [intros b Hb; apply Hag; by right|].
    assert (0 <= a < n) as Ha by (apply Hag; left).
    pose proof Hrows as [Hlen Hforall].
    assert (prefs !!! a ∈ prefs) as Hin
      by (rewrite lookup_total_Z_eq; apply list_elem_of_lookup_total_2; lia).
    destruct (proj1 (Forall_forall _ _) Hforall _ Hin) as [_ Hrow].
    simpl. rewrite getitem_in_range by lia. cbn. unfold build_ranking.
    destruct (fill_ranking_in_range (prefs !!! a) (py_repeat 0 n) 0) as (r & -> & Hr).
    { intros x Hx. rewrite length_py_repeat.
      pose proof (proj1 (Forall_forall _ _) Hrow x Hx) as Hx'. simpl in Hx'. lia. }
    cbn. rewrite Hrest. cbn. exists (r :: rest). split; [done|].
    constructor; [|done]. by rewrite Hr, length_py_repeat.
Qed.

Lemma ranking_table_in_range n prefs :
  rows_in_range n prefs →
  ∃ table, ranking_table n prefs = Ok table ∧
    length table = Z.to_nat n ∧
    ∀ a, 0 <= a < n → length (table !!! a) = Z.to_nat n.
Proof.
  intros Hrows.
  destruct (ranking_rows_in_range n prefs (range n) Hrows) as (table & Htab & Hall).
  { intros a. by rewrite elem_of_range. }
  exists table. split; [done|]. split.
  - rewrite <- (Forall2_length _ _ _ Hall). apply length_range.
  - intros a Ha. rewrite (lookup_total_Z_eq table).
    assert (range n !! Z.to_nat a = Some a) as Hra by (unfold range; rewrite lookup_seqZ; lia).
    destruct (Forall2_lookup_l _ _ _ _ _ Hall Hra) as (row & Hrow & Hl).
    by rewrite (list_lookup_total_correct _ _ _ Hrow).
Qed.

Lemma propose_in_range n hospital_prefs student_ranking st h :
  rows_in_range n hospital_prefs →
  length student_ranking = Z.to_nat n →
  (∀ a, 0 <= a < n → length (student_ranking !!! a) = Z.to_nat n) →
  matches_in_range n st →
  0 <= h < n → next_proposal st !!! h < n →
  ∃ st', propose hospital_prefs student_ranking st h = Ok st' ∧ matches_in_range n st'.
Proof.
  intros Hhp Hlt Hlrow (Hb & Hls & Hhm & Hsm) Hh Hk.
  pose proof Hb as (Hlm & Hlp & Hcur & _). pose proof (Hcur h Hh) as Hk0.
  destruct (rows_in_range_row n hospital_prefs h Hhp Hh) as [Hlr Hrow].
  destruct Hhp as [Hlhp _].
  assert (∃ st', propose hospital_prefs student_ranking st h = Ok st' ∧
    length (student_match st') = Z.to_nat n ∧
    (∀ j, 0 <= j < n → hospital_match st' !!! j = -1 ∨ 0 <= hospital_match st' !!! j < n) ∧
    (∀ j, 0 <= j < n → student_match st' !!! j = -1 ∨ 0 <= student_match st' !!! j < n))
    as (st' & Hp & Hls' & Hhm' & Hsm').
  { set (k := next_proposal st !!! h) in *.
    pose proof (Hrow k ltac:(lia)) as Hs. set (s := (hospital_prefs !!! h) !!! k) in *.
    assert (∀ (l : list Z) i j v, length l = Z.to_nat n → 0 <= i < n → 0 <= j < n →
      <[Z.to_nat i := v]> l !!! j = if decide (i = j) then v else l !!! j) as Hins
      by (intros; apply lookup_total_Z_insert; lia).
    unfold propose, next_student.
    rewrite (getitem_in_range hospital_prefs) by lia. cbn.
    rewrite (getitem_in_range (next_proposal st)) by lia. cbn. fold k.
    rewrite (getitem_in_range (hospital_prefs !!! h)) by lia. cbn. fold s.
    rewrite (setitem_in_range (next_proposal st)) by lia. cbn.
    rewrite (getitem_in_range (student_match st)) by lia. cbn.
    case_bool_decide as Hc.
    - rewrite (setitem_in_range (hospital_match st)) by lia. cbn.
      rewrite (setitem_in_range (student_match st)) by lia. cbn.
      eexists. split; [done|]. cbn [hospital_match student_match]. split_and!.
      + by rewrite length_insert.
      + intros j Hj. rewrite Hins by done. case_decide; [by right|by apply Hhm].
      + intros j Hj. rewrite Hins by done. case_decide; [by right|by apply Hsm].
    - destruct (Hsm s Hs) as [?|Hcr]; [done|]. set (c := student_match st !!! s) in *.
      rewrite (getitem_in_range student_ranking) by lia. cbn.
      pose proof (Hlrow s Hs) as Hl.
      rewrite !(getitem_in_range (student_ranking !!! s)) by lia. cbn.
      case_bool_decide as Hlt'.
      + rewrite (setitem_in_range (hospital_match st)) by lia. cbn.
        rewrite (setitem_in_range (<[Z.to_nat c := -1]> (hospital_match st)))
          by (rewrite length_insert; lia). cbn.
        rewrite (setitem_in_range (student_match st)) by lia. cbn.
        eexists. split; [done|]. cbn [hospital_match student_match]. split_and!.
        * by rewrite length_insert.
        * intros j Hj. rewrite Hins by (rewrite ?length_insert; done).
          case_decide; [by right|]. rewrite Hins by done.
          case_decide; [by left|by apply Hhm].
        * intros j Hj. rewrite Hins by done. case_decide; [by right|by apply Hsm].
      + eexists. split; [done|]. by cbn [hospital_match student_match]. }
  exists st'. split; [done|].
  destruct (propose_cursors n _ _ st h st' Hb Hh Hk Hp) as [Hb' _]. by split_and!.
Qed.

Lemma main_loop_in_range n hospital_prefs student_ranking fuel : ∀ st,
  rows_in_range n hospital_prefs →
  length student_ranking = Z.to_nat n →
  (∀ a, 0 <= a < n → length (student_ranking !!! a) = Z.to_nat n) →
  matches_in_range n st →
  n * n - proposal_count st < Z.of_nat fuel →
  ∃ st', main_loop fuel n hospital_prefs student_ranking st = Some (Ok st') ∧
         matches_in_range n st'.
Proof.
  induction fuel as [|fuel IH]; intros st Hhp Hlt Hlrow Hm Hfuel.
  - pose proof (cursors_bounded_count n st (proj1 Hm)). lia.
  - pose proof Hm as ((Hlm & Hlp & _) & _).
    destruct (find_free_spec n st (range n) Hlm Hlp) as (h & Hf & Hcases).
    { intros h. by rewrite elem_of_range. }
    simpl. unfold iteration. rewrite Hf. cbn.
    destruct Hcases as [[-> _]|(Hin%elem_of_range & Hfree & Hk)]; [by exists st|].
    rewrite bool_decide_eq_false_2 by lia.
    destruct (propose_in_range n hospital_prefs student_ranking st h Hhp Hlt Hlrow Hm Hin Hk)
      as (st' & Hp & Hm').
    rewrite Hp. cbn.
    destruct (propose_cursors n _ _ st h st' (proj1 Hm) Hin Hk Hp) as [_ Hc].
    apply IH; [done..|lia].
Qed.

Lemma init_state_in_range n : matches_in_range n (init_state n).
Proof.
  split_and!; [apply init_state_cursors|apply length_py_repeat|..];
    intros j Hj; left; by apply lookup_total_Z_replicate.
Qed.

(** X20. The engine needs the shape of its input, not its meaning: on
    tables of [n] rows of [n] indices in [0..n-1], permutations or not,
    it raises nothing and returns, within [n * n] proposals, a list of
    [n] entries, each a student index or the sentinel [-1] of a hospital
    that ran out of students. *)
Theorem engine_returns_on_rows_in_range n hospital_prefs student_prefs fuel :
  rows_in_range n hospital_prefs → rows_in_range n student_prefs →
  n * n < Z.of_nat fuel →
  ∃ M, gale_shapley fuel n hospital_prefs student_prefs = Some (Ok M) ∧
       length M = Z.to_nat n ∧
       ∀ h, 0 <= h < n → M !!! h = -1 ∨ 0 <= M !!! h < n.
Proof.
  intros Hhp Hsp Hfuel. unfold gale_shapley, run.
  destruct (ranking_table_in_range n student_prefs Hsp) as (srank & -> & Hlt & Hlrow).
  destruct (main_loop_in_range n hospital_prefs srank fuel (init_state n) Hhp Hlt Hlrow
              (init_state_in_range n)) as (st & -> & (Hlm & _) & _ & Hhm & _);
    [simpl; lia|].
  exists (hospital_match st). split; [done|]. split; [apply Hlm|done].
Qed.

Lemma engine_returns_on_rows_in_range_witness :
  rows_in_range 2 [[0; 0]; [0; 0]] ∧ rows_in_range 2 [[1; 1]; [0; 0]] ∧
  2 * 2 < Z.of_nat 5 ∧
  ∃ M, gale_shapley 5 2 [[0; 0]; [0; 0]] [[1; 1]; [0; 0]] = Some (Ok M) ∧
       length M = Z.to_nat 2 ∧
       ∀ h, 0 <= h < 2 → M !!! h = -1 ∨ 0 <= M !!! h < 2.
Proof.
  assert (rows_in_range 2 [[0; 0]; [0; 0]]) as H1
    by (apply (bool_decide_unpack _); vm_compute; exact I).
  assert (rows_in_range 2 [[1; 1]; [0; 0]]) as H2
    by (apply (bool_decide_unpack _); vm_compute; exact I).
  split; [exact H1|]. split; [exact H2|]. split; [lia|].
  apply engine_returns_on_rows_in_range; [exact H1|exact H2|lia].
Defined.

(** ** The engine on a hospital table that is too short *)

Lemma setitem_lookup_other (xs xs' : list Z) i v j :
  setitem xs i v = Ok xs' → xs' !!! j = v ∨ xs' !!! j = xs !!! j.
Proof.
  unfold setitem. intros (k & _ & [= <-])%bind_Ok.
  rewrite !(lookup_total_Z_eq _ j).
  destruct (decide (k = Z.to_nat j)) as [->|Hne];
    [|right; by apply list_lookup_total_insert_ne].
  destruct (decide (Z.to_nat j < length xs)%nat).
  - left. by apply list_lookup_total_insert_eq.
  - right. by rewrite list_insert_ge by lia.
Qed.

Lemma setitem_lookup_ne (xs xs' : list Z) i v j :
  setitem xs i v = Ok xs' → 0 <= i → 0 <= j → i ≠ j → xs' !!! j = xs !!! j.
Proof.
  intros Hset Hi Hj Hne. pose proof (setitem_Ok _ _ _ _ Hset) as Hr.
  rewrite setitem_in_range in Hset by lia. injection Hset as <-.
  by apply lookup_total_Z_insert_ne.
Qed.

Lemma propose_keeps_unmatched n hospital_prefs student_ranking st h st' j :
  cursors_bounded n st →
  0 <= h < n → 0 <= j → j ≠ h →
  propose hospital_prefs student_ranking st h = Ok st' →
  hospital_match st !!! j = -1 →
  hospital_match st' !!! j = -1 ∧ next_proposal st' !!! j = next_proposal st !!! j.
Proof.
  intros (Hlm & Hlp & _) Hh Hj Hne. unfold propose.
  intros (student & _ & Hrest)%bind_Ok Hfree.
  rewrite (getitem_in_range (next_proposal st)) in Hrest by lia. cbn in Hrest.
  rewrite (setitem_in_range (next_proposal st)) in Hrest by lia. cbn in Hrest.
  apply bind_Ok in Hrest as (cur & _ & Hrest).
  assert (<[Z.to_nat h := next_proposal st !!! h + 1]> (next_proposal st) !!! j
            = next_proposal st !!! j) as Hnp
    by (apply lookup_total_Z_insert_ne; lia).
  case_bool_decide.
  - apply bind_Ok in Hrest as (hm & Hhm & Hrest). apply bind_Ok in Hrest as (sm & _ & [= <-]).
    split; [|done]. cbn. by rewrite (setitem_lookup_ne _ _ _ _ _ Hhm) by lia.
  - apply bind_Ok in Hrest as (c & _ & Hrest). apply bind_Ok in Hrest as (row & _ & Hrest).
    apply bind_Ok in Hrest as (rn & _ & Hrest). apply bind_Ok in Hrest as (row' & _ & Hrest).
    apply bind_Ok in Hrest as (rc & _ & Hrest). case_bool_decide.
    + apply bind_Ok in Hrest as (hm & Hhm & Hrest).
      apply bind_Ok in Hrest as (hm' & Hhm' & Hrest).
      apply bind_Ok in Hrest as (sm & _ & [= <-]).
      split; [|done]. cbn. rewrite (setitem_lookup_ne _ _ _ _ _ Hhm') by lia.
      destruct (setitem_lookup_other _ _ _ _ j Hhm) as [->| ->]; done.
    + injection Hrest as <-. by split.
Qed.

Lemma find_free_Raise n st hs e : find_free n st hs = Raise e → e = IndexError.
Proof.
  induction hs as [|h hs IH]; simpl; [done|].
  destruct (getitem (hospital_match st) h) as [m|e'] eqn:Hm; cbn;
    [|intros [= <-]; by eapply getitem_Raise].
  case_bool_decide; [|by apply IH].
  destruct (getitem (next_proposal st) h) as [k|e'] eqn:Hk; cbn;
    [|intros [= <-]; by eapply getitem_Raise].
  case_bool_decide; [done|by apply IH].
Qed.

Lemma bind_Raise {A B} (m : result A) (f : A → result B) e :
  m ≫= f = Raise e → m = Raise e ∨ ∃ a, m = Ok a ∧ f a = Raise e.
Proof.
  destruct m as [a|e']; intros H; [right; by exists a|left].
  change (@Raise B e' = Raise e) in H. by injection H as ->.
Qed.

Ltac raise_step H :=
  apply bind_Raise in H as [H|(? & _ & H)];
  [first [by eapply getitem_Raise|by eapply setitem_Raise]|].

Lemma propose_Raise hospital_prefs student_ranking st h e :
  propose hospital_prefs student_ranking st h = Raise e → e = IndexError.
Proof.
  unfold propose. intros [Hr|(student & _ & Hr)]%bind_Raise.
  - unfold next_student in Hr. raise_step Hr. raise_step Hr. by eapply getitem_Raise.
  - raise_step Hr. raise_step Hr. raise_step Hr. case_bool_decide.
    + raise_step Hr. raise_step Hr. done.
    + raise_step Hr. raise_step Hr. raise_step Hr. raise_step Hr. raise_step Hr.
      case_bool_decide; [|done].
      raise_step Hr. raise_step Hr. raise_step Hr. done.
Qed.

Lemma main_loop_Raise n hospital_prefs student_ranking fuel : ∀ st e,
  main_loop fuel n hospital_prefs student_ranking st = Some (Raise e) → e = IndexError.
Proof.
  induction fuel as [|fuel IH]; intros st e; [done|]. simpl. unfold iteration.
  destruct (find_free n st (range n)) as [h|e'] eqn:Hf; cbn;
    [|intros [= <-]; by eapply find_free_Raise].
  case_bool_decide; [done|].
  destruct (propose hospital_prefs student_ranking st h) as [st'|e'] eqn:Hp; cbn;
    [by apply IH|intros [= <-]; by eapply propose_Raise].
Qed.

Lemma main_loop_short_table n hospital_prefs student_ranking fuel : ∀ st st',
  Z.of_nat (length hospital_prefs) < n →
  cursors_bounded n st →
  hospital_match st !!! Z.of_nat (length hospital_prefs) = -1 →
  next_proposal st !!! Z.of_nat (length hospital_prefs) = 0 →
  main_loop fuel n hospital_prefs student_ranking st ≠ Some (Ok st').
Proof.
  induction fuel as [|fuel IH]; intros st st' Hshort Hb Hfree Hk; [done|].
  set (h0 := Z.of_nat (length hospital_prefs)) in *.
  pose proof Hb as (Hlm & Hlp & _).
  destruct (find_free_spec n st (range n) Hlm Hlp) as (h & Hf & Hcases).
  { intros h. by rewrite elem_of_range. }
  simpl. unfold iteration. rewrite Hf. cbn.
  destruct Hcases as [[-> Hnone]|(Hin%elem_of_range & Hm & Hlt)].
  { destruct (Hnone h0); [apply elem_of_range; lia|split; [done|lia]]. }
  rewrite bool_decide_eq_false_2 by lia.
  destruct (propose hospital_prefs student_ranking st h) as [st1|e] eqn:Hp; cbn; [|done].
  destruct (decide (h = h0)) as [->|Hne].
  - unfold propose, next_student in Hp.
    rewrite (getitem_out_of_range hospital_prefs) in Hp by (unfold h0; lia). done.
  - destruct (propose_cursors n _ _ st h st1 Hb Hin Hlt Hp) as [Hb' _].
    destruct (propose_keeps_unmatched n _ _ st h st1 h0 Hb Hin ltac:(lia) ltac:(congruence)
                Hp Hfree)
      as [Hfree' Hk'].
    apply IH; [done..|congruence].
Qed.

(** X21. The engine does not check the hospital table either, and finds
    out late: when it has fewer than [n] rows, the hospital of the first
    missing row can never be matched, the loop cannot break, and the run
    ends in [IndexError] when that hospital's turn to propose comes. *)
Theorem engine_rejects_short_hospital_table n hospital_prefs student_prefs fuel :
  Z.of_nat (length hospital_prefs) < n →
  n * n < Z.of_nat fuel →
  gale_shapley fuel n hospital_prefs student_prefs = Some (Raise IndexError).
Proof.
  intros Hshort Hfuel. unfold gale_shapley, run.
  destruct (ranking_table n student_prefs) as [srank|e] eqn:Htab;
    [|by apply ranking_rows_Raise in Htab as ->].
  destruct (main_loop_total n hospital_prefs srank fuel (init_state n))
    as (r & Hloop & _); [apply init_state_cursors|simpl; lia|].
  rewrite Hloop. destruct r as [st|e].
  - exfalso. revert Hloop. apply main_loop_short_table; [done|apply init_state_cursors|..];
      simpl; apply lookup_total_Z_replicate; lia.
  - by apply main_loop_Raise in Hloop as ->.
Qed.

Lemma engine_rejects_short_hospital_table_witness :
  Z.of_nat (length [[1; 0]]) < 2 ∧ 2 * 2 < Z.of_nat 5 ∧
  gale_shapley 5 2 [[1; 0]] [[0; 1]; [0; 1]] = Some (Raise IndexError).
Proof.
  split; [simpl; lia|]. split; [lia|].
  apply engine_rejects_short_hospital_table; [simpl; lia|lia].
Defined.

Section matcher_on_rows.
Context (py_strip : string → string).
Context (py_split : string → list string).
Context (py_int : string → outcome Z).

(** X22. A file that [read_input] accepts and whose preference numbers
    all lie between [1] and [n] cannot make the matcher fail, whether or
    not its rows are permutations: [main] prints [n] lines, in which a
    hospital left without a student shows the student number [0]. *)
Theorem matcher_main_on_rows_in_range file_lines n hospital_prefs student_prefs fuel :
  read_input py_strip py_split py_int file_lines
    = Return (n, hospital_prefs, student_prefs) →
  Forall (Forall (fun x => 0 <= x < n)) hospital_prefs →
  Forall (Forall (fun x => 0 <= x < n)) student_prefs →
  n * n < Z.of_nat fuel →
  ∃ M : list Z,
    matcher_main py_strip py_split py_int fuel file_lines
      = Some (Return ((fun h => pair_line h (M !!! h)) <$> range n)) ∧
    ∀ h, 0 <= h < n → M !!! h = -1 ∨ 0 <= M !!! h < n.
Proof.
  intros Hread Hhr Hsr Hfuel.
  assert (rows_in_range n hospital_prefs ∧ rows_in_range n student_prefs) as [Hhp Hsp].
  { revert Hread. unfold read_input. cbn zeta.
    intros (first & _ & Hrest)%bind_Return. apply bind_Return in Hrest as (n' & _ & Hrest).
    case_bool_decide as Hlen; [done|].
    apply bind_Return in Hrest as (hp & Hhp & Hrest).
    apply bind_Return in Hrest as (sp & Hsp & [= -> -> ->]).
    destruct (read_rows_shape _ _ _ _ _ _ _ _ Hhp) as [Hlh Hfh].
    destruct (read_rows_shape _ _ _ _ _ _ _ _ Hsp) as [Hls Hfs].
    rewrite length_seqZ in Hlh, Hls.
    split; (split; [done|]); apply Forall_and; (split; [|done]);
      (eapply Forall_impl; [eassumption|]); intros row Hrow; simpl in *; lia. }
  destruct (ranking_table_in_range n student_prefs Hsp) as (srank & Htab & Hlt & Hlrow).
  destruct (main_loop_in_range n hospital_prefs srank fuel (init_state n) Hhp Hlt Hlrow
              (init_state_in_range n)) as (st & Hloop & (Hlm & _) & _ & Hhm & _);
    [simpl; lia|].
  exists (hospital_match st). split; [|done].
  unfold matcher_main, gale_shapley, run. rewrite Hread, Htab, Hloop.
  by rewrite print_pairs_range by apply Hlm.
Qed.
End matcher_on_rows.

Lemma matcher_main_on_rows_in_range_witness :
  read_input ascii_strip ascii_split ascii_int ["2"; "1 1"; "1 1"; "1 2"; "1 2"]
    = Return (2, [[0; 0]; [0; 0]], [[0; 1]; [0; 1]]) ∧
  Forall (Forall (fun x => 0 <= x < 2)) [[0; 0]; [0; 0]] ∧
  Forall (Forall (fun x => 0 <= x < 2)) [[0; 1]; [0; 1]] ∧
  2 * 2 < Z.of_nat 5 ∧
  ∃ M : list Z,
    matcher_main ascii_strip ascii_split ascii_int 5 ["2"; "1 1"; "1 1"; "1 2"; "1 2"]
      = Some (Return ((fun h => pair_line h (M !!! h)) <$> range 2)) ∧
    ∀ h, 0 <= h < 2 → M !!! h = -1 ∨ 0 <= M !!! h < 2.
Proof.
  assert (Forall (Forall (fun x => 0 <= x < 2)) [[0; 0]; [0; 0]]) as H1
    by (apply (bool_decide_unpack _); vm_compute; exact I).
  assert (Forall (Forall (fun x => 0 <= x < 2)) [[0; 1]; [0; 1]]) as H2
    by (apply (bool_decide_unpack _); vm_compute; exact I).
  split; [reflexivity|]. split; [exact H1|]. split; [exact H2|]. split; [lia|].
  apply (matcher_main_on_rows_in_range ascii_strip ascii_split ascii_int
           ["2"; "1 1"; "1 1"; "1 2"; "1 2"] 2 [[0; 0]; [0; 0]] [[0; 1]; [0; 1]] 5);
    [reflexivity|exact H1|exact H2|lia].
Defined.
